(** * gmail_agent: the three-stage e-mail triage pipeline

    A shallow embedding of [agents/email_classifier.py],
    [agents/priority_analyzer.py], [agents/response_drafter.py],
    [utils/llm_handler.py] and [config/gmail_config.py].

    - A Python [str] is the list of its Unicode code points.
    - A Python [dict] with string keys is a [gmap] from strings to values.
    - Code that can raise returns a [result]; code that talks to the
      language model runs in a state monad over the log of requests sent.
    - The Unicode tables behind [str.lower], [str.isspace] and the regular
      expression class [\w], the formatting of values that are not
      strings, and the remote chat-completion service are section
      variables: every theorem holds for all of them. *)

From Stdlib Require Import ZArith NArith List Ascii String Lia SpecFloat.
From stdpp Require Import gmap list sorting.

Set Warnings "-register-all,-clear-no-such-hyp".

(** ** Python strings *)

Module PyStr.

Abbreviation pystr := (list N).

Fixpoint utf8_bytes (s : string) : list N :=
  match s with
  | EmptyString => []
  | String a s' => N_of_ascii a :: utf8_bytes s'
  end.

(** Source literals are written as UTF-8 text and decoded once. *)
Fixpoint utf8_decode (bs : list N) : pystr :=
  match bs with
  | [] => []
  | b0 :: r0 =>
    if (b0 <? 128)%N then b0 :: utf8_decode r0
    else if (b0 <? 224)%N then
      match r0 with
      | b1 :: r1 => ((b0 - 192) * 64 + (b1 - 128))%N :: utf8_decode r1
      | _ => []
      end
    else if (b0 <? 240)%N then
      match r0 with
      | b1 :: b2 :: r2 =>
        ((b0 - 224) * 4096 + (b1 - 128) * 64 + (b2 - 128))%N :: utf8_decode r2
      | _ => []
      end
    else
      match r0 with
      | b1 :: b2 :: b3 :: r3 =>
        ((b0 - 240) * 262144 + (b1 - 128) * 4096 + (b2 - 128) * 64 + (b3 - 128))%N
          :: utf8_decode r3
      | _ => []
      end
  end.

Definition u (s : string) : pystr := utf8_decode (utf8_bytes s).

(** [s.startswith(p)] *)
Fixpoint starts_with (p s : pystr) : bool :=
  match p, s with
  | [], _ => true
  | _ :: _, [] => false
  | a :: p', b :: s' => (a =? b)%N && starts_with p' s'
  end.

(** [needle in hay] on two strings *)
Fixpoint contains (needle hay : pystr) : bool :=
  starts_with needle hay ||
  match hay with
  | [] => false
  | _ :: hay' => contains needle hay'
  end.

(** [s.split(sep)] for a one-character separator *)
Fixpoint split_on (sep : N) (s : pystr) : list pystr :=
  match s with
  | [] => [[]]
  | c :: s' =>
    if (c =? sep)%N then [] :: split_on sep s'
    else match split_on sep s' with
         | [] => [[c]]
         | w :: ws => (c :: w) :: ws
         end
  end.

Section Strip.
Variable is_space : N -> bool.

Fixpoint lstrip (s : pystr) : pystr :=
  match s with
  | [] => []
  | c :: s' => if is_space c then lstrip s' else s
  end.

Definition rstrip (s : pystr) : pystr := rev (lstrip (rev s)).

(** [s.strip()] *)
Definition strip (s : pystr) : pystr := rstrip (lstrip s).
End Strip.

End PyStr.
Import PyStr.
#[global] Arguments u : simpl never.

(** ** Python values, exceptions and results *)

Inductive pyval :=
| PNone
| PBool (b : bool)
| PInt (z : Z)
| PFloat (f : spec_float)
| PStr (s : pystr)
| PList (l : list pyval)
| PDict (d : gmap pystr pyval).

Abbreviation pydict := (gmap pystr pyval).

Inductive exn_class :=
| ValueError | KeyError | TypeError | AttributeError | ServiceError.

(** An exception is its class and the text [str(e)] gives. *)
Record exn := Exn { exn_cls : exn_class; exn_msg : pystr }.

Inductive result (A : Type) :=
| Ok (a : A)
| Raise (e : exn).
Arguments Ok {A} a.
Arguments Raise {A} e.

#[global] Instance result_ret : MRet result := fun A a => Ok a.
#[global] Instance result_bind : MBind result := fun A B f m =>
  match m with
  | Ok a => f a
  | Raise e => Raise e
  end.
#[global] Instance result_fmap : FMap result := fun A B f m =>
  match m with
  | Ok a => Ok (f a)
  | Raise e => Raise e
  end.

#[global] Instance exn_class_eq_dec : EqDecision exn_class.
Proof. solve_decision. Defined.
#[global] Instance exn_eq_dec : EqDecision exn.
Proof. solve_decision. Defined.
#[global] Instance result_eq_dec {A} `{EqDecision A} : EqDecision (result A).
Proof. solve_decision. Defined.

Definition is_ok {A} (r : result A) : bool :=
  match r with Ok _ => true | Raise _ => false end.

(** Binary64 arithmetic, from the Standard Library's specification of
    IEEE 754. *)
Module Float.
Definition prec : Z := 53.
Definition emax : Z := 1024.

Definition of_Z (z : Z) : spec_float := binary_normalize prec emax z 0 false.

(** [a / b] on two ints: the quotient, correctly rounded. *)
Definition int_truediv (a b : Z) : spec_float :=
  match a, b with
  | Zpos p, Zpos q => SFdiv prec emax (S754_finite false p 0) (S754_finite false q 0)
  | Zneg p, Zpos q => SFdiv prec emax (S754_finite true p 0) (S754_finite false q 0)
  | Zpos p, Zneg q => SFdiv prec emax (S754_finite false p 0) (S754_finite true q 0)
  | Zneg p, Zneg q => SFdiv prec emax (S754_finite true p 0) (S754_finite true q 0)
  | Z0, Z0 => S754_nan
  | Z0, Zpos _ => S754_zero false
  | Z0, Zneg _ => S754_zero true
  | _, Z0 => S754_nan
  end.

(** A decimal literal [num / 10^k] denotes the nearest double. *)
Definition literal (num den : Z) : spec_float := int_truediv num den.

Definition mul (x y : spec_float) : spec_float := SFmul prec emax x y.

(** Nearest integer to [n / d], ties to even ([0 < d]). *)
Definition round_half_even (n d : Z) : Z :=
  let q := (n / d)%Z in
  let r := (n mod d)%Z in
  match (2 * r ?= d)%Z with
  | Lt => q
  | Gt => (q + 1)%Z
  | Eq => if Z.even q then q else (q + 1)%Z
  end.

(** [round(x, 1)]: the exact value of [x] is rounded to one decimal,
    ties to even, and the decimal is read back as a double. *)
Definition round1 (x : spec_float) : spec_float :=
  match x with
  | S754_finite s m e =>
    let tenths :=
      match e with
      | Zneg k => round_half_even (Zpos m * 10) (Z.pow_pos 2 k)
      | _ => (Zpos m * 10 * 2 ^ e)%Z
      end in
    match tenths with
    | Zpos t => SFdiv prec emax (S754_finite s t 0) (S754_finite false 10 0)
    | _ => S754_zero s
    end
  | _ => x
  end.

Definition is_zero (x : spec_float) : bool :=
  match x with S754_zero _ => true | _ => false end.
End Float.

(** ** Operations on values *)

Module Py.

(** Truth value of an object, as [if v:] and [not v] test it. *)
Definition truthy (v : pyval) : bool :=
  match v with
  | PNone => false
  | PBool b => b
  | PInt z => negb (z =? 0)%Z
  | PFloat f => negb (Float.is_zero f)
  | PStr s => negb (Nat.eqb (length s) 0)
  | PList l => negb (Nat.eqb (length l) 0)
  | PDict d => negb (bool_decide (d = ∅))
  end.

(** [v == 'literal'] *)
Definition eq_str (v : pyval) (s : pystr) : bool :=
  match v with
  | PStr t => bool_decide (t = s)
  | _ => false
  end.

(** [v in [s1, s2, ...]] for a list of string literals *)
Definition in_str_list (v : pyval) (l : list pystr) : bool :=
  existsb (eq_str v) l.

Definition class_name (v : pyval) : pystr :=
  match v with
  | PNone => u "NoneType"
  | PBool _ => u "bool"
  | PInt _ => u "int"
  | PFloat _ => u "float"
  | PStr _ => u "str"
  | PList _ => u "list"
  | PDict _ => u "dict"
  end.

Definition no_attribute (v : pyval) (attr : pystr) : exn :=
  Exn AttributeError
      (u "'" ++ class_name v ++ u "' object has no attribute '" ++ attr ++ u "'").

(** [d[k]] on a dict *)
Definition getitem (d : pydict) (k : pystr) : result pyval :=
  match d !! k with
  | Some v => Ok v
  | None => Raise (Exn KeyError (u "'" ++ k ++ u "'"))
  end.

(** [d.get(k, default)] on a dict *)
Definition dict_get (d : pydict) (k : pystr) (dflt : pyval) : pyval :=
  default dflt (d !! k).

(** [v.get(k, default)] on any object: only a dict has the method. *)
Definition get (v : pyval) (k : pystr) (dflt : pyval) : result pyval :=
  match v with
  | PDict d => Ok (dict_get d k dflt)
  | _ => Raise (no_attribute v (u "get"))
  end.

(** [len(v)] *)
Definition len (v : pyval) : result Z :=
  match v with
  | PStr s => Ok (Z.of_nat (length s))
  | PList l => Ok (Z.of_nat (length l))
  | PDict d => Ok (Z.of_nat (size d))
  | _ => Raise (Exn TypeError
                    (u "object of type '" ++ class_name v ++ u "' has no len()"))
  end.

(** [v[:n]]; a dict rejects the slice as a key (CPython up to 3.11). *)
Definition slice_to (v : pyval) (n : nat) : result pyval :=
  match v with
  | PStr s => Ok (PStr (take n s))
  | PList l => Ok (PList (take n l))
  | PDict _ => Raise (Exn TypeError (u "unhashable type: 'slice'"))
  | _ => Raise (Exn TypeError
                    (u "'" ++ class_name v ++ u "' object is not subscriptable"))
  end.

(** Whether [v] can be used as a dict key ([hash(v)] succeeds). *)
Definition hashable (v : pyval) : bool :=
  match v with
  | PList _ | PDict _ => false
  | _ => true
  end.

Definition unhashable (v : pyval) : exn :=
  Exn TypeError (u "unhashable type: '" ++ class_name v ++ u "'").

(** [v in d] for a dict [d] with string keys *)
Definition key_in {A} (v : pyval) (d : gmap pystr A) : result bool :=
  match v with
  | PStr s => Ok (bool_decide (is_Some (d !! s)))
  | PList _ | PDict _ => Raise (unhashable v)
  | _ => Ok false
  end.

(** [d.get(v, default)] for a dict [d] with string keys and any key [v] *)
Definition lookup_or {A} (d : gmap pystr A) (v : pyval) (dflt : A) : result A :=
  match v with
  | PStr s => Ok (default dflt (d !! s))
  | PList _ | PDict _ => Raise (unhashable v)
  | _ => Ok dflt
  end.

(** A dict display [{k1: v1, k2: v2, ...}]: later items win. *)
Definition dict_of {A} (items : list (pystr * A)) : gmap pystr A :=
  fold_left (fun d kv => <[kv.1 := kv.2]> d) items ∅.

(** Keys of a dict display, in insertion order and without repetition. *)
Definition keys_of {A} (items : list (pystr * A)) : list pystr :=
  fold_left (fun ks kv => if bool_decide (kv.1 ∈ ks) then ks else ks ++ [kv.1])
            items [].

(** [v[k]] for a string key [k] on any object *)
Definition subscript (v : pyval) (k : pystr) : result pyval :=
  match v with
  | PDict d => getitem d k
  | PStr _ => Raise (Exn TypeError (u "string indices must be integers, not 'str'"))
  | PList _ => Raise (Exn TypeError (u "list indices must be integers or slices, not str"))
  | _ => Raise (Exn TypeError
                    (u "'" ++ class_name v ++ u "' object is not subscriptable"))
  end.

(** ['k' in v] for a string [k] on any object: a key of a dict, a
    substring of a string, an element of a list. *)
Definition contains_str (k : pystr) (v : pyval) : result bool :=
  match v with
  | PDict d => Ok (bool_decide (is_Some (d !! k)))
  | PStr s => Ok (contains k s)
  | PList l => Ok (existsb (fun x => eq_str x k) l)
  | _ => Raise (Exn TypeError
                    (u "argument of type '" ++ class_name v ++ u "' is not iterable"))
  end.

(** [for x in v]: the items the loop goes through. A dict gives its keys
    (here in the order of the map, not in insertion order). *)
Definition iterate (v : pyval) : result (list pyval) :=
  match v with
  | PList l => Ok l
  | PStr s => Ok ((fun c => PStr [c]) <$> s)
  | PDict d => Ok ((fun kv => PStr kv.1) <$> map_to_list d)
  | _ => Raise (Exn TypeError (u "'" ++ class_name v ++ u "' object is not iterable"))
  end.

End Py.

(** ** Regular expressions

    The fragment of [re] the agents use: literals, character classes,
    greedy repetition of a class, and one capture group. *)

Module Re.

Inductive regex :=
| Lit (s : pystr)
| Set_ (p : N -> bool)
| Star (p : N -> bool)
| Plus (p : N -> bool)
| Group (r : regex)
| Seq (r1 r2 : regex).

(** The prefixes of the longest run of [p] at the head of [s], each with
    what follows it, longest first: the order in which a greedy [p*]
    tries them. *)
Fixpoint runs (p : N -> bool) (s : pystr) : list (pystr * pystr) :=
  match s with
  | c :: s' =>
    if p c then map (fun '(a, b) => (c :: a, b)) (runs p s') ++ [([], s)]
    else [([], s)]
  | [] => [([], [])]
  end.

(** All ways for [r] to match at the head of [s], in the order the
    backtracking matcher explores them: for each, the text consumed, the
    text captured by the group, and the rest of [s]. *)
Fixpoint matches (r : regex) (s : pystr) : list (pystr * option pystr * pystr) :=
  match r with
  | Lit l => if starts_with l s then [(l, None, drop (length l) s)] else []
  | Set_ p =>
    match s with
    | c :: s' => if p c then [([c], None, s')] else []
    | [] => []
    end
  | Star p => map (fun '(a, b) => (a, None, b)) (runs p s)
  | Plus p =>
    map (fun '(a, b) => (a, None, b))
        (filter (fun ab => ab.1 ≠ []) (runs p s))
  | Group r1 => map (fun '(a, _, b) => (a, Some a, b)) (matches r1 s)
  | Seq r1 r2 =>
    flat_map (fun '(a1, g1, rest1) =>
                map (fun '(a2, g2, rest2) =>
                       (a1 ++ a2, match g2 with Some _ => g2 | None => g1 end, rest2))
                    (matches r2 rest1))
             (matches r1 s)
  end.

(** [re.search(r, s)]: the first match at the leftmost position that has
    one. A successful search is represented by its [group(1)] (every
    pattern of the source has the group on its only path). *)
Fixpoint search (r : regex) (s : pystr) : option pystr :=
  match matches r s with
  | (_, g, _) :: _ => Some (default [] g)
  | [] =>
    match s with
    | [] => None
    | _ :: s' => search r s'
    end
  end.

Definition colon (c : N) : bool := (c =? 58)%N || (c =? 65306)%N.
Definition dot (c : N) : bool := negb (c =? 10)%N.

(** [label\s*[:：]\s*(\w+)] and [label\s*[:：]\s*(.+)], the two shapes of
    pattern in the source. *)
Definition labelled (is_space : N -> bool) (label : regex) (value : N -> bool) : regex :=
  Seq label (Seq (Star is_space) (Seq (Set_ colon) (Seq (Star is_space) (Group (Plus value))))).

End Re.

(** ** The language-model service and the monad of the agents *)

Module LLM.

(** What [client.chat.completions.create] is called with. *)
Record request := Request {
  req_model : pystr;
  req_messages : list (pystr * pystr);   (* role, content *)
  req_max_tokens : Z;
  req_temperature : spec_float
}.

(** What the call gives: [response.choices[0].message.content], which may
    be [None], or an exception. *)
Inductive response :=
| Content (c : option pystr)
| Failure (e : exn).

(** A computation reads and extends the log of the requests sent so far. *)
Definition M (A : Type) : Type := list request -> result A * list request.

#[global] Instance M_ret : MRet M := fun A a log => (Ok a, log).
#[global] Instance M_bind : MBind M := fun A B f m log =>
  match m log with
  | (Ok a, log') => f a log'
  | (Raise e, log') => (Raise e, log')
  end.

Definition lift {A} (r : result A) : M A := fun log => (r, log).
Definition raise {A} (e : exn) : M A := lift (Raise e).

(** [try: body / except Exception as e: handler] *)
Definition try_except {A} (body : M A) (handler : exn -> M A) : M A := fun log =>
  match body log with
  | (Raise e, log') => handler e log'
  | done => done
  end.

(** [print] writes to the console, which is not part of the state. *)
Definition print (s : pystr) : M unit := mret tt.

End LLM.
Import LLM.

(** ** config/gmail_config.py *)

Definition meta (label icon color : string) : pyval :=
  PDict (Py.dict_of [(u "label", PStr (u label)); (u "icon", PStr (u icon));
                     (u "color", PStr (u color))]).

Definition EMAIL_CATEGORIES : list (pystr * pyval) :=
  [ (u "urgent", meta "긴급" "🔴" "red");
    (u "work", meta "업무문의" "💼" "blue");
    (u "marketing", meta "마케팅" "📢" "orange");
    (u "internal", meta "내부업무" "🏢" "green");
    (u "spam", meta "스팸" "🗑️" "gray") ].

Definition level (label icon : string) (value : Z) : pyval :=
  PDict (Py.dict_of [(u "label", PStr (u label)); (u "icon", PStr (u icon));
                     (u "value", PInt value)]).

Definition PRIORITY_LEVELS : list (pystr * pyval) :=
  [ (u "high", level "높음 (24시간 내)" "🔴" 3);
    (u "medium", level "중간 (3일 내)" "🟡" 2);
    (u "low", level "낮음 (여유)" "🟢" 1) ].

(** [{key: 0 for key in table}] *)
Definition zero_counts (table : list (pystr * pyval)) : gmap pystr Z :=
  fold_left (fun d k => <[k := 0%Z]> d) (Py.keys_of table) ∅.

(** The counting loop shared by [get_category_stats] and
    [get_priority_stats]:
    [v = email.get(field, {}).get(key, dflt); if v in stats: stats[v] += 1] *)
Fixpoint count_loop (field key dflt : pystr) (emails : list pydict)
    (stats : gmap pystr Z) : result (gmap pystr Z) :=
  match emails with
  | [] => Ok stats
  | email :: rest =>
    v ← Py.get (Py.dict_get email field (PDict ∅)) key (PStr dflt);
    present ← Py.key_in v stats;
    if present : bool then
      match v with
      | PStr s => count_loop field key dflt rest (<[s := (default 0 (stats !! s) + 1)%Z]> stats)
      | _ => count_loop field key dflt rest stats
      end
    else count_loop field key dflt rest stats
  end.

(** ** Instances for running the model on examples *)

Module Sample.

(** ASCII approximations of the interpreter's tables. *)
Definition lower_ascii (s : pystr) : pystr :=
  map (fun c => if (65 <=? c)%N && (c <=? 90)%N then (c + 32)%N else c) s.

Definition space_ascii (c : N) : bool :=
  (c =? 32)%N || ((9 <=? c)%N && (c <=? 13)%N).

Definition word_ascii (c : N) : bool :=
  ((48 <=? c)%N && (c <=? 57)%N) || ((65 <=? c)%N && (c <=? 90)%N) ||
  ((97 <=? c)%N && (c <=? 122)%N) || (c =? 95)%N.

Definition repr_opaque (_ : pyval) : pystr := u "<object>".

(** A service that answers every request with the same text. *)
Definition answers (text : string) : list request -> request -> response :=
  fun _ _ => Content (Some (u text)).

(** A service that is down. *)
Definition down : list request -> request -> response :=
  fun _ _ => Failure (Exn ServiceError (u "connection refused")).

Definition model : pystr := u "gpt-3.5-turbo".

Definition message (subject sender body : string) : pydict :=
  Py.dict_of [(u "subject", PStr (u subject)); (u "from", PStr (u sender));
              (u "body", PStr (u body))].

(** A record that carries the result [priority], [urgency] of the second
    stage and nothing else. *)
Definition analyzed (priority : string) (urgency : Z) : pydict :=
  Py.dict_of [(u "priority_analysis",
               PDict (Py.dict_of [(u "priority", PStr (u priority));
                                  (u "urgency_score", PInt urgency)]))].

(** A record that carries the decision [should_respond] of the third
    stage and nothing else. *)
Definition drafted (should_respond : bool) : pydict :=
  Py.dict_of [(u "response_draft",
               PDict (Py.dict_of [(u "should_respond", PBool should_respond)]))].

(** A decoder that takes the data to be the text itself, and a parser
    that takes the document to be its own text. *)
Definition decode_plain (data : pyval) : result pystr :=
  match data with
  | PStr s => Ok s
  | _ => Raise (Exn TypeError (u "a bytes-like object is required"))
  end.

Definition soup_plain (html : pystr) : result pystr := Ok html.

End Sample.

(** ** Proof tactics *)

(** A closed equation between two computations, checked by evaluation. *)
Ltac by_evaluation :=
  lazymatch goal with
  | |- ?a = ?b => exact (@eq_refl _ b <: a = b)
  end.

(** The value of a dict display at one of its keys. *)
Ltac dict_lookup :=
  unfold Py.dict_of; cbn [fold_left fst snd];
  repeat first [rewrite lookup_insert_eq | rewrite lookup_insert_ne by (by vm_compute)].

Section Agents.
Set Default Proof Using "Type".
Set Proof Using Clear Unused.

(** The Unicode tables of the interpreter, the formatting of values that
    are not strings, and the remote service. *)
Variable str_lower : pystr -> pystr.
Variable is_space : N -> bool.
Variable is_word : N -> bool.
Variable repr_other : pyval -> pystr.
Variable service : list request -> request -> response.
Variable model_name : pystr.

(** A replacement field [{v}] of an f-string. *)
Definition fmt (v : pyval) : pystr :=
  match v with
  | PStr s => s
  | PNone => u "None"
  | _ => repr_other v
  end.

(** [v.lower()] *)
Definition lower (v : pyval) : result pystr :=
  match v with
  | PStr s => Ok (str_lower s)
  | _ => Raise (Py.no_attribute v (u "lower"))
  end.

(** [m.group(1) if m else None] *)
Definition group1 (m : option pystr) : pyval :=
  match m with
  | Some text => PStr text
  | None => PNone
  end.

(** [not v or v not in table] *)
Definition rejected (v : pyval) (table : pydict) : result bool :=
  if negb (Py.truthy v) then Ok true
  else present ← Py.key_in v table; Ok (negb present).

(** [v[:n] if len(v) > n else v] *)
Definition preview (v : pyval) (n : nat) : result pyval :=
  size ← Py.len v;
  if (Z.of_nat n <? size)%Z then Py.slice_to v n else Ok v.

(** *** utils/llm_handler.py *)

Definition create (req : request) : M (option pystr) := fun log =>
  match service log req with
  | Content c => (Ok c, log ++ [req])
  | Failure e => (Raise e, log ++ [req])
  end.

(** [messages] as [generate] builds it: the system prompt, when there is a
    non-empty one, then the user prompt. *)
Definition chat_messages (system_prompt : option pystr) (prompt : pystr)
    : list (pystr * pystr) :=
  let messages :=
    match system_prompt with
    | Some sp => if Py.truthy (PStr sp) then [(u "system", sp)] else []
    | None => []
    end in
  messages ++ [(u "user", prompt)].

Definition generate (prompt : pystr) (max_tokens : Z) (temperature : spec_float)
    (system_prompt : option pystr) : M pystr :=
  let messages := chat_messages system_prompt prompt in
  try_except
    (content ← create (Request model_name messages max_tokens temperature);
     match content with
     | Some text => mret (strip is_space text)
     | None => raise (Py.no_attribute PNone (u "strip"))
     end)
    (fun e =>
       _ ← print (u "LLM 생성 오류: " ++ exn_msg e);
       raise e).

(** [for user_example, assistant_example in examples: ...] *)
Definition example_messages (examples : list (pystr * pystr)) : list (pystr * pystr) :=
  flat_map (fun '(user_example, assistant_example) =>
              [(u "user", user_example); (u "assistant", assistant_example)])
           examples.

Definition generate_with_examples (prompt : pystr) (examples : list (pystr * pystr))
    (max_tokens : Z) (temperature : spec_float) : M pystr :=
  let messages := example_messages examples ++ [(u "user", prompt)] in
  try_except
    (content ← create (Request model_name messages max_tokens temperature);
     match content with
     | Some text => mret (strip is_space text)
     | None => raise (Py.no_attribute PNone (u "strip"))
     end)
    (fun e =>
       _ ← print (u "LLM 생성 오류: " ++ exn_msg e);
       raise e).

(** *** agents/email_classifier.py *)

Definition classify_prompt (sender subject body_preview : pyval) : pystr :=
  u "다음 이메일을 분류하세요.

이메일 정보:
발신자: " ++ fmt sender ++ u "
제목: " ++ fmt subject ++ u "
본문 미리보기:
" ++ fmt body_preview ++ u "

카테고리 (하나만 선택):
1. urgent: 긴급하게 답변이 필요한 이메일 (고객 불만, 중요한 요청 등)
2. work: 일반 업무 문의 (기술 지원, 질문, 협업 요청 등)
3. marketing: 마케팅/홍보 이메일 (광고, 뉴스레터, 프로모션 등)
4. internal: 내부 업무 이메일 (팀 공지, 회의 안내 등)
5. spam: 스팸/불필요한 이메일

다음 형식으로 답변하세요:
카테고리: [urgent/work/marketing/internal/spam]
이유: [분류 근거를 한 문장으로]".

(** The extraction of the category and the reason from the response. *)
Definition parse_classification (response : pystr) : result (pyval * pystr) :=
  let category_match :=
    Re.search (Re.labelled is_space (Re.Lit (u "카테고리")) is_word) response in
  let reason_match :=
    Re.search (Re.labelled is_space (Re.Lit (u "이유")) Re.dot) response in
  let category := group1 category_match in
  let reason :=
    match reason_match with
    | Some text => strip is_space text
    | None => u "LLM 분류 결과"
    end in
  category ← (if Py.truthy category then PStr <$> lower category else Ok PNone);
  Ok (category, reason).

Definition _classify_with_llm (email : pydict) : M (pyval * pystr) :=
  body ← lift (Py.getitem email (u "body"));
  body_preview ← lift (preview body 500);
  sender ← lift (Py.getitem email (u "from"));
  subject ← lift (Py.getitem email (u "subject"));
  let prompt := classify_prompt sender subject body_preview in
  try_except
    (response ← generate prompt 150 (Float.literal 3 10)
                  (Some (u "당신은 이메일 분류 전문가입니다. 정확하고 간결하게 답변하세요."));
     lift (parse_classification response))
    (fun e =>
       let error_msg := u "LLM 분류 오류: " ++ exn_msg e in
       _ ← print (u "  ⚠️ " ++ error_msg);
       raise (Exn ValueError error_msg)).

Definition classify (email : pydict) : M pydict :=
  subject ← lift (Py.getitem email (u "subject"));
  head ← lift (Py.slice_to subject 50);
  _ ← print (u "  🤖 EmailClassifier: " ++ fmt head ++ u "...");
  '(category, reason) ← _classify_with_llm email;
  invalid ← lift (rejected category (Py.dict_of EMAIL_CATEGORIES));
  if invalid : bool then
    raise (Exn ValueError
             (u "LLM 분류 실패: 유효하지 않은 카테고리 '" ++ fmt category ++
              u "'. OpenAI API 키가 올바르게 설정되었는지 확인하세요."))
  else
    mret (Py.dict_of [(u "category", category);
                      (u "confidence", PFloat (Float.literal 85 100));
                      (u "reason", PStr reason)]).

Fixpoint batch_classify_loop (emails results : list pydict) : M (list pydict) :=
  match emails with
  | [] => mret results
  | email :: rest =>
    classification ← classify email;
    batch_classify_loop rest
      (results ++ [<[u "classification" := PDict classification]> email])
  end.

Definition batch_classify (emails : list pydict) : M (list pydict) :=
  batch_classify_loop emails [].

Definition get_category_stats (classified_emails : list pydict) : result (gmap pystr Z) :=
  count_loop (u "classification") (u "category") (u "work") classified_emails
             (zero_counts EMAIL_CATEGORIES).

(** *** agents/priority_analyzer.py *)

Definition analyze_prompt (sender subject category body_preview : pyval) : pystr :=
  u "다음 이메일의 우선순위를 분석하세요.

이메일 정보:
발신자: " ++ fmt sender ++ u "
제목: " ++ fmt subject ++ u "
카테고리: " ++ fmt category ++ u "
본문 미리보기:
" ++ fmt body_preview ++ u "

우선순위 레벨 (하나만 선택):
- high: 24시간 내 답변 필요 (중요한 고객, 긴급 요청, 문제 발생 등)
- medium: 3일 내 답변 (일반 문의, 협업 요청 등)
- low: 여유 있게 처리 (마케팅, 정보 제공 등)

판단 기준:
1. 발신자의 중요도
2. 내용의 긴급성 (마감일, 문제 발생 등)
3. 감정 (불만, 불편 등)
4. 요청의 성격

다음 형식으로 답변하세요:
우선순위: [high/medium/low]
주요 요인: [판단 근거 1-2개, 쉼표로 구분]".

(** [[f.strip() for f in text.split(',') if f.strip()]] *)
Definition split_factors (text : pystr) : list pystr :=
  omap (fun f => let f' := strip is_space f in
                 if Py.truthy (PStr f') then Some f' else None)
       (split_on 44 text).

(** The extraction of the priority and the factors from the response. *)
Definition parse_priority (response : pystr) : pyval * list pystr :=
  let priority_match :=
    Re.search (Re.labelled is_space (Re.Lit (u "우선순위")) is_word) response in
  let factors_match :=
    Re.search (Re.labelled is_space
                 (Re.Seq (Re.Lit (u "주요"))
                         (Re.Seq (Re.Star is_space) (Re.Lit (u "요인"))))
                 Re.dot) response in
  let priority :=
    match priority_match with
    | Some text => PStr (str_lower text)
    | None => PNone
    end in
  let factors_text :=
    match factors_match with
    | Some text => strip is_space text
    | None => []
    end in
  let factors := split_factors factors_text in
  (priority, factors).

Definition _analyze_with_llm (email : pydict) (classification : pyval)
    : M (pyval * list pystr) :=
  body ← lift (Py.getitem email (u "body"));
  body_preview ← lift (preview body 400);
  category ← lift (Py.get classification (u "category") (PStr (u "work")));
  sender ← lift (Py.getitem email (u "from"));
  subject ← lift (Py.getitem email (u "subject"));
  let prompt := analyze_prompt sender subject category body_preview in
  try_except
    (response ← generate prompt 150 (Float.literal 3 10)
                  (Some (u "당신은 이메일 우선순위 분석 전문가입니다."));
     mret (parse_priority response))
    (fun e =>
       let error_msg := u "LLM 우선순위 분석 오류: " ++ exn_msg e in
       _ ← print (u "  ⚠️ " ++ error_msg);
       raise (Exn ValueError error_msg)).

Definition base_scores : list (pystr * Z) :=
  [(u "high", 8%Z); (u "medium", 5%Z); (u "low", 2%Z)].

Definition urgent_keywords : list (pystr * Z) :=
  [ (u "긴급", 2%Z); (u "즉시", 2%Z); (u "urgent", 2%Z); (u "asap", 2%Z);
    (u "불만", 1%Z); (u "환불", 1%Z); (u "오류", 1%Z); (u "error", 1%Z);
    (u "bug", 1%Z) ].

Definition _calculate_urgency_score (email : pydict) (priority : pyval) : result Z :=
  score ← Py.lookup_or (Py.dict_of base_scores) priority 5%Z;
  subject ← Py.getitem email (u "subject");
  subject_lower ← lower subject;
  body ← Py.getitem email (u "body");
  body_lower ← lower body;
  let score :=
    fold_left (fun score '(keyword, points) =>
                 if contains keyword subject_lower || contains keyword body_lower
                 then (score + points)%Z else score)
              urgent_keywords score in
  Ok (Z.min score 10).

Definition analyze (email : pydict) (classification : pyval) : M pydict :=
  subject ← lift (Py.getitem email (u "subject"));
  head ← lift (Py.slice_to subject 50);
  _ ← print (u "  🤖 PriorityAnalyzer: " ++ fmt head ++ u "...");
  '(priority, factors) ← _analyze_with_llm email classification;
  invalid ← lift (rejected priority (Py.dict_of PRIORITY_LEVELS));
  if invalid : bool then
    raise (Exn ValueError
             (u "LLM 우선순위 분석 실패: 유효하지 않은 우선순위 '" ++ fmt priority ++
              u "'. OpenAI API 키가 올바르게 설정되었는지 확인하세요."))
  else
    urgency_score ← lift (_calculate_urgency_score email priority);
    mret (Py.dict_of [(u "priority", priority);
                      (u "urgency_score", PInt urgency_score);
                      (u "factors", PList (PStr <$> factors))]).

Fixpoint batch_analyze_loop (classified_emails results : list pydict) : M (list pydict) :=
  match classified_emails with
  | [] => mret results
  | email :: rest =>
    let classification := Py.dict_get email (u "classification") (PDict ∅) in
    priority_analysis ← analyze email classification;
    batch_analyze_loop rest
      (results ++ [<[u "priority_analysis" := PDict priority_analysis]> email])
  end.

Definition batch_analyze (classified_emails : list pydict) : M (list pydict) :=
  batch_analyze_loop classified_emails [].

Definition get_priority_stats (analyzed_emails : list pydict) : result (gmap pystr Z) :=
  count_loop (u "priority_analysis") (u "priority") (u "medium") analyzed_emails
             (zero_counts PRIORITY_LEVELS).

Definition priority_order : list (pystr * Z) :=
  [(u "high", 3%Z); (u "medium", 2%Z); (u "low", 1%Z)].

(** The key of [sort_by_priority]. The second component is compared as an
    integer; a score of another type is refused here, where Python would
    refuse it only on comparing it with an integer. *)
Definition sort_key (x : pydict) : result (Z * Z) :=
  let priority_analysis := Py.dict_get x (u "priority_analysis") (PDict ∅) in
  priority ← Py.get priority_analysis (u "priority") (PStr (u "medium"));
  weight ← Py.lookup_or (Py.dict_of priority_order) priority 2%Z;
  urgency ← Py.get priority_analysis (u "urgency_score") (PInt 5);
  match urgency with
  | PInt z => Ok (weight, z)
  | PBool b => Ok (weight, if b then 1%Z else 0%Z)
  | _ => Raise (Exn TypeError (u "'<' not supported between instances"))
  end.

(** [a < b] on two keys, the lexicographic order of tuples. *)
Definition key_lt (a b : Z * Z) : bool :=
  (a.1 <? b.1)%Z || ((a.1 =? b.1)%Z && (a.2 <? b.2)%Z).

(** [sorted(xs, key=..., reverse=True)]: the key of every item is computed
    once, in order; the items are then arranged by decreasing key, items
    with equal keys staying in their original order (the builtin is
    documented to be stable, also under [reverse]). The arrangement is built
    here by insertion from the right. *)
Fixpoint insert_desc {A} (x : (Z * Z) * A) (l : list ((Z * Z) * A)) : list ((Z * Z) * A) :=
  match l with
  | [] => [x]
  | y :: l' => if key_lt x.1 y.1 then y :: insert_desc x l' else x :: l
  end.

Fixpoint sorted_desc {A} (l : list ((Z * Z) * A)) : list ((Z * Z) * A) :=
  match l with
  | [] => []
  | x :: l' => insert_desc x (sorted_desc l')
  end.

Fixpoint with_keys (xs : list pydict) : result (list ((Z * Z) * pydict)) :=
  match xs with
  | [] => Ok []
  | x :: xs' =>
    k ← sort_key x;
    rest ← with_keys xs';
    Ok ((k, x) :: rest)
  end.

Definition sort_by_priority (analyzed_emails : list pydict) : result (list pydict) :=
  keyed ← with_keys analyzed_emails;
  Ok (snd <$> sorted_desc keyed).

(** *** agents/response_drafter.py *)

Definition _select_tone (category priority : pyval) : pystr :=
  if Py.eq_str category (u "urgent") || Py.eq_str priority (u "high") then u "formal"
  else if Py.eq_str category (u "internal") then u "friendly"
  else u "formal".

Definition tone_guide : list (pystr * pystr) :=
  [ (u "formal", u "공식적이고 정중한 톤으로 작성하세요. '안녕하세요', '감사합니다' 등 격식 있는 표현을 사용하세요.");
    (u "friendly", u "친근하고 편안한 톤으로 작성하세요. 하지만 여전히 전문적이어야 합니다.") ].

Definition draft_prompt (sender subject body_preview category priority : pyval)
    (guide : pystr) : pystr :=
  u "다음 이메일에 대한 답변 초안을 작성하세요.

받은 이메일:
발신자: " ++ fmt sender ++ u "
제목: " ++ fmt subject ++ u "
본문:
" ++ fmt body_preview ++ u "

이메일 정보:
- 카테고리: " ++ fmt category ++ u "
- 우선순위: " ++ fmt priority ++ u "
- 톤: " ++ guide ++ u "

답변 작성 가이드:
1. 인사말로 시작
2. 이메일 내용을 이해했음을 표현
3. 핵심 질문이나 요청에 답변
4. 추가 정보가 필요하면 요청
5. 정중한 마무리

한국어로 3-5문단 정도로 작성하세요.
서명은 포함하지 마세요.

답변 초안:".

Definition _generate_draft_with_llm (email : pydict)
    (classification priority_analysis : pyval) (tone : pystr) : M pystr :=
  body ← lift (Py.getitem email (u "body"));
  body_preview ← lift (preview body 600);
  category ← lift (Py.get classification (u "category") (PStr (u "work")));
  priority ← lift (Py.get priority_analysis (u "priority") (PStr (u "medium")));
  sender ← lift (Py.getitem email (u "from"));
  subject ← lift (Py.getitem email (u "subject"));
  let guide :=
    default (default [] (Py.dict_of tone_guide !! u "formal"))
            (Py.dict_of tone_guide !! tone) in
  let prompt := draft_prompt sender subject body_preview category priority guide in
  try_except
    (draft ← generate prompt 500 (Float.literal 7 10)
               (Some (u "당신은 전문적인 이메일 작성 도우미입니다. 자연스럽고 적절한 답변을 작성하세요."));
     mret (strip is_space draft))
    (fun e =>
       let error_msg := u "LLM 답변 생성 오류: " ++ exn_msg e in
       _ ← print (u "  ⚠️ " ++ error_msg);
       raise (Exn ValueError error_msg)).

Definition no_reply_reason : pystr := u "답변이 필요하지 않은 이메일입니다.".
Definition drafted_reason : pystr := u "답변 초안이 생성되었습니다.".

Definition draft_response (email : pydict) (classification priority_analysis : pyval)
    : M pydict :=
  subject ← lift (Py.getitem email (u "subject"));
  head ← lift (Py.slice_to subject 50);
  _ ← print (u "  🤖 ResponseDrafter: " ++ fmt head ++ u "...");
  category ← lift (Py.get classification (u "category") (PStr (u "work")));
  priority ← lift (Py.get priority_analysis (u "priority") (PStr (u "medium")));
  if Py.in_str_list category [u "spam"; u "marketing"] then
    mret (Py.dict_of [(u "draft", PNone); (u "tone", PNone);
                      (u "suggested_subject", PNone);
                      (u "should_respond", PBool false);
                      (u "reason", PStr no_reply_reason)])
  else
    let tone := _select_tone category priority in
    draft ← _generate_draft_with_llm email classification priority_analysis tone;
    if negb (Py.truthy (PStr draft)) then
      raise (Exn ValueError
               (u "LLM 답변 생성 실패. OpenAI API 키가 올바르게 설정되었는지 확인하세요."))
    else
      subject ← lift (Py.getitem email (u "subject"));
      let suggested_subject := u "Re: " ++ fmt subject in
      mret (Py.dict_of [(u "draft", PStr draft); (u "tone", PStr tone);
                        (u "suggested_subject", PStr suggested_subject);
                        (u "should_respond", PBool true);
                        (u "reason", PStr drafted_reason)]).

Fixpoint batch_draft_loop (analyzed_emails results : list pydict) : M (list pydict) :=
  match analyzed_emails with
  | [] => mret results
  | email :: rest =>
    let classification := Py.dict_get email (u "classification") (PDict ∅) in
    let priority_analysis := Py.dict_get email (u "priority_analysis") (PDict ∅) in
    response_draft ← draft_response email classification priority_analysis;
    batch_draft_loop rest
      (results ++ [<[u "response_draft" := PDict response_draft]> email])
  end.

Definition batch_draft (analyzed_emails : list pydict) : M (list pydict) :=
  batch_draft_loop analyzed_emails [].

(** [sum(1 for email in emails if email.get('response_draft', {}).get('should_respond', False))] *)
Fixpoint count_need_response (drafted_emails : list pydict) (total : Z) : result Z :=
  match drafted_emails with
  | [] => Ok total
  | email :: rest =>
    flag ← Py.get (Py.dict_get email (u "response_draft") (PDict ∅))
                  (u "should_respond") (PBool false);
    count_need_response rest (if Py.truthy flag then (total + 1)%Z else total)
  end.

Definition get_response_stats (drafted_emails : list pydict) : result pydict :=
  let total := Z.of_nat (length drafted_emails) in
  need_response ← count_need_response drafted_emails 0%Z;
  let no_response := (total - need_response)%Z in
  Ok (Py.dict_of
        [(u "total", PInt total);
         (u "need_response", PInt need_response);
         (u "no_response", PInt no_response);
         (u "response_rate",
          if (0 <? total)%Z
          then PFloat (Float.round1
                         (Float.mul (Float.int_truediv need_response total)
                                    (Float.of_Z 100)))
          else PInt 0)]).

Definition refine_prompt (original_draft user_feedback : pystr) : pystr :=
  u "다음 답변 초안을 사용자 피드백에 따라 개선하세요.

원본 답변:
" ++ original_draft ++ u "

사용자 피드백:
" ++ user_feedback ++ u "

개선된 답변을 작성하세요:".

Definition refine_draft (original_draft user_feedback : pystr) : M pystr :=
  let prompt := refine_prompt original_draft user_feedback in
  try_except
    (refined ← generate prompt 500 (Float.literal 7 10) None;
     mret (strip is_space refined))
    (fun e =>
       _ ← print (u "  ⚠️ 답변 개선 오류: " ++ exn_msg e);
       mret original_draft).



(** *** utils/gmail_client.py: the two readers of the [From] field *)

(** The nonempty prefixes of the run of [p] at the head of [s], each with
    what follows it, shortest first: the order in which a lazy [p+?]
    tries them. *)
Fixpoint lazy_runs (p : N -> bool) (s : pystr) : list (pystr * pystr) :=
  match s with
  | c :: s' =>
    if p c then ([c], s') :: map (fun '(a, b) => (c :: a, b)) (lazy_runs p s')
    else []
  | [] => []
  end.

(** What [(.+?)>] captures at the head of [s], one capture per way to
    match, in the order of the matcher. *)
Definition lazy_until_close (s : pystr) : list pystr :=
  flat_map (fun '(a, rest) => map (fun _ => a) (Re.matches (Re.Lit (u ">")) rest))
           (lazy_runs Re.dot s).

(** What [<(.+?)>] captures at the head of [s]. *)
Definition angle_matches (s : pystr) : list pystr :=
  flat_map (fun '(_, _, rest) => lazy_until_close rest)
           (Re.matches (Re.Lit (u "<")) s).

(** [re.search(r'<(.+?)>', s)], a match being given by its [group(1)] *)
Fixpoint angle_search (s : pystr) : option pystr :=
  match angle_matches s with
  | address :: _ => Some address
  | [] =>
    match s with
    | [] => None
    | _ :: s' => angle_search s'
    end
  end.

Definition get_sender_email (from_field : pystr) : pystr :=
  match angle_search from_field with
  | Some address => address
  | None => from_field
  end.

(** [re.search(r'^([^<]+)', from_field)] can only match at the start. *)
Definition get_sender_name (from_field : pystr) : pystr :=
  match Re.matches (Re.Group (Re.Plus (fun c => negb (c =? 60)%N))) from_field with
  | (_, name, _) :: _ =>
    strip (fun c => (c =? 34)%N) (strip is_space (default [] name))
  | [] => get_sender_email from_field
  end.

(** *** utils/gmail_client.py: reading a message *)

(** [base64.urlsafe_b64decode(data).decode('utf-8')] and the text
    BeautifulSoup gives for a document once its script and style elements
    are removed ([soup.get_text()]); both can raise. *)
Variable decode_data : pyval -> result pystr.
Variable soup_text : pystr -> result pystr.

(** The two calls of the Gmail API the client makes, each with its
    [execute()]: the listing of the inbox for a [maxResults], and the
    full message for an id. *)
Record gmail_service := GmailService {
  list_messages : Z -> result pyval;
  get_message : pyval -> result pyval
}.

Definition MAX_EMAILS : Z := 50.

Fixpoint _get_header_loop (headers : list pyval) (name : pystr) : result pyval :=
  match headers with
  | [] => Ok (PStr [])
  | header :: rest =>
    header_name ← Py.subscript header (u "name");
    lowered ← lower header_name;
    if bool_decide (lowered = str_lower name) then Py.subscript header (u "value")
    else _get_header_loop rest name
  end.

Definition _get_header (headers : pyval) (name : pystr) : result pyval :=
  items ← Py.iterate headers;
  _get_header_loop items name.

(** The characters at which [str.splitlines] ends a line. *)
Definition line_break (c : N) : bool :=
  ((c =? 10) || (c =? 11) || (c =? 12) || (c =? 13) || (c =? 28) || (c =? 29) ||
   (c =? 30) || (c =? 133) || (c =? 8232) || (c =? 8233))%N.

(** [s.splitlines()]: a carriage return followed by a line feed ends one
    line, and a line end at the end of the text opens no further line. *)
Fixpoint splitlines (s : pystr) : list pystr :=
  match s with
  | [] => []
  | c :: s' =>
    if line_break c then
      [] :: match s' with
            | d :: s'' => if ((c =? 13) && (d =? 10))%N then splitlines s'' else splitlines s'
            | [] => []
            end
    else match splitlines s' with
         | line :: lines => (c :: line) :: lines
         | [] => [[c]]
         end
  end.

(** [s.split(sep)] for the two-character separator [a b] *)
Fixpoint split_on2 (a b : N) (s : pystr) : list pystr :=
  match s with
  | [] => [[]]
  | c :: s' =>
    match s' with
    | d :: s'' =>
      if ((c =? a) && (d =? b))%N then [] :: split_on2 a b s''
      else match split_on2 a b s' with
           | w :: ws => (c :: w) :: ws
           | [] => [[c]]
           end
    | [] => [[c]]
    end
  end.

(** [sep.join(items)] *)
Fixpoint join (sep : pystr) (items : list pystr) : pystr :=
  match items with
  | [] => []
  | x :: rest =>
    match rest with
    | [] => x
    | _ :: _ => x ++ sep ++ join sep rest
    end
  end.

Definition _html_to_text (html : pystr) : pystr :=
  match soup_text html with
  | Ok text =>
    let lines := strip is_space <$> splitlines text in
    let chunks :=
      flat_map (fun line => strip is_space <$> split_on2 32 32 line) lines in
    join (u " ") (filter (fun chunk => Py.truthy (PStr chunk) = true) chunks)
  | Raise e => html
  end.

(** The loop over the parts: the text of the part at which it breaks, or
    [None] when it runs to the end. *)
Fixpoint body_of_parts (parts : list pyval) : result (option pystr) :=
  match parts with
  | [] => Ok None
  | part :: rest =>
    mime ← Py.subscript part (u "mimeType");
    if Py.eq_str mime (u "text/plain") then
      part_body ← Py.subscript part (u "body");
      has_data ← Py.contains_str (u "data") part_body;
      if has_data : bool then
        part_body ← Py.subscript part (u "body");
        data ← Py.subscript part_body (u "data");
        text ← decode_data data;
        Ok (Some text)
      else body_of_parts rest
    else
      mime ← Py.subscript part (u "mimeType");
      if Py.eq_str mime (u "text/html") then
        part_body ← Py.subscript part (u "body");
        has_data ← Py.contains_str (u "data") part_body;
        if has_data : bool then
          part_body ← Py.subscript part (u "body");
          data ← Py.subscript part_body (u "data");
          html ← decode_data data;
          Ok (Some (_html_to_text html))
        else body_of_parts rest
      else body_of_parts rest
  end.

Definition _get_email_body (payload : pyval) : result pystr :=
  multipart ← Py.contains_str (u "parts") payload;
  body ←
    (if multipart : bool then
       parts ← Py.subscript payload (u "parts");
       items ← Py.iterate parts;
       found ← body_of_parts items;
       Ok (default [] found)
     else
       payload_body ← Py.subscript payload (u "body");
       has_data ← Py.contains_str (u "data") payload_body;
       if has_data : bool then
         payload_body ← Py.subscript payload (u "body");
         data ← Py.subscript payload_body (u "data");
         body ← decode_data data;
         mime ← Py.subscript payload (u "mimeType");
         if Py.eq_str mime (u "text/html") then Ok (_html_to_text body) else Ok body
       else Ok []);
  Ok (strip is_space body).

(** [try: ... except Exception: return None] *)
Definition _get_email_detail (gmail : gmail_service) (msg_id : pyval) : option pydict :=
  match
    message ← get_message gmail msg_id;
    payload ← Py.subscript message (u "payload");
    headers ← Py.subscript payload (u "headers");
    subject ← _get_header headers (u "Subject");
    sender ← _get_header headers (u "From");
    date ← _get_header headers (u "Date");
    payload ← Py.subscript message (u "payload");
    body ← _get_email_body payload;
    snippet ← Py.get message (u "snippet") (PStr []);
    Ok (Py.dict_of [(u "id", msg_id); (u "subject", subject); (u "from", sender);
                    (u "date", date); (u "body", PStr body); (u "snippet", snippet)])
  with
  | Ok email => Some email
  | Raise _ => None
  end.

Fixpoint get_emails_loop (gmail : gmail_service) (messages : list pyval)
    (emails : list pydict) : result (list pydict) :=
  match messages with
  | [] => Ok emails
  | msg :: rest =>
    msg_id ← Py.subscript msg (u "id");
    match _get_email_detail gmail msg_id with
    | Some email_data =>
      if Py.truthy (PDict email_data)
      then get_emails_loop gmail rest (emails ++ [email_data])
      else get_emails_loop gmail rest emails
    | None => get_emails_loop gmail rest emails
    end
  end.

(** [self.service] is [None] until [authenticate] has run. The handler
    of [HttpError] prints and raises the exception again, so it changes
    no result. *)
Definition get_emails (gmail : option gmail_service) (max_results : Z)
    : result (list pydict) :=
  match gmail with
  | None => Raise (Exn ValueError (u "먼저 authenticate()를 호출하세요."))
  | Some service_ =>
    let max_results := Z.min max_results MAX_EMAILS in
    results ← list_messages service_ max_results;
    messages ← Py.get results (u "messages") (PList []);
    if negb (Py.truthy messages) then Ok []
    else
      items ← Py.iterate messages;
      get_emails_loop service_ items []
  end.

(** *** utils/llm_handler.py: the constructor

    [api_key] is what [os.getenv('OPENAI_API_KEY')] gives. *)
Definition LLMHandler_init (api_key : option pystr) : result unit :=
  let missing :=
    Raise (Exn ValueError
             (u "OPENAI_API_KEY가 설정되지 않았습니다. " ++ u ".env 파일을 확인하세요.")) in
  match api_key with
  | Some key => if negb (Py.truthy (PStr key)) then missing else Ok tt
  | None => missing
  end.

(** *** app.py

    Of [st.session_state], the two lists [analyze_emails] writes; of the
    page, the message the run ends with: the rerun after a success, the
    warning of an empty inbox, or one of the two error boxes. The spinners,
    the progress bar and the status text are not part of the model. *)
Record session := Session {
  st_emails : list pydict;
  st_analyzed_emails : list pydict
}.

Inductive notice :=
| Rerun
| Warning (text : pystr)
| Error (text : pystr).

(** [except ValueError as e: ... / except Exception as e: ...] *)
Definition report (e : exn) : notice :=
  match exn_cls e with
  | ValueError => Error (u "❌ 설정 오류: " ++ exn_msg e)
  | _ => Error (u "❌ 분석 오류: " ++ exn_msg e)
  end.

(** The three stages and the sort, as [analyze_emails] chains them. *)
Definition run_stages (emails : list pydict) : M (list pydict) :=
  classified_emails ← batch_classify emails;
  analyzed_emails ← batch_analyze classified_emails;
  final_emails ← batch_draft analyzed_emails;
  lift (sort_by_priority final_emails).

Definition analyze_emails (api_key : option pystr) (gmail : option gmail_service)
    (num_emails : Z) (state : session) (log : list request)
    : session * notice * list request :=
  match LLMHandler_init api_key with
  | Raise e => (state, report e, log)
  | Ok _ =>
    match get_emails gmail num_emails with
    | Raise e => (state, report e, log)
    | Ok emails =>
      if negb (Py.truthy (PList (PDict <$> emails))) then
        (state, Warning (u "받은메일함에 이메일이 없습니다."), log)
      else
        let state := Session emails (st_analyzed_emails state) in
        match run_stages emails log with
        | (Ok sorted_emails, log') => (Session (st_emails state) sorted_emails, Rerun, log')
        | (Raise e, log') => (state, report e, log')
        end
    end
  end.

(** [sum(1 for email in emails if test(email))] *)
Fixpoint count_where (test : pydict -> result bool) (emails : list pydict) (total : Z)
    : result Z :=
  match emails with
  | [] => Ok total
  | email :: rest =>
    hit ← test email;
    count_where test rest (if hit : bool then (total + 1)%Z else total)
  end.

(** [[email for email in emails if ... in category_filter and ... in priority_filter]] *)
Fixpoint filtered_emails (category_filter priority_filter : list pystr)
    (emails : list pydict) : result (list pydict) :=
  match emails with
  | [] => Ok []
  | email :: rest =>
    category ← Py.get (Py.dict_get email (u "classification") (PDict ∅))
                      (u "category") (PStr (u "work"));
    keep ←
      (if Py.in_str_list category category_filter then
         priority ← Py.get (Py.dict_get email (u "priority_analysis") (PDict ∅))
                           (u "priority") (PStr (u "medium"));
         Ok (Py.in_str_list priority priority_filter)
       else Ok false);
    shown ← filtered_emails category_filter priority_filter rest;
    Ok (if keep : bool then email :: shown else shown)
  end.

(** What [display_results] puts on the page for the selections
    [category_filter] and [priority_filter] of the two filters: the four
    metrics (total, high priority, need response, spam) and the list of
    the cards. *)
Definition display_results (category_filter priority_filter : list pystr)
    (state : session) : result (Z * Z * Z * Z * list pydict) :=
  let emails := st_analyzed_emails state in
  let total := Z.of_nat (length emails) in
  high_priority ←
    count_where (fun email =>
                   priority ← Py.get (Py.dict_get email (u "priority_analysis") (PDict ∅))
                                     (u "priority") PNone;
                   Ok (Py.eq_str priority (u "high")))
                emails 0%Z;
  need_response ←
    count_where (fun email =>
                   flag ← Py.get (Py.dict_get email (u "response_draft") (PDict ∅))
                                 (u "should_respond") (PBool false);
                   Ok (Py.truthy flag))
                emails 0%Z;
  spam_count ←
    count_where (fun email =>
                   category ← Py.get (Py.dict_get email (u "classification") (PDict ∅))
                                     (u "category") PNone;
                   Ok (Py.eq_str category (u "spam")))
                emails 0%Z;
  shown ← filtered_emails category_filter priority_filter emails;
  Ok (total, high_priority, need_response, spam_count, shown).

(** ** Specification-side vocabulary *)

(** The record shape of a fetched message: the three fields the agents
    read are strings. *)
Definition is_message (email : pydict) : Prop :=
  ∃ subject sender body,
    email !! u "subject" = Some (PStr subject) ∧
    email !! u "from" = Some (PStr sender) ∧
    email !! u "body" = Some (PStr body).

(** A keyword occurs in a text, case-insensitively: it is a substring of
    the lowercased subject or of the lowercased body. *)
Definition occurs (keyword subject body : pystr) : bool :=
  contains keyword (str_lower subject) || contains keyword (str_lower body).

Definition keyword_points (keyword : string) (points : Z) (subject body : pystr) : Z :=
  if occurs (u keyword) subject body then points else 0%Z.

Definition base_score (priority : pyval) : Z :=
  if Py.eq_str priority (u "high") then 8%Z
  else if Py.eq_str priority (u "medium") then 5%Z
  else if Py.eq_str priority (u "low") then 2%Z
  else 5%Z.

(** The record shape the second stage produces: a priority string and an
    integer urgency score under ['priority_analysis']. *)
Definition is_analyzed (x : pydict) (priority : pystr) (urgency : Z) : Prop :=
  ∃ pa, x !! u "priority_analysis" = Some (PDict pa) ∧
        pa !! u "priority" = Some (PStr priority) ∧
        pa !! u "urgency_score" = Some (PInt urgency).

(** The ordering weight of a priority: high 3, medium 2, low 1, and 2 for
    any other string. *)
Definition weight (priority : pystr) : Z :=
  if bool_decide (priority = u "high") then 3%Z
  else if bool_decide (priority = u "medium") then 2%Z
  else if bool_decide (priority = u "low") then 1%Z
  else 2%Z.

(** A keyed item [x] may stand before [y] in the sorted list: the key of
    [x] is not below that of [y]. *)
Definition not_below {A} (x y : (Z * Z) * A) : Prop := key_lt x.1 y.1 = false.

(** The value the counting loops read from a record:
    [email.get(field, {}).get(key, dflt)]. *)
Definition field_value (field key dflt : string) (email : pydict) : result pyval :=
  Py.get (Py.dict_get email (u field) (PDict ∅)) (u key) (PStr (u dflt)).

Definition category_of : pydict → result pyval :=
  field_value "classification" "category" "work".
Definition priority_of : pydict → result pyval :=
  field_value "priority_analysis" "priority" "medium".

(** A record is countable when the value read is one Python can look up
    in a dict. *)
Definition countable_by (read : pydict → result pyval) (email : pydict) : Prop :=
  ∃ v, read email = Ok v ∧ Py.hashable v = true.

(** Whether the value read from a record is the string [s]. *)
Definition reads (read : pydict → result pyval) (s : pystr) (email : pydict) : bool :=
  match read email with
  | Ok v => Py.eq_str v s
  | Raise _ => false
  end.

(** How many records of [l] carry the string [s] as the value read. *)
Definition tally (read : pydict → result pyval) (s : pystr) (l : list pydict) : Z :=
  Z.of_nat (length (filter (λ email, reads read s email = true) l)).

(** The record shape the third stage reads back: ['response_draft'], when
    present, is a dict. *)
Definition is_drafted (email : pydict) : Prop :=
  match email !! u "response_draft" with
  | Some (PDict _) | None => True
  | Some _ => False
  end.

(** Whether the record's [should_respond] is true (absent counts as false). *)
Definition responds (email : pydict) : bool :=
  match Py.get (Py.dict_get email (u "response_draft") (PDict ∅))
               (u "should_respond") (PBool false) with
  | Ok flag => Py.truthy flag
  | Raise _ => false
  end.

(** [q] is the integer nearest to the fraction [n / d] (for [0 < d]), and
    the even one of the two when [n / d] lies half way between them. *)
Definition nearest_even (n d q : Z) : Prop :=
  (2 * Z.abs (n - q * d) ≤ d)%Z ∧
  ((2 * Z.abs (n - q * d) = d)%Z → Z.even q = true).

(** The double that the decimal with [tenths] tenths and sign [s] denotes:
    the nearest one to [tenths / 10]. *)
Definition of_tenths (s : bool) (tenths : Z) : spec_float :=
  match tenths with
  | Zpos t => SFdiv Float.prec Float.emax (S754_finite s t 0) (S754_finite false 10 0)
  | _ => S754_zero s
  end.

(** [y] is the double [x] rounded to one decimal place: a finite
    [x = ± m * 2^e] has [10 * |x| = n / d] for the two integers below, and
    [y] is the decimal whose number of tenths is nearest to it, ties going
    to the even number; a zero, an infinity or a NaN is left as it is. *)
Definition rounded_to_one_decimal (x y : spec_float) : Prop :=
  match x with
  | S754_finite s m e =>
    ∃ tenths : Z,
      nearest_even (10 * Zpos m * 2 ^ Z.max 0 e) (2 ^ Z.max 0 (- e)) tenths ∧
      y = of_tenths s tenths
  | _ => y = x
  end.

(** Equality of doubles, decided. *)
Definition float_same (x y : spec_float) : bool :=
  match x, y with
  | S754_zero a, S754_zero b => Bool.eqb a b
  | S754_infinity a, S754_infinity b => Bool.eqb a b
  | S754_nan, S754_nan => true
  | S754_finite a m e, S754_finite b n f => Bool.eqb a b && Pos.eqb m n && Z.eqb e f
  | _, _ => false
  end.

(** The rate that [get_response_stats] computes for [need] out of [total]
    is the decimal nearest to the exact percentage: checked for every
    [total] from 1 to [bound] and every [need] up to [total]. *)
Definition rates_checked (bound : nat) : bool :=
  forallb (λ total : nat,
             forallb (λ need : nat,
                        float_same
                          (Float.round1
                             (Float.mul (Float.int_truediv (Z.of_nat need) (Z.of_nat total))
                                        (Float.of_Z 100)))
                          (Float.literal
                             (Float.round_half_even (1000 * Z.of_nat need) (Z.of_nat total))
                             10))
                     (seq 0 (S total)))
          (seq 1 bound).

(** What a call of the service amounts to for [generate]: the stripped
    text, or the exception that escapes. *)
Definition completion (r : response) : result pystr :=
  match r with
  | Content (Some text) => Ok (strip is_space text)
  | Content None => Raise (Py.no_attribute PNone (u "strip"))
  | Failure e => Raise e
  end.

(** The service is unusable at [log]: whatever is asked, the call fails or
    comes back without content. *)
Definition unavailable (log : list request) : Prop :=
  ∀ req, is_ok (completion (service log req)) = false.

(** What a batch stage does to one record: the result [r] is the input
    with [key] bound to a value the stage returned for that record; every
    other key keeps its value; and when the input does not carry [key]
    yet, the input is contained in the result, which has exactly that one
    key more. *)
Definition extended_by (key : pystr) (stage : pydict → M pydict) (email r : pydict)
    : Prop :=
  (∃ v log1 log2, stage email log1 = (Ok v, log2) ∧ r = <[key := PDict v]> email) ∧
  (∀ k, k ≠ key → r !! k = email !! k) ∧
  (email !! key = None → email ⊆ r ∧ dom r = {[key]} ∪ dom email ∧ key ∉ dom email).

(** A batch result: one record per input record, in the same order, each
    extended by the stage's key. *)
Definition batch_extended (key : pystr) (stage : pydict → M pydict)
    (emails out : list pydict) : Prop :=
  length out = length emails ∧
  ∀ i email, emails !! i = Some email →
             ∃ r, out !! i = Some r ∧ extended_by key stage email r.

(** The second and third stage as the batch loops call them on a record. *)
Definition analyze_record (email : pydict) : M pydict :=
  analyze email (Py.dict_get email (u "classification") (PDict ∅)).

Definition draft_record (email : pydict) : M pydict :=
  draft_response email (Py.dict_get email (u "classification") (PDict ∅))
                 (Py.dict_get email (u "priority_analysis") (PDict ∅)).

(** What it means for a pattern to match a text [a] with capture [g]:
    the reading of the pattern itself, against which the matcher is
    checked. *)
Fixpoint parses (r : Re.regex) (a : pystr) (g : option pystr) : Prop :=
  match r with
  | Re.Lit l => a = l ∧ g = None
  | Re.Set_ p => (∃ c, a = [c] ∧ p c = true) ∧ g = None
  | Re.Star p => Forall (λ c, p c = true) a ∧ g = None
  | Re.Plus p => a ≠ [] ∧ Forall (λ c, p c = true) a ∧ g = None
  | Re.Group r1 => (∃ g1, parses r1 a g1) ∧ g = Some a
  | Re.Seq r1 r2 =>
    ∃ a1 g1 a2 g2,
      a = a1 ++ a2 ∧ parses r1 a1 g1 ∧ parses r2 a2 g2 ∧
      g = match g2 with Some _ => g2 | None => g1 end
  end.

(** The text [g] stands in [s] as the value of the field [label]: after
    the label come optional spaces, a colon, optional spaces, and then
    [g], a non-empty run of [value] characters. *)
Definition labelled_value (label : pystr) (value : N → bool) (s g : pystr) : Prop :=
  ∃ pre sp1 c sp2 post,
    s = pre ++ label ++ sp1 ++ c :: sp2 ++ g ++ post ∧
    Forall (λ x, is_space x = true) sp1 ∧ Re.colon c = true ∧
    Forall (λ x, is_space x = true) sp2 ∧
    g ≠ [] ∧ Forall (λ x, value x = true) g.

(** The field [label] stands at the head of [s] with the value [g]: the
    label, optional spaces, a colon, optional spaces, then [g], a
    non-empty run of [value] characters, and after it [post]. *)
Definition labelled_at (label : pystr) (value : N → bool) (s g post : pystr) : Prop :=
  ∃ sp1 c sp2,
    s = label ++ sp1 ++ c :: sp2 ++ g ++ post ∧
    Forall (λ x, is_space x = true) sp1 ∧ Re.colon c = true ∧
    Forall (λ x, is_space x = true) sp2 ∧
    g ≠ [] ∧ Forall (λ x, value x = true) g.

(** [g] is the value of the first field [label] of [s]: the field stands
    in [s] after [pre], no field [label] with a value stands at an earlier
    place of [s], and [g] is the whole word found there: it runs to the
    end of [s] or to a character that is not a [value] character. *)
Definition first_labelled_value (label : pystr) (value : N → bool) (s g : pystr) : Prop :=
  ∃ pre rest post,
    s = pre ++ rest ∧
    labelled_at label value rest g post ∧
    (∀ x, head post = Some x → value x = false) ∧
    ∀ pre' rest' g' post',
      s = pre' ++ rest' → labelled_at label value rest' g' post' →
      (length pre ≤ length pre')%nat.

(** The classes of the patterns are apart, as they are in Python: a
    space is neither a [value] character nor a colon. *)
Definition spaces_apart (value : N → bool) : Prop :=
  ∀ c, is_space c = true → value c = false ∧ Re.colon c = false.

(** The loop that the three batch functions share, written once: each
    record goes through [stage] and is appended with the result under
    [key]. The three loops of the source are shown equal to it below. *)
Fixpoint stage_loop (key : pystr) (stage : pydict → M pydict)
    (emails results : list pydict) : M (list pydict) :=
  match emails with
  | [] => mret results
  | email :: rest =>
    v ← stage email;
    stage_loop key stage rest (results ++ [<[key := PDict v]> email])
  end.

(** The record shape inside the pipeline: a message whose classification
    and priority analysis, when attached, are dicts. *)
Definition is_record (email : pydict) : Prop :=
  is_message email ∧
  (∃ c, Py.dict_get email (u "classification") (PDict ∅) = PDict c) ∧
  (∃ p, Py.dict_get email (u "priority_analysis") (PDict ∅) = PDict p).

(** Whether [draft_response] answers the record at all: its category is
    neither spam nor marketing. *)
Definition wants_reply (email : pydict) : bool :=
  match category_of email with
  | Ok category => negb (Py.in_str_list category [u "spam"; u "marketing"])
  | Raise _ => false
  end.

(** The value read from a record is one of the strings [keys]. *)
Definition reads_one_of (read : pydict → result pyval) (keys : list pystr)
    (email : pydict) : bool :=
  existsb (λ k, reads read k email) keys.

(** The sum of the counts a statistics map holds for [keys]. *)
Definition total_of (stats : gmap pystr Z) (keys : list pystr) : Z :=
  foldr (λ k total, (default 0 (stats !! k) + total)%Z) 0%Z keys.

(** A record that lacks one of the three fields the stages read, the
    other two being strings. *)
Definition lacks (email : pydict) (field : pystr) : Prop :=
  field ∈ [u "subject"; u "from"; u "body"] ∧
  email !! field = None ∧
  ∀ k, k ∈ [u "subject"; u "from"; u "body"] → k ≠ field →
       ∃ s, email !! k = Some (PStr s).

(** [KeyError(field)], whose message is the [repr] of the key. *)
Definition key_error (field : pystr) : exn :=
  Exn KeyError (u "'" ++ field ++ u "'").

(** A display name as it stands before the address in a [From] field: not
    empty, without ['<'], and neither starting nor ending with whitespace
    or a double quote. *)
Definition bare_name (name : pystr) : Prop :=
  name ≠ [] ∧ (60%N ∉ name) ∧
  ∀ c, head name = Some c ∨ last name = Some c → is_space c = false ∧ c ≠ 34%N.

(** An address as it stands between the angle brackets: not empty, on
    one line, without ['>']. *)
Definition bare_address (address : pystr) : Prop :=
  address ≠ [] ∧ (10%N ∉ address) ∧ (62%N ∉ address).

(** A header whose name is [name] up to case, with its value; and a
    well-formed header of another name. *)
Definition header_named (name : pystr) (header value : pyval) : Prop :=
  ∃ d n, header = PDict d ∧ d !! u "name" = Some (PStr n) ∧
         str_lower n = str_lower name ∧ d !! u "value" = Some value.

Definition other_header (name : pystr) (header : pyval) : Prop :=
  ∃ d n, header = PDict d ∧ d !! u "name" = Some (PStr n) ∧
         str_lower n ≠ str_lower name.

(** The characters of a text that are not whitespace, in order. *)
Definition ink (s : pystr) : pystr := filter (λ c, is_space c = false) s.

(** Whether [a] is followed directly by [b] somewhere in [s]. *)
Fixpoint has_pair (a b : N) (s : pystr) : bool :=
  match s with
  | c :: s' =>
    match s' with
    | d :: _ => ((c =? a) && (d =? b))%N || has_pair a b s'
    | [] => false
    end
  | [] => false
  end.

(** A part of type [mime] that carries [data]; and a part the loop of
    [_get_email_body] passes over: one of another type, or a text part
    whose body has no data. *)
Definition text_part (mime : pystr) (data part : pyval) : Prop :=
  ∃ d b, part = PDict d ∧ d !! u "mimeType" = Some (PStr mime) ∧
         d !! u "body" = Some (PDict b) ∧ b !! u "data" = Some data.

Definition passed_over (part : pyval) : Prop :=
  ∃ d mime, part = PDict d ∧ d !! u "mimeType" = Some mime ∧
    ((Py.eq_str mime (u "text/plain") = false ∧ Py.eq_str mime (u "text/html") = false) ∨
     (∃ b, d !! u "body" = Some (PDict b) ∧ b !! u "data" = None)).

(** The listing [messages] names the ids [ids], one per entry. *)
Definition lists_ids (messages ids : list pyval) : Prop :=
  Forall2 (λ msg msg_id, ∃ d, msg = PDict d ∧ d !! u "id" = Some msg_id) messages ids.

(** The record [_get_email_detail] builds for [msg_id]: the six keys, the
    id as given, and a body that is a string without whitespace at its
    ends. *)
Definition is_fetched (msg_id : pyval) (email : pydict) : Prop :=
  dom email = {[u "id"; u "subject"; u "from"; u "date"; u "body"; u "snippet"]} ∧
  email !! u "id" = Some msg_id ∧
  ∃ body, email !! u "body" = Some (PStr body) ∧ strip is_space body = body.

(** A record as the pipeline leaves it: the message with the results of
    the three stages attached, the category and the priority in their
    fixed sets, the score between 0 and 10, and a reply wanted exactly
    when the category is neither spam nor marketing. *)
Definition processed (email r : pydict) : Prop :=
  ∃ c p d category priority score,
    r = <[u "response_draft" := PDict d]>
          (<[u "priority_analysis" := PDict p]>
             (<[u "classification" := PDict c]> email)) ∧
    c !! u "category" = Some (PStr category) ∧
    category ∈ [u "urgent"; u "work"; u "marketing"; u "internal"; u "spam"] ∧
    p !! u "priority" = Some (PStr priority) ∧
    priority ∈ [u "high"; u "medium"; u "low"] ∧
    p !! u "urgency_score" = Some (PInt score) ∧ (0 ≤ score ≤ 10)%Z ∧
    d !! u "should_respond" =
      Some (PBool (negb (Py.in_str_list (PStr category) [u "spam"; u "marketing"]))) ∧
    sort_key r = Ok (weight priority, score).

(** A record as each stage leaves it, from the record it was given. *)
Definition classified_from (email r : pydict) : Prop :=
  is_message r ∧
  ∃ c category,
    r = <[u "classification" := PDict c]> email ∧
    c !! u "category" = Some (PStr category) ∧
    category ∈ [u "urgent"; u "work"; u "marketing"; u "internal"; u "spam"].

Definition analyzed_from (r1 r2 : pydict) : Prop :=
  is_message r2 ∧
  ∃ p priority score,
    r2 = <[u "priority_analysis" := PDict p]> r1 ∧
    p !! u "priority" = Some (PStr priority) ∧
    priority ∈ [u "high"; u "medium"; u "low"] ∧
    p !! u "urgency_score" = Some (PInt score) ∧ (0 ≤ score ≤ 10)%Z.

Definition drafted_from (r2 r3 : pydict) : Prop :=
  ∃ d, r3 = <[u "response_draft" := PDict d]> r2 ∧
       d !! u "should_respond" = Some (PBool (wants_reply r2)).

(** * Properties *)

(** ** The monad *)

Lemma run_bind {A B} (m : M A) (k : A → M B) (log : list request) :
  (m ≫= k) log =
  match m log with
  | (Ok a, log') => k a log'
  | (Raise e, log') => (Raise e, log')
  end.
Proof. reflexivity. Qed.

Lemma run_lift_bind {A B} (r : result A) (k : A → M B) (log : list request) :
  (lift r ≫= k) log =
  match r with
  | Ok a => k a log
  | Raise e => (Raise e, log)
  end.
Proof. by destruct r. Qed.

Lemma run_try {A} (body : M A) (handler : exn → M A) (log : list request) :
  try_except body handler log =
  match body log with
  | (Raise e, log') => handler e log'
  | (Ok a, log') => (Ok a, log')
  end.
Proof. unfold try_except. by destruct (body log) as [[a|e] log']. Qed.

Lemma bind_Ok_inv {A B} (m : M A) (k : A → M B) log b log'' :
  (m ≫= k) log = (Ok b, log'') →
  ∃ a log', m log = (Ok a, log') ∧ k a log' = (Ok b, log'').
Proof.
  rewrite run_bind. destruct (m log) as [[a|e] log']; [eauto|done].
Qed.

(** ** Strings and dictionaries *)

Lemma eq_str_true v s : Py.eq_str v s = true ↔ v = PStr s.
Proof.
  destruct v; simpl; try (split; [discriminate | congruence]).
  rewrite bool_decide_eq_true. split; congruence.
Qed.

Lemma eq_str_false v s : Py.eq_str v s = false ↔ v ≠ PStr s.
Proof.
  rewrite <- eq_str_true. destruct (Py.eq_str v s); split; congruence.
Qed.

Lemma starts_with_spec p s : starts_with p s = true ↔ ∃ post, s = p ++ post.
Proof.
  revert s. induction p as [|a p IH]; intros s; simpl.
  - split; eauto.
  - destruct s as [|b s].
    + split; [discriminate | intros [post Hpost]; discriminate].
    + rewrite andb_true_iff, N.eqb_eq, IH. split.
      * intros [-> [post ->]]. eauto.
      * intros [post Hpost]. injection Hpost as -> ->. eauto.
Qed.

(** [contains] decides whether the needle is a contiguous part of the text. *)
Lemma contains_spec needle hay :
  contains needle hay = true ↔ ∃ pre post, hay = pre ++ needle ++ post.
Proof.
  induction hay as [|c hay IH]; simpl.
  - rewrite orb_false_r, starts_with_spec. split.
    + intros [post ->]. by exists [], post.
    + intros [pre [post Heq]]. destruct pre; [by exists post |discriminate].
  - rewrite orb_true_iff, starts_with_spec, IH. split.
    + intros [[post ->] | [pre [post ->]]].
      * by exists [], post.
      * by exists (c :: pre), post.
    + intros [[|c' pre] [post Heq]].
      * left. by exists post.
      * right. injection Heq as -> ->. by exists pre, post.
Qed.

Lemma dict_of_snoc {A} (items : list (pystr * A)) k v :
  Py.dict_of (items ++ [(k, v)]) = <[k := v]> (Py.dict_of items).
Proof. unfold Py.dict_of. by rewrite fold_left_app. Qed.

Lemma dict_of_is_Some {A} (items : list (pystr * A)) k :
  is_Some (Py.dict_of items !! k) ↔ k ∈ items.*1.
Proof.
  induction items as [|[k' v'] items IH] using rev_ind.
  - unfold Py.dict_of; simpl. rewrite lookup_empty, elem_of_nil.
    split; [by intros [? ?] | done].
  - rewrite dict_of_snoc, fmap_app, elem_of_app; simpl.
    rewrite lookup_insert_is_Some, IH, list_elem_of_singleton.
    destruct (decide (k' = k)) as [->|Hne]; [by split; auto|].
    split; [intros [?|[_ ?]]; [done|by left] | intros [?|?]; [by right|done]].
Qed.

Lemma lstrip_shape (s : pystr) :
  lstrip is_space s = [] ∨
  ∃ c t, lstrip is_space s = c :: t ∧ is_space c = false.
Proof.
  induction s as [|c s IH]; simpl; [by left|].
  destruct (is_space c) eqn:Hc; [done|]. right. eauto.
Qed.

Lemma lstrip_idemp (s : pystr) :
  lstrip is_space (lstrip is_space s) = lstrip is_space s.
Proof.
  destruct (lstrip_shape s) as [->|(c & t & -> & Hc)]; [done|].
  simpl. by rewrite Hc.
Qed.

Lemma lstrip_snoc (l : pystr) (c : N) :
  is_space c = false → ∃ w, lstrip is_space (l ++ [c]) = w ++ [c].
Proof.
  intros Hc. induction l as [|a l [w IH]]; simpl.
  - rewrite Hc. by exists [].
  - destruct (is_space a); [by exists w|]. by exists (a :: l).
Qed.

(** Stripping a stripped string changes nothing. *)
Lemma strip_idemp (s : pystr) :
  strip is_space (strip is_space s) = strip is_space s.
Proof.
  unfold strip, rstrip.
  destruct (lstrip_shape s) as [->|(c & t & -> & Hc)]; [done|].
  change (rev (c :: t)) with (rev t ++ [c]).
  destruct (lstrip_snoc (rev t) c Hc) as [w Hw].
  assert (lstrip is_space (lstrip is_space (rev t ++ [c])) =
          lstrip is_space (rev t ++ [c])) as Hfix by apply lstrip_idemp.
  set (W := lstrip is_space (rev t ++ [c])) in *.
  assert (lstrip is_space (rev W) = rev W) as Hrev.
  { rewrite Hw, rev_app_distr. simpl. by rewrite Hc. }
  by rewrite Hrev, rev_involutive, Hfix.
Qed.

(** ** Tone selection *)

(** C6: [_select_tone] answers formal when the category is urgent or the
    priority is high, whatever the other argument; friendly when the
    category is internal and the priority is not high; formal in every
    remaining case. *)
Theorem select_tone_cases (category priority : pyval) :
  (category = PStr (u "urgent") ∨ priority = PStr (u "high") →
     _select_tone category priority = u "formal") ∧
  (category = PStr (u "internal") → priority ≠ PStr (u "high") →
     _select_tone category priority = u "friendly") ∧
  (category ≠ PStr (u "urgent") → priority ≠ PStr (u "high") →
   category ≠ PStr (u "internal") →
     _select_tone category priority = u "formal").
Proof.
  unfold _select_tone. repeat split.
  - intros [H | H]; apply eq_str_true in H; rewrite H; [done | by rewrite orb_true_r].
  - intros Hc Hp. apply eq_str_false in Hp. rewrite Hp, orb_false_r.
    subst category. by vm_compute.
  - intros Hu Hp Hi. apply eq_str_false in Hu, Hp, Hi. by rewrite Hu, Hp, Hi.
Qed.

(** ** Urgency score *)

Lemma keyword_loop_sum (subject_lower body_lower : pystr) (kws : list (pystr * Z)) (score : Z) :
  fold_left (fun score '(keyword, points) =>
               if contains keyword subject_lower || contains keyword body_lower
               then (score + points)%Z else score) kws score =
  (score + foldr (fun '(keyword, points) total =>
                    ((if contains keyword subject_lower || contains keyword body_lower
                      then points else 0) + total)%Z) 0%Z kws)%Z.
Proof.
  revert score. induction kws as [|[k p] kws IH]; intros score; simpl.
  - lia.
  - rewrite IH. destruct (contains k subject_lower || contains k body_lower); lia.
Qed.

Lemma base_scores_lookup (priority : pyval) :
  Py.hashable priority = true →
  Py.lookup_or (Py.dict_of base_scores) priority 5%Z = Ok (base_score priority).
Proof.
  intros Hh. unfold base_score.
  destruct priority as [| | | |s| |]; try done.
  unfold Py.lookup_or, Py.eq_str, Py.dict_of, base_scores; simpl.
  rewrite !lookup_insert, lookup_empty.
  repeat case_bool_decide; repeat case_decide; simplify_eq; try done.
  all: exfalso; match goal with H : u _ = u _ |- _ => vm_compute in H; discriminate H end.
Qed.

Lemma urgency_score_value (email : pydict) (subject body : pystr) (priority : pyval) :
  email !! u "subject" = Some (PStr subject) →
  email !! u "body" = Some (PStr body) →
  Py.hashable priority = true →
  _calculate_urgency_score email priority =
  Ok (Z.min 10
        (base_score priority +
         (keyword_points "긴급" 2 subject body + keyword_points "즉시" 2 subject body +
          keyword_points "urgent" 2 subject body + keyword_points "asap" 2 subject body +
          keyword_points "불만" 1 subject body + keyword_points "환불" 1 subject body +
          keyword_points "오류" 1 subject body + keyword_points "error" 1 subject body +
          keyword_points "bug" 1 subject body))).
Proof.
  intros Hs Hb Hh. unfold _calculate_urgency_score.
  rewrite base_scores_lookup by done.
  unfold Py.getitem. rewrite Hs, Hb. cbn [mbind result_bind lower].
  rewrite keyword_loop_sum. unfold urgent_keywords, keyword_points, occurs; simpl.
  f_equal. lia.
Qed.

(** C2: the urgency score is the minimum of 10 and the base score of the
    priority (high 8, medium 5, low 2, anything else 5) plus, for each of
    the nine keywords, its points once when it occurs in the lowercased
    subject or body; whether a keyword occurs is all that counts, not how
    often. *)
Theorem urgency_score_formula (email : pydict) (subject body : pystr) (priority : pyval) :
  email !! u "subject" = Some (PStr subject) →
  email !! u "body" = Some (PStr body) →
  Py.hashable priority = true →
  _calculate_urgency_score email priority =
    Ok (Z.min 10
          (base_score priority +
           (keyword_points "긴급" 2 subject body + keyword_points "즉시" 2 subject body +
            keyword_points "urgent" 2 subject body + keyword_points "asap" 2 subject body +
            keyword_points "불만" 1 subject body + keyword_points "환불" 1 subject body +
            keyword_points "오류" 1 subject body + keyword_points "error" 1 subject body +
            keyword_points "bug" 1 subject body)))
  ∧ (∀ keyword points,
       let found :=
         (∃ pre post, str_lower subject = pre ++ u keyword ++ post) ∨
         (∃ pre post, str_lower body = pre ++ u keyword ++ post) in
       (found → keyword_points keyword points subject body = points) ∧
       (¬ found → keyword_points keyword points subject body = 0%Z))
  ∧ (priority = PStr (u "high") → base_score priority = 8%Z)
  ∧ (priority = PStr (u "medium") → base_score priority = 5%Z)
  ∧ (priority = PStr (u "low") → base_score priority = 2%Z)
  ∧ (priority ≠ PStr (u "high") → priority ≠ PStr (u "medium") →
     priority ≠ PStr (u "low") → base_score priority = 5%Z).
Proof.
  intros Hs Hb Hh. split; [by apply urgency_score_value|]. split.
  { intros keyword points found. subst found. unfold keyword_points, occurs.
    rewrite <- !contains_spec, <- orb_true_iff.
    destruct (_ || _); split; intros Hocc; try done. }
  unfold base_score. repeat split.
  - by intros ->.
  - by intros ->.
  - by intros ->.
  - intros H1 H2 H3. apply eq_str_false in H1, H2, H3. by rewrite H1, H2, H3.
Qed.

(** C5: on every message and every priority the urgency score is an
    integer between 0 and 10. *)
Theorem urgency_score_range (email : pydict) (subject body : pystr) (priority : pyval) :
  email !! u "subject" = Some (PStr subject) →
  email !! u "body" = Some (PStr body) →
  Py.hashable priority = true →
  ∃ score : Z,
    _calculate_urgency_score email priority = Ok score ∧ (0 ≤ score ≤ 10)%Z.
Proof.
  intros Hs Hb Hh. eexists. split; [by apply urgency_score_value|].
  assert (2 ≤ base_score priority)%Z as Hbase.
  { unfold base_score. repeat destruct (Py.eq_str _ _); lia. }
  assert (∀ keyword points, (0 ≤ points → 0 ≤ keyword_points keyword points subject body)%Z)
    as Hpts.
  { intros keyword points Hpos. unfold keyword_points. by destruct (occurs _ _ _). }
  pose proof (Hpts "긴급"%string 2%Z). pose proof (Hpts "즉시"%string 2%Z).
  pose proof (Hpts "urgent"%string 2%Z). pose proof (Hpts "asap"%string 2%Z).
  pose proof (Hpts "불만"%string 1%Z). pose proof (Hpts "환불"%string 1%Z).
  pose proof (Hpts "오류"%string 1%Z). pose proof (Hpts "error"%string 1%Z).
  pose proof (Hpts "bug"%string 1%Z). lia.
Qed.

(** ** Sorting by priority *)

Lemma key_lt_true (a b : Z * Z) :
  key_lt a b = true ↔ (a.1 < b.1 ∨ (a.1 = b.1 ∧ a.2 < b.2))%Z.
Proof.
  unfold key_lt. rewrite orb_true_iff, andb_true_iff, !Z.ltb_lt, Z.eqb_eq. tauto.
Qed.

Lemma key_lt_false (a b : Z * Z) :
  key_lt a b = false ↔ (b.1 < a.1 ∨ (a.1 = b.1 ∧ b.2 ≤ a.2))%Z.
Proof.
  rewrite <- not_true_iff_false, key_lt_true. lia.
Qed.

Section InsertionSort.
Context {A : Type}.
Implicit Types (x y : (Z * Z) * A) (l : list ((Z * Z) * A)).

Lemma insert_desc_perm x l : insert_desc x l ≡ₚ x :: l.
Proof.
  induction l as [|y l IH]; simpl; [done|].
  destruct (key_lt x.1 y.1); [|done].
  rewrite IH. apply Permutation_swap.
Qed.

Lemma sorted_desc_perm l : sorted_desc l ≡ₚ l.
Proof.
  induction l as [|x l IH]; simpl; [done|].
  by rewrite insert_desc_perm, IH.
Qed.

Lemma insert_desc_sorted x l :
  StronglySorted not_below l → StronglySorted not_below (insert_desc x l).
Proof.
  induction l as [|y l IH]; simpl; intros Hl.
  - repeat constructor.
  - apply StronglySorted_inv in Hl as [Hl Hy].
    destruct (key_lt x.1 y.1) eqn:Hxy.
    + constructor; [by apply IH|].
      rewrite insert_desc_perm. constructor; [|done].
      unfold not_below. apply key_lt_true in Hxy. apply key_lt_false. lia.
    + constructor; [by constructor|]. constructor; [done|].
      eapply Forall_impl; [exact Hy|]. intros z Hyz.
      unfold not_below in *. apply key_lt_false in Hxy, Hyz. apply key_lt_false. lia.
Qed.

Lemma sorted_desc_sorted l : StronglySorted not_below (sorted_desc l).
Proof.
  induction l as [|x l IH]; simpl; [constructor|]. by apply insert_desc_sorted.
Qed.

Lemma insert_desc_stable (k : Z * Z) x l :
  filter (λ y, y.1 = k) (insert_desc x l) = filter (λ y, y.1 = k) (x :: l).
Proof.
  induction l as [|y l IH]; simpl; [done|].
  destruct (key_lt x.1 y.1) eqn:Hxy; [|done].
  rewrite (filter_cons _ y), IH, !(filter_cons _ x), (filter_cons _ y).
  destruct (decide (x.1 = k)) as [Hx|Hx]; [|done].
  destruct (decide (y.1 = k)) as [Hy|Hy]; [|done].
  apply key_lt_true in Hxy. rewrite Hx, Hy in Hxy. lia.
Qed.

Lemma sorted_desc_stable (k : Z * Z) l :
  filter (λ y, y.1 = k) (sorted_desc l) = filter (λ y, y.1 = k) l.
Proof.
  induction l as [|x l IH]; simpl; [done|].
  by rewrite insert_desc_stable, !filter_cons, IH.
Qed.

Lemma sorted_lookup_lt (R : relation ((Z * Z) * A)) l i j x y :
  StronglySorted R l → (i < j)%nat → l !! i = Some x → l !! j = Some y → R x y.
Proof.
  intros Hl. revert i j. induction Hl as [|z l Hl IH Hz]; intros i j Hij Hi Hj.
  - by rewrite lookup_nil in Hi.
  - destruct j as [|j]; [lia|]. destruct i as [|i]; simpl in *.
    + injection Hi as ->. rewrite Forall_forall in Hz. apply Hz.
      eapply list_elem_of_lookup_2, Hj.
    + apply (IH i j); [lia|done..].
Qed.

End InsertionSort.

Lemma with_keys_spec (l : list pydict) keyed :
  with_keys l = Ok keyed →
  keyed.*2 = l ∧ Forall (λ kx, sort_key kx.2 = Ok kx.1) keyed.
Proof.
  revert keyed. induction l as [|x l IH]; simpl; intros keyed Hk.
  - injection Hk as <-. by split.
  - destruct (sort_key x) as [k|e] eqn:Hx; [|done]. simpl in Hk.
    destruct (with_keys l) as [rest|e]; [|done]. simpl in Hk.
    injection Hk as <-. destruct (IH rest eq_refl) as [IH1 IH2].
    split; [by rewrite fmap_cons, IH1|by constructor].
Qed.

Lemma with_keys_ok (l : list pydict) :
  Forall (λ x, is_ok (sort_key x) = true) l → ∃ keyed, with_keys l = Ok keyed.
Proof.
  induction 1 as [|x l Hx _ [rest IH]]; simpl; [by eexists|].
  destruct (sort_key x) as [k|e]; [|done]. rewrite IH. by eexists.
Qed.

Lemma filter_keyed (k : Z * Z) (kl : list ((Z * Z) * pydict)) :
  Forall (λ kx, sort_key kx.2 = Ok kx.1) kl →
  filter (λ x, sort_key x = Ok k) kl.*2 = (filter (λ kx, kx.1 = k) kl).*2.
Proof.
  induction 1 as [|[k' x] kl Hx _ IH]; [done|]. simpl in Hx.
  rewrite fmap_cons, !filter_cons, IH. simpl.
  destruct (decide (sort_key x = Ok k)) as [Hk|Hk], (decide (k' = k)) as [Hk'|Hk'];
    try done; congruence.
Qed.

Lemma priority_order_lookup (priority : pystr) :
  default 2%Z (Py.dict_of priority_order !! priority) = weight priority.
Proof.
  unfold weight, Py.dict_of, priority_order; simpl.
  rewrite !lookup_insert, lookup_empty.
  repeat case_bool_decide; repeat case_decide; simplify_eq; try done.
  all: exfalso; match goal with H : u _ = u _ |- _ => vm_compute in H; discriminate H end.
Qed.

Lemma sort_key_analyzed (x : pydict) priority urgency :
  is_analyzed x priority urgency → sort_key x = Ok (weight priority, urgency).
Proof.
  intros (pa & Hpa & Hp & Hu). unfold sort_key, Py.dict_get.
  rewrite Hpa. simpl. unfold Py.dict_get. rewrite Hp, Hu. simpl.
  by rewrite priority_order_lookup.
Qed.

(** C3: [sort_by_priority] returns a permutation of its input in which a
    record never comes after one of smaller priority weight (high 3,
    medium 2, low 1) or of equal weight and smaller urgency score; records
    with the same weight and score keep their input order; and a
    high/5 record comes before a medium/9 one. *)
Theorem sort_by_priority_stable_descending (l : list pydict) :
  Forall (λ x, is_ok (sort_key x) = true) l →
  (∃ out,
     sort_by_priority l = Ok out ∧
     out ≡ₚ l ∧
     (∀ i j a b ka kb,
        (i < j)%nat → out !! i = Some a → out !! j = Some b →
        sort_key a = Ok ka → sort_key b = Ok kb →
        (kb.1 < ka.1 ∨ (ka.1 = kb.1 ∧ kb.2 ≤ ka.2))%Z) ∧
     (∀ i j a b ka kb,
        out !! i = Some a → out !! j = Some b →
        sort_key a = Ok ka → sort_key b = Ok kb →
        (kb.1 < ka.1)%Z → (i < j)%nat) ∧
     (∀ k, filter (λ x, sort_key x = Ok k) out = filter (λ x, sort_key x = Ok k) l)) ∧
  (∀ x priority urgency,
     is_analyzed x priority urgency → sort_key x = Ok (weight priority, urgency)) ∧
  weight (u "high") = 3%Z ∧ weight (u "medium") = 2%Z ∧ weight (u "low") = 1%Z ∧
  sort_by_priority [Sample.analyzed "medium" 9; Sample.analyzed "high" 5] =
    Ok [Sample.analyzed "high" 5; Sample.analyzed "medium" 9].
Proof.
  intros Hl. split; [|split; [exact sort_key_analyzed|split_and!; by_evaluation]].
  destruct (with_keys_ok l Hl) as [keyed Hkeyed].
  destruct (with_keys_spec l keyed Hkeyed) as [Hsnd Hkeys].
  assert (Forall (λ kx, sort_key kx.2 = Ok kx.1) (sorted_desc keyed)) as Hkeys'.
  { by rewrite sorted_desc_perm. }
  assert (∀ i a ka, (sorted_desc keyed).*2 !! i = Some a → sort_key a = Ok ka →
                    sorted_desc keyed !! i = Some (ka, a)) as Hat.
  { intros i a ka Hi Ha. rewrite list_lookup_fmap in Hi.
    destruct (sorted_desc keyed !! i) as [[k' a']|] eqn:Hi'; [|done].
    simpl in Hi. injection Hi as ->.
    rewrite Forall_forall in Hkeys'.
    specialize (Hkeys' _ (list_elem_of_lookup_2 _ _ _ Hi')). simpl in Hkeys'.
    congruence. }
  assert (∀ i j a b ka kb,
            (i < j)%nat → (sorted_desc keyed).*2 !! i = Some a →
            (sorted_desc keyed).*2 !! j = Some b →
            sort_key a = Ok ka → sort_key b = Ok kb →
            (kb.1 < ka.1 ∨ (ka.1 = kb.1 ∧ kb.2 ≤ ka.2))%Z) as Hord.
  { intros i j a b ka kb Hij Hi Hj Ha Hb.
    pose proof (sorted_lookup_lt not_below _ i j _ _ (sorted_desc_sorted keyed) Hij
                  (Hat _ _ _ Hi Ha) (Hat _ _ _ Hj Hb)) as Hnb.
    unfold not_below in Hnb. simpl in Hnb. by apply key_lt_false in Hnb. }
  exists ((sorted_desc keyed).*2). unfold sort_by_priority. rewrite Hkeyed. simpl.
  split; [done|]. split; [by rewrite sorted_desc_perm, Hsnd|].
  split; [exact Hord|]. split.
  - intros i j a b ka kb Hi Hj Ha Hb Hlt.
    destruct (Nat.lt_trichotomy i j) as [Hij|[->|Hji]]; [done| |].
    + rewrite Hi in Hj. injection Hj as ->. rewrite Ha in Hb. injection Hb as ->. lia.
    + pose proof (Hord j i b a kb ka Hji Hj Hi Hb Ha). lia.
  - intros k. rewrite !filter_keyed by done.
    by rewrite sorted_desc_stable, <- filter_keyed, Hsnd.
Qed.

(** ** Statistics *)

Lemma drafted_flag (email : pydict) :
  is_drafted email →
  ∃ flag,
    Py.get (Py.dict_get email (u "response_draft") (PDict ∅))
           (u "should_respond") (PBool false) = Ok flag ∧
    responds email = Py.truthy flag.
Proof.
  unfold is_drafted, responds, Py.dict_get.
  destruct (email !! u "response_draft") as [[| | | | | |d]|]; try done; simpl; eauto.
Qed.

Lemma count_need_response_spec (l : list pydict) (total : Z) :
  Forall is_drafted l →
  count_need_response l total =
  Ok (total + Z.of_nat (length (filter (λ email, responds email = true) l)))%Z.
Proof.
  intros Hl. revert total. induction Hl as [|email l He _ IH]; intros total.
  - simpl. f_equal. lia.
  - cbn [count_need_response]. rewrite filter_cons.
    destruct (drafted_flag email He) as (flag & -> & ->).
    cbn [mbind result_bind]. rewrite IH.
    destruct (Py.truthy flag); simpl; f_equal; lia.
Qed.

Lemma filter_length_le (P : pydict → Prop) `{∀ x, Decision (P x)} (l : list pydict) :
  (length (filter P l) ≤ length l)%nat.
Proof.
  induction l as [|x l IH]; [done|]. rewrite filter_cons.
  destruct (decide (P x)); simpl; lia.
Qed.

Lemma round_half_even_nearest (n d : Z) :
  (0 < d)%Z → nearest_even n d (Float.round_half_even n d).
Proof.
  intros Hd. unfold nearest_even, Float.round_half_even.
  pose proof (Z.div_mod n d ltac:(lia)) as Hn.
  pose proof (Z.mod_pos_bound n d Hd) as Hr.
  set (q := (n / d)%Z) in *. set (r := (n mod d)%Z) in *.
  assert (∀ k : Z, (n - k * d = r + (q - k) * d)%Z) as Hk by (intros k; lia).
  destruct (Z.compare_spec (2 * r) d) as [Heq|Hlt|Hgt].
  - destruct (Z.even q) eqn:Hq.
    + rewrite Hk, Z.sub_diag, Z.mul_0_l, Z.add_0_r. split; [lia|done].
    + replace (n - (q + 1) * d)%Z with (r - d)%Z by lia. split; [lia|].
      intros _. by rewrite Z.add_1_r, Z.even_succ, <- Z.negb_even, Hq.
  - rewrite Hk, Z.sub_diag, Z.mul_0_l, Z.add_0_r. split; lia.
  - replace (n - (q + 1) * d)%Z with (r - d)%Z by lia. split; lia.
Qed.

Lemma nearest_even_unique (n d q1 q2 : Z) :
  (0 < d)%Z → nearest_even n d q1 → nearest_even n d q2 → q1 = q2.
Proof.
  intros Hd [H1 E1] [H2 E2].
  assert (q1 = q2 ∨ (q1 = q2 + 1 ∧ 2 * Z.abs (n - q1 * d) = d ∧
                      2 * Z.abs (n - q2 * d) = d) ∨
          (q2 = q1 + 1 ∧ 2 * Z.abs (n - q1 * d) = d ∧
                      2 * Z.abs (n - q2 * d) = d))%Z as [?|[(-> & T1 & T2)|(-> & T1 & T2)]]
    by nia; [done|..].
  - specialize (E1 T1). specialize (E2 T2).
    rewrite Z.add_1_r, Z.even_succ, <- Z.negb_even, E2 in E1. done.
  - specialize (E1 T1). specialize (E2 T2).
    rewrite Z.add_1_r, Z.even_succ, <- Z.negb_even, E1 in E2. done.
Qed.

(** [round1] rounds to one decimal place. *)
Lemma round1_rounds (x : spec_float) : rounded_to_one_decimal x (Float.round1 x).
Proof.
  destruct x as [s|s| |s m e]; try done.
  unfold rounded_to_one_decimal, Float.round1.
  destruct e as [|k|k].
  - exists (Z.pos m * 10 * 2 ^ 0)%Z. split; [|done].
    change (Z.max 0 0) with 0%Z. change (Z.max 0 (- 0)) with 0%Z.
    split; [lia|]. intros Htie. lia.
  - exists (Z.pos m * 10 * 2 ^ Z.pos k)%Z. split; [|done].
    rewrite Z.max_r by lia. rewrite (Z.max_l 0 (- Z.pos k)) by lia.
    pose proof (Z.pow_pos_nonneg 2 (Z.pos k) ltac:(lia) ltac:(lia)).
    split; [lia|]. intros Htie. lia.
  - exists (Float.round_half_even (Z.pos m * 10) (Z.pow_pos 2 k)). split; [|done].
    rewrite Z.max_l by lia. rewrite Z.max_r by lia.
    change (- Z.neg k)%Z with (Z.pos k). change (2 ^ Z.pos k)%Z with (Z.pow_pos 2 k).
    replace (10 * Z.pos m * 2 ^ 0)%Z with (Z.pos m * 10)%Z by lia.
    apply round_half_even_nearest.
    change (Z.pow_pos 2 k) with (2 ^ Z.pos k)%Z. lia.
Qed.

Lemma float_same_eq (x y : spec_float) : float_same x y = true → x = y.
Proof.
  destruct x as [a|a| |a m e], y as [b|b| |b n f]; simpl; try done.
  - by intros ->%Bool.eqb_prop.
  - by intros ->%Bool.eqb_prop.
  - intros [[->%Bool.eqb_prop ->%Pos.eqb_eq]%andb_prop ->%Z.eqb_eq]%andb_prop. done.
Qed.

(** Up to 79 records the rate is the exact percentage rounded to one
    decimal: every case is computed. *)
Lemma rates_checked_79 : rates_checked 79 = true.
Proof. by_evaluation. Qed.

Lemma rate_is_exact (need total : nat) :
  (1 ≤ total ≤ 79)%nat → (need ≤ total)%nat →
  Float.round1 (Float.mul (Float.int_truediv (Z.of_nat need) (Z.of_nat total))
                          (Float.of_Z 100)) =
  Float.literal (Float.round_half_even (1000 * Z.of_nat need) (Z.of_nat total)) 10.
Proof.
  intros Htotal Hneed. apply float_same_eq.
  pose proof rates_checked_79 as Hall. unfold rates_checked in Hall.
  rewrite forallb_forall in Hall.
  specialize (Hall total). rewrite forallb_forall in Hall.
  apply Hall; apply in_seq; lia.
Qed.

(** With 80 records the double can lie on the other side of a tie: 23 out
    of 80 is 28.75 per cent, the product [23 / 80 * 100] in doubles lies
    just below it, and the rate is 28.7, where the exact percentage rounds
    to 28.8. *)
Lemma rate_of_23_in_80 :
  Float.round1 (Float.mul (Float.int_truediv 23 80) (Float.of_Z 100)) =
    Float.literal 287 10 ∧
  nearest_even (1000 * 23) 80 288.
Proof.
  split; [by_evaluation|]. split; [lia|]. intros _. reflexivity.
Qed.

(** C8: on drafted records [get_response_stats] returns the number of
    records, the number whose [should_respond] is true, their difference,
    and the rate [need_response / total * 100] rounded to one decimal, or
    the integer 0 for an empty list; 3 out of 4 gives 75.0. The rate is
    the product, computed in doubles, rounded to one decimal place: the
    decimal whose number of tenths is nearest to it, ties to even. For at
    most 79 records it is also the decimal nearest to the exact
    percentage [1000 * need / total] tenths. *)
Theorem response_stats_counts (l : list pydict) :
  Forall is_drafted l →
  ∃ (stats : pydict) (need : Z),
    get_response_stats l = Ok stats ∧
    need = Z.of_nat (length (filter (λ email, responds email = true) l)) ∧
    (0 ≤ need ≤ Z.of_nat (length l))%Z ∧
    stats !! u "total" = Some (PInt (Z.of_nat (length l))) ∧
    stats !! u "need_response" = Some (PInt need) ∧
    stats !! u "no_response" = Some (PInt (Z.of_nat (length l) - need)) ∧
    (l ≠ [] →
     stats !! u "response_rate" =
     Some (PFloat (Float.round1
                     (Float.mul (Float.int_truediv need (Z.of_nat (length l)))
                                (Float.of_Z 100))))) ∧
    (l = [] → stats !! u "response_rate" = Some (PInt 0)) ∧
    (length l = 4%nat → need = 3%Z →
     stats !! u "response_rate" = Some (PFloat (Float.of_Z 75))) ∧
    (l ≠ [] →
     ∃ rate,
       stats !! u "response_rate" = Some (PFloat rate) ∧
       rounded_to_one_decimal
         (Float.mul (Float.int_truediv need (Z.of_nat (length l))) (Float.of_Z 100))
         rate) ∧
    (l ≠ [] → (length l ≤ 79)%nat →
     ∃ tenths,
       nearest_even (1000 * need) (Z.of_nat (length l)) tenths ∧
       (0 ≤ tenths ≤ 1000)%Z ∧
       stats !! u "response_rate" = Some (PFloat (Float.literal tenths 10))).
Proof.
  intros Hl. unfold get_response_stats.
  rewrite count_need_response_spec by done. cbn [mbind result_bind].
  rewrite Z.add_0_l.
  pose proof (filter_length_le (λ email, responds email = true) l) as Hle.
  set (k := length (filter _ l)) in *.
  assert (l ≠ [] → (0 <? Z.of_nat (length l))%Z = true) as Hpos.
  { intros Hne. destruct l; [done|]. apply Z.ltb_lt. simpl. lia. }
  eexists _, (Z.of_nat k). split; [done|]. split; [done|]. split; [lia|].
  split; [by dict_lookup|]. split; [by dict_lookup|]. split; [by dict_lookup|].
  split; [|split; [|split; [|split]]].
  - intros Hne. dict_lookup. by rewrite Hpos.
  - intros ->. by dict_lookup.
  - intros H4 H3. dict_lookup. rewrite H4, H3. by_evaluation.
  - intros Hne. eexists. split; [dict_lookup; by rewrite Hpos|].
    apply round1_rounds.
  - intros Hne Hlen.
    assert (1 ≤ length l)%nat as Hone by (destruct l; [done|simpl; lia]).
    exists (Float.round_half_even (1000 * Z.of_nat k) (Z.of_nat (length l))).
    pose proof (round_half_even_nearest (1000 * Z.of_nat k) (Z.of_nat (length l))
                  ltac:(lia)) as Hnear.
    split; [done|]. split; [destruct Hnear as [Hnear _]; nia|].
    dict_lookup. rewrite Hpos by done. by rewrite rate_is_exact by lia.
Qed.

Lemma tally_cons read s email l :
  tally read s (email :: l) =
  ((if reads read s email then 1 else 0) + tally read s l)%Z.
Proof.
  unfold tally. rewrite filter_cons.
  destruct (decide (reads read s email = true)) as [->|Hno]; simpl; [lia|].
  apply not_true_is_false in Hno. rewrite Hno. lia.
Qed.

Lemma count_loop_spec (field key dflt : string) (l : list pydict) (stats : gmap pystr Z) :
  Forall (countable_by (field_value field key dflt)) l →
  ∃ stats',
    count_loop (u field) (u key) (u dflt) l stats = Ok stats' ∧
    dom stats' = dom stats ∧
    ∀ s, s ∈ dom stats →
         stats' !! s =
         Some (default 0%Z (stats !! s) + tally (field_value field key dflt) s l)%Z.
Proof.
  intros Hl. revert stats.
  induction Hl as [|email l (v & Hv & Hh) _ IH]; intros stats.
  - exists stats. split; [done|]. split; [done|].
    intros s Hs. apply elem_of_dom in Hs as [x Hx]. rewrite Hx. simpl. unfold tally. simpl.
    by rewrite Z.add_0_r.
  - cbn [count_loop]. unfold field_value in Hv. rewrite Hv. cbn [mbind result_bind].
    assert (∀ s, reads (field_value field key dflt) s email = Py.eq_str v s) as Hreads.
    { intros s. unfold reads, field_value. by rewrite Hv. }
    destruct v as [| | | |t| |]; try done; cbn [Py.key_in mbind result_bind].
    5: case_bool_decide as Hin.
    5: { destruct (IH (<[t := (default 0 (stats !! t) + 1)%Z]> stats))
           as (stats' & -> & Hdom & Hcount).
         assert (t ∈ dom stats) as Ht by by apply elem_of_dom.
         exists stats'. split; [done|].
         split; [rewrite Hdom, dom_insert_L; set_solver|].
         intros s Hs. rewrite Hcount by (rewrite dom_insert_L; set_solver).
         rewrite tally_cons, Hreads. simpl. f_equal.
         destruct (decide (t = s)) as [->|Hne].
         - rewrite lookup_insert_eq, bool_decide_eq_true_2 by done. simpl. lia.
         - rewrite lookup_insert_ne, bool_decide_eq_false_2 by done. lia. }
    all: destruct (IH stats) as (stats' & -> & Hdom & Hcount).
    all: exists stats'; split; [done|]; split; [done|].
    all: intros s Hs; rewrite Hcount, tally_cons, Hreads by done; simpl.
    all: try (f_equal; lia).
    rewrite bool_decide_eq_false_2; [f_equal; lia|].
    intros ->. by apply Hin, elem_of_dom.
Qed.

Lemma zero_counts_categories :
  zero_counts EMAIL_CATEGORIES =
  Py.dict_of [(u "urgent", 0%Z); (u "work", 0%Z); (u "marketing", 0%Z);
              (u "internal", 0%Z); (u "spam", 0%Z)].
Proof.
  unfold zero_counts.
  by replace (Py.keys_of EMAIL_CATEGORIES)
    with [u "urgent"; u "work"; u "marketing"; u "internal"; u "spam"]
    by (by vm_compute).
Qed.

Lemma zero_counts_priorities :
  zero_counts PRIORITY_LEVELS =
  Py.dict_of [(u "high", 0%Z); (u "medium", 0%Z); (u "low", 0%Z)].
Proof.
  unfold zero_counts.
  by replace (Py.keys_of PRIORITY_LEVELS) with [u "high"; u "medium"; u "low"]
    by (by vm_compute).
Qed.

Lemma dict_of_dom {A} (items : list (pystr * A)) :
  dom (Py.dict_of items) = list_to_set items.*1.
Proof.
  apply set_eq. intros k.
  by rewrite elem_of_dom, dict_of_is_Some, elem_of_list_to_set.
Qed.

Lemma dict_of_zero (keys : list pystr) (k : pystr) :
  default 0%Z (Py.dict_of ((λ k, (k, 0%Z)) <$> keys) !! k) = 0%Z.
Proof.
  induction keys as [|k' keys IH] using rev_ind; [done|].
  rewrite fmap_app. simpl. rewrite dict_of_snoc.
  destruct (decide (k' = k)) as [->|Hne].
  - by rewrite lookup_insert_eq.
  - by rewrite lookup_insert_ne.
Qed.

(** C10: the two counting functions return one count per value of the
    fixed set and nothing else; each count is the number of records whose
    value (['work'], resp. ['medium'], when nothing is attached) is that
    member of the set, so a record with any other value is counted
    nowhere, without an error, and the counts can add up to less than the
    number of records. *)
Theorem stats_count_fixed_values_only (l : list pydict) :
  Forall (countable_by category_of) l →
  Forall (countable_by priority_of) l →
  (∃ stats,
     get_category_stats l = Ok stats ∧
     dom stats =
       list_to_set [u "urgent"; u "work"; u "marketing"; u "internal"; u "spam"] ∧
     ∀ category, category ∈ dom stats →
                 stats !! category = Some (tally category_of category l)) ∧
  (∃ stats,
     get_priority_stats l = Ok stats ∧
     dom stats = list_to_set [u "high"; u "medium"; u "low"] ∧
     ∀ priority, priority ∈ dom stats →
                 stats !! priority = Some (tally priority_of priority l)) ∧
  (∀ email, email !! u "classification" = None →
            category_of email = Ok (PStr (u "work"))) ∧
  (∀ email, email !! u "priority_analysis" = None →
            priority_of email = Ok (PStr (u "medium"))) ∧
  (∀ email other category,
     category_of email = Ok (PStr other) →
     other ∉ [u "urgent"; u "work"; u "marketing"; u "internal"; u "spam"] →
     category ∈ [u "urgent"; u "work"; u "marketing"; u "internal"; u "spam"] →
     tally category_of category (email :: l) = tally category_of category l) ∧
  (∀ email other priority,
     priority_of email = Ok (PStr other) →
     other ∉ [u "high"; u "medium"; u "low"] →
     priority ∈ [u "high"; u "medium"; u "low"] →
     tally priority_of priority (email :: l) = tally priority_of priority l) ∧
  get_category_stats
    [Py.dict_of [(u "classification", PDict (Py.dict_of [(u "category", PStr (u "other"))]))]] =
    Ok (Py.dict_of [(u "urgent", 0%Z); (u "work", 0%Z); (u "marketing", 0%Z);
                    (u "internal", 0%Z); (u "spam", 0%Z)]) ∧
  get_priority_stats
    [Py.dict_of [(u "priority_analysis", PDict (Py.dict_of [(u "priority", PStr (u "none"))]))]] =
    Ok (Py.dict_of [(u "high", 0%Z); (u "medium", 0%Z); (u "low", 0%Z)]).
Proof.
  intros Hc Hp. split_and!; [| | | | | |by_evaluation..].
  - unfold get_category_stats.
    destruct (count_loop_spec "classification" "category" "work" l
                (zero_counts EMAIL_CATEGORIES) Hc) as (stats & -> & Hdom & Hcount).
    exists stats. split; [done|].
    rewrite zero_counts_categories in Hdom, Hcount.
    rewrite dict_of_dom in Hdom. split; [done|].
    intros c Hin. rewrite Hdom, <- dict_of_dom in Hin. rewrite Hcount by done.
    by rewrite (dict_of_zero [u "urgent"; u "work"; u "marketing"; u "internal"; u "spam"]).
  - unfold get_priority_stats.
    destruct (count_loop_spec "priority_analysis" "priority" "medium" l
                (zero_counts PRIORITY_LEVELS) Hp) as (stats & -> & Hdom & Hcount).
    exists stats. split; [done|].
    rewrite zero_counts_priorities in Hdom, Hcount.
    rewrite dict_of_dom in Hdom. split; [done|].
    intros c Hin. rewrite Hdom, <- dict_of_dom in Hin. rewrite Hcount by done.
    by rewrite (dict_of_zero [u "high"; u "medium"; u "low"]).
  - intros email He. unfold category_of, field_value, Py.dict_get. by rewrite He.
  - intros email He. unfold priority_of, field_value, Py.dict_get. by rewrite He.
  - intros email other c He Hout Hin. rewrite tally_cons. unfold reads. rewrite He. simpl.
    case_bool_decide as Heq; [by subst|lia].
  - intros email other c He Hout Hin. rewrite tally_cons. unfold reads. rewrite He. simpl.
    case_bool_decide as Heq; [by subst|lia].
Qed.

(** ** The language-model calls *)

Lemma generate_run prompt max_tokens temperature system_prompt log :
  let req := Request model_name (chat_messages system_prompt prompt)
                     max_tokens temperature in
  generate prompt max_tokens temperature system_prompt log =
  (completion (service log req), log ++ [req]).
Proof.
  intros req. unfold generate. rewrite run_try, run_bind. unfold create. fold req.
  by destruct (service log req) as [[text|]|e].
Qed.

Lemma generate_with_examples_run prompt examples max_tokens temperature log :
  let req := Request model_name (example_messages examples ++ [(u "user", prompt)])
                     max_tokens temperature in
  generate_with_examples prompt examples max_tokens temperature log =
  (completion (service log req), log ++ [req]).
Proof.
  intros req. unfold generate_with_examples. rewrite run_try, run_bind.
  unfold create. fold req.
  by destruct (service log req) as [[text|]|e].
Qed.

Ltac run_step := rewrite run_lift_bind; cbv beta iota.

Lemma preview_str (s : pystr) (n : nat) :
  ∃ s', preview (PStr s) n = Ok (PStr s').
Proof.
  unfold preview. simpl. destruct (_ <? _)%Z; eauto.
Qed.

Lemma parse_classification_value (response : pystr) :
  ∃ v reason, parse_classification response = Ok (v, reason) ∧
              (v = PNone ∨ ∃ s, v = PStr s).
Proof.
  unfold parse_classification.
  destruct (Re.search (Re.labelled is_space (Re.Lit (u "카테고리")) is_word) response)
    as [text|]; cbn [group1 Py.truthy lower].
  - destruct (negb _); cbn [fmap result_fmap mbind result_bind]; eauto 6.
  - cbn [negb mbind result_bind]. eauto.
Qed.

Lemma parse_priority_value (response : pystr) :
  (parse_priority response).1 = PNone ∨ ∃ s, (parse_priority response).1 = PStr s.
Proof.
  unfold parse_priority.
  destruct (Re.search (Re.labelled is_space (Re.Lit (u "우선순위")) is_word) response)
    as [text|]; simpl; eauto.
Qed.

(** On a message the first stage sends one request and either parses the
    completion or turns the failure of the call into a [ValueError]. *)
Lemma _classify_with_llm_run (email : pydict) (log : list request) :
  is_message email →
  ∃ req,
    _classify_with_llm email log =
    (match completion (service log req) with
     | Ok response => parse_classification response
     | Raise e => Raise (Exn ValueError (u "LLM 분류 오류: " ++ exn_msg e))
     end, log ++ [req]).
Proof.
  intros (subject & sender & body & Hs & Hf & Hb).
  unfold _classify_with_llm, Py.getitem. rewrite Hs, Hf, Hb. run_step.
  destruct (preview_str body 500) as [body' ->]. run_step. run_step. run_step.
  rewrite run_try, run_bind, generate_run. cbv zeta.
  match goal with |- context [service log ?r] => exists r end.
  destruct (completion (service log _)) as [text|e]; [|done].
  by destruct (parse_classification_value text) as (v & reason & -> & _).
Qed.

Lemma _analyze_with_llm_run (email : pydict) (classification : pydict)
    (log : list request) :
  is_message email →
  ∃ req,
    _analyze_with_llm email (PDict classification) log =
    (match completion (service log req) with
     | Ok response => Ok (parse_priority response)
     | Raise e => Raise (Exn ValueError (u "LLM 우선순위 분석 오류: " ++ exn_msg e))
     end, log ++ [req]).
Proof.
  intros (subject & sender & body & Hs & Hf & Hb).
  unfold _analyze_with_llm, Py.getitem. rewrite Hs, Hf, Hb. run_step.
  destruct (preview_str body 400) as [body' ->]. run_step.
  unfold Py.get. run_step. run_step. run_step.
  rewrite run_try, run_bind, generate_run. cbv zeta.
  match goal with |- context [service log ?r] => exists r end.
  by destruct (completion (service log _)) as [text|e].
Qed.

(** ** Validation of the model's answer *)

Lemma rejected_false (v : pyval) (items : list (pystr * pyval)) :
  rejected v (Py.dict_of items) = Ok false → ∃ s, v = PStr s ∧ s ∈ items.*1.
Proof.
  unfold rejected. destruct (negb (Py.truthy v)); [done|].
  destruct v as [| | | |s| |]; simpl; try done.
  intros [= Hin]. apply negb_false_iff, bool_decide_eq_true in Hin.
  exists s. split; [done|]. by apply dict_of_is_Some.
Qed.

Lemma rejected_true (v : pyval) (items : list (pystr * pyval)) :
  (v = PNone ∨ ∃ s, v = PStr s) →
  (∀ s, s ∈ items.*1 → v ≠ PStr s) →
  rejected v (Py.dict_of items) = Ok true.
Proof.
  intros [->|[s ->]] Hout; [done|].
  unfold rejected. destruct (negb (Py.truthy (PStr s))); [done|]. simpl.
  rewrite bool_decide_eq_false_2; [done|].
  intros Hin%dict_of_is_Some. by apply (Hout s).
Qed.

Lemma classify_after_llm (email : pydict) (log : list request) :
  is_message email →
  classify email log =
  match _classify_with_llm email log with
  | (Ok (category, reason), log') =>
    (match rejected category (Py.dict_of EMAIL_CATEGORIES) with
     | Ok true =>
       Raise (Exn ValueError
                (u "LLM 분류 실패: 유효하지 않은 카테고리 '" ++ fmt category ++
                 u "'. OpenAI API 키가 올바르게 설정되었는지 확인하세요."))
     | Ok false =>
       Ok (Py.dict_of [(u "category", category);
                       (u "confidence", PFloat (Float.literal 85 100));
                       (u "reason", PStr reason)])
     | Raise e => Raise e
     end, log')
  | (Raise e, log') => (Raise e, log')
  end.
Proof.
  intros (subject & sender & body & Hs & Hf & Hb).
  unfold classify, Py.getitem. rewrite Hs. run_step.
  cbn [Py.slice_to]. run_step. rewrite run_bind. cbn [print mret M_ret].
  rewrite run_bind.
  destruct (_classify_with_llm email log) as [[[category reason]|e] log']; [|done].
  run_step. by destruct (rejected category _) as [[|]|e].
Qed.

Lemma analyze_after_llm (email : pydict) (classification : pyval) (log : list request) :
  is_message email →
  analyze email classification log =
  match _analyze_with_llm email classification log with
  | (Ok (priority, factors), log') =>
    (match rejected priority (Py.dict_of PRIORITY_LEVELS) with
     | Ok true =>
       Raise (Exn ValueError
                (u "LLM 우선순위 분석 실패: 유효하지 않은 우선순위 '" ++ fmt priority ++
                 u "'. OpenAI API 키가 올바르게 설정되었는지 확인하세요."))
     | Ok false =>
       match _calculate_urgency_score email priority with
       | Ok urgency_score =>
         Ok (Py.dict_of [(u "priority", priority);
                         (u "urgency_score", PInt urgency_score);
                         (u "factors", PList (PStr <$> factors))])
       | Raise e => Raise e
       end
     | Raise e => Raise e
     end, log')
  | (Raise e, log') => (Raise e, log')
  end.
Proof.
  intros (subject & sender & body & Hs & Hf & Hb).
  unfold analyze, Py.getitem. rewrite Hs. run_step.
  cbn [Py.slice_to]. run_step. rewrite run_bind. cbn [print mret M_ret].
  rewrite run_bind.
  destruct (_analyze_with_llm email classification log)
    as [[[priority factors]|e] log']; [|done].
  run_step. destruct (rejected priority _) as [[|]|e]; [done| |done].
  run_step. by destruct (_calculate_urgency_score email priority).
Qed.

(** C1: on a message, a classification that [classify] returns has its
    category in the fixed set, and a priority that [analyze] returns is
    in the fixed set; when the value derived from the model's answer is
    absent or outside the set, the stage raises [ValueError]. *)
Theorem stage_results_in_fixed_sets (email : pydict) (classification : pydict)
    (log : list request) :
  is_message email →
  (∀ c log', classify email log = (Ok c, log') →
     ∃ category,
       c !! u "category" = Some (PStr category) ∧
       category ∈ [u "urgent"; u "work"; u "marketing"; u "internal"; u "spam"]) ∧
  (∀ p log', analyze email (PDict classification) log = (Ok p, log') →
     ∃ priority,
       p !! u "priority" = Some (PStr priority) ∧
       priority ∈ [u "high"; u "medium"; u "low"]) ∧
  (∀ v reason log',
     _classify_with_llm email log = (Ok (v, reason), log') →
     (∀ category,
        category ∈ [u "urgent"; u "work"; u "marketing"; u "internal"; u "spam"] →
        v ≠ PStr category) →
     ∃ msg, classify email log = (Raise (Exn ValueError msg), log')) ∧
  (∀ v factors log',
     _analyze_with_llm email (PDict classification) log = (Ok (v, factors), log') →
     (∀ priority, priority ∈ [u "high"; u "medium"; u "low"] → v ≠ PStr priority) →
     ∃ msg, analyze email (PDict classification) log = (Raise (Exn ValueError msg), log')).
Proof.
  intros Hmsg. split_and!.
  - intros c log'. rewrite classify_after_llm by done.
    destruct (_classify_with_llm email log) as [[[v reason]|e] log'']; [|done].
    destruct (rejected v _) as [[|]|e] eqn:Hrej; try done.
    intros [= <- <-]. apply rejected_false in Hrej as (s & -> & Hin).
    exists s. split; [by dict_lookup|done].
  - intros p log'. rewrite analyze_after_llm by done.
    destruct (_analyze_with_llm email _ log) as [[[v factors]|e] log'']; [|done].
    destruct (rejected v _) as [[|]|e] eqn:Hrej; try done.
    destruct (_calculate_urgency_score email v) as [score|e]; [|done].
    intros [= <- <-]. apply rejected_false in Hrej as (s & -> & Hin).
    exists s. split; [by dict_lookup|done].
  - intros v reason log' Hllm Hout. rewrite classify_after_llm, Hllm by done.
    rewrite rejected_true; [by eexists| |done].
    destruct (_classify_with_llm_run email log Hmsg) as [req Hrun].
    rewrite Hrun in Hllm. destruct (completion _) as [text|e]; [|done].
    destruct (parse_classification_value text) as (v' & reason' & Hparse & Hv).
    rewrite Hparse in Hllm. by injection Hllm as <- <- <-.
  - intros v factors log' Hllm Hout. rewrite analyze_after_llm, Hllm by done.
    rewrite rejected_true; [by eexists| |done].
    destruct (_analyze_with_llm_run email classification log Hmsg) as [req Hrun].
    rewrite Hrun in Hllm. destruct (completion _) as [text|e]; [|done].
    pose proof (parse_priority_value text) as Hv.
    destruct (parse_priority text) as [v' factors']. by injection Hllm as <- <- <-.
Qed.

(** ** Drafting *)

Lemma _generate_draft_with_llm_run (email : pydict) (classification priority_analysis : pydict)
    (tone : pystr) (log : list request) :
  is_message email →
  ∃ req,
    _generate_draft_with_llm email (PDict classification) (PDict priority_analysis) tone log =
    (match completion (service log req) with
     | Ok text => Ok (strip is_space text)
     | Raise e => Raise (Exn ValueError (u "LLM 답변 생성 오류: " ++ exn_msg e))
     end, log ++ [req]).
Proof.
  intros (subject & sender & body & Hs & Hf & Hb).
  unfold _generate_draft_with_llm, Py.getitem. rewrite Hs, Hf, Hb. run_step.
  destruct (preview_str body 600) as [body' ->]. run_step.
  unfold Py.get. run_step. run_step. run_step. run_step.
  rewrite run_try, run_bind, generate_run. cbv zeta.
  match goal with |- context [service log ?r] => exists r end.
  by destruct (completion (service log _)) as [text|e].
Qed.

Lemma draft_response_run (email : pydict) (subject : pystr)
    (classification priority_analysis : pydict) (log : list request) :
  email !! u "subject" = Some (PStr subject) →
  draft_response email (PDict classification) (PDict priority_analysis) log =
  let category := Py.dict_get classification (u "category") (PStr (u "work")) in
  let priority := Py.dict_get priority_analysis (u "priority") (PStr (u "medium")) in
  if Py.in_str_list category [u "spam"; u "marketing"] then
    (Ok (Py.dict_of [(u "draft", PNone); (u "tone", PNone);
                     (u "suggested_subject", PNone);
                     (u "should_respond", PBool false);
                     (u "reason", PStr no_reply_reason)]), log)
  else
    match _generate_draft_with_llm email (PDict classification) (PDict priority_analysis)
                                   (_select_tone category priority) log with
    | (Ok draft, log') =>
      (if negb (Py.truthy (PStr draft)) then
         Raise (Exn ValueError
                  (u "LLM 답변 생성 실패. OpenAI API 키가 올바르게 설정되었는지 확인하세요."))
       else
         Ok (Py.dict_of [(u "draft", PStr draft);
                         (u "tone", PStr (_select_tone category priority));
                         (u "suggested_subject", PStr (u "Re: " ++ subject));
                         (u "should_respond", PBool true);
                         (u "reason", PStr drafted_reason)]), log')
    | (Raise e, log') => (Raise e, log')
    end.
Proof.
  intros Hs. cbv zeta.
  unfold draft_response, Py.getitem. rewrite Hs. run_step.
  cbn [Py.slice_to]. run_step. rewrite run_bind. cbn [print mret M_ret].
  unfold Py.get. run_step. run_step.
  destruct (Py.in_str_list _ _); [done|].
  rewrite run_bind.
  destruct (_generate_draft_with_llm _ _ _ _ log) as [[draft|e] log']; [|done].
  destruct (negb _); [done|]. by run_step.
Qed.

Lemma in_str_list_spam_marketing (category : pyval) :
  Py.in_str_list category [u "spam"; u "marketing"] = true ↔
  category = PStr (u "spam") ∨ category = PStr (u "marketing").
Proof.
  unfold Py.in_str_list. simpl.
  rewrite orb_false_r, orb_true_iff, !eq_str_true. tauto.
Qed.

(** C4: for the categories spam and marketing [draft_response] returns
    the fixed no-reply record and leaves the request log as it was (no
    model call); for any other category a successful call returns
    [should_respond] true, a non-empty draft, the selected tone, and the
    subject prefixed by ["Re: "]. *)
Theorem draft_response_short_circuit (email : pydict) (subject : pystr)
    (classification priority_analysis : pydict) (log : list request) :
  email !! u "subject" = Some (PStr subject) →
  let category := Py.dict_get classification (u "category") (PStr (u "work")) in
  let priority := Py.dict_get priority_analysis (u "priority") (PStr (u "medium")) in
  (category = PStr (u "spam") ∨ category = PStr (u "marketing") →
   draft_response email (PDict classification) (PDict priority_analysis) log =
   (Ok (Py.dict_of [(u "draft", PNone); (u "tone", PNone);
                    (u "suggested_subject", PNone);
                    (u "should_respond", PBool false);
                    (u "reason", PStr (u "답변이 필요하지 않은 이메일입니다."))]),
    log)) ∧
  (category ≠ PStr (u "spam") → category ≠ PStr (u "marketing") →
   ∀ d log',
     draft_response email (PDict classification) (PDict priority_analysis) log =
       (Ok d, log') →
     ∃ draft,
       draft ≠ [] ∧
       d = Py.dict_of [(u "draft", PStr draft);
                       (u "tone", PStr (_select_tone category priority));
                       (u "suggested_subject", PStr (u "Re: " ++ subject));
                       (u "should_respond", PBool true);
                       (u "reason", PStr (u "답변 초안이 생성되었습니다."))]).
Proof.
  intros Hs category priority. rewrite (draft_response_run email subject) by done.
  cbv zeta. fold category priority. split.
  - intros Hcat. apply in_str_list_spam_marketing in Hcat. by rewrite Hcat.
  - intros Hspam Hmarketing d log'.
    destruct (Py.in_str_list category _) eqn:Hcat.
    { apply in_str_list_spam_marketing in Hcat. tauto. }
    destruct (_generate_draft_with_llm _ _ _ _ log) as [[draft|e] log'']; [|done].
    destruct draft as [|c draft]; [done|]. simpl.
    intros [= <- <-]. by exists (c :: draft).
Qed.

(** ** Refinement *)

(** C9: [refine_draft] never raises: when the call fails, or comes back
    without content, it returns the original draft unchanged, and
    otherwise the stripped text of the completion. Every other operation
    that calls the model raises when the call fails. *)
Theorem refine_draft_falls_back (original_draft user_feedback : pystr)
    (log : list request) :
  let req := Request model_name
                     [(u "user", refine_prompt original_draft user_feedback)]
                     500 (Float.literal 7 10) in
  refine_draft original_draft user_feedback log =
    (Ok (match service log req with
         | Content (Some text) => strip is_space text
         | Content None | Failure _ => original_draft
         end), log ++ [req]) ∧
  (unavailable log →
   (∀ prompt max_tokens temperature system_prompt,
      ∃ e, (generate prompt max_tokens temperature system_prompt log).1 = Raise e) ∧
   (∀ prompt examples max_tokens temperature,
      ∃ e, (generate_with_examples prompt examples max_tokens temperature log).1 = Raise e) ∧
   (∀ email, is_message email →
      ∃ msg, (classify email log).1 = Raise (Exn ValueError msg)) ∧
   (∀ email classification, is_message email →
      ∃ msg, (analyze email (PDict classification) log).1 = Raise (Exn ValueError msg)) ∧
   (∀ email classification priority_analysis, is_message email →
      Py.in_str_list (Py.dict_get classification (u "category") (PStr (u "work")))
                     [u "spam"; u "marketing"] = false →
      ∃ msg, (draft_response email (PDict classification) (PDict priority_analysis) log).1 =
             Raise (Exn ValueError msg))).
Proof.
  intros req. split.
  - unfold refine_draft. rewrite run_try, run_bind, generate_run. cbv zeta.
    change (chat_messages None (refine_prompt original_draft user_feedback))
      with [(u "user", refine_prompt original_draft user_feedback)].
    fold req. destruct (service log req) as [[text|]|e]; try done.
    simpl. by rewrite strip_idemp.
  - intros Hdown. split_and!.
    + intros prompt max_tokens temperature system_prompt. rewrite generate_run. simpl.
      match goal with |- context [service log ?r] => specialize (Hdown r) end.
      destruct (completion _); [done|by eexists].
    + intros prompt examples max_tokens temperature.
      rewrite generate_with_examples_run. simpl.
      match goal with |- context [service log ?r] => specialize (Hdown r) end.
      destruct (completion _); [done|by eexists].
    + intros email Hmsg. rewrite classify_after_llm by done.
      destruct (_classify_with_llm_run email log Hmsg) as [r ->].
      specialize (Hdown r). destruct (completion _); [done|by eexists].
    + intros email classification Hmsg. rewrite analyze_after_llm by done.
      destruct (_analyze_with_llm_run email classification log Hmsg) as [r ->].
      specialize (Hdown r). destruct (completion _); [done|by eexists].
    + intros email classification priority_analysis Hmsg Hcat.
      destruct Hmsg as (subject & sender & body & Hs & Hf & Hb).
      rewrite (draft_response_run email subject) by done. cbv zeta. rewrite Hcat.
      edestruct (_generate_draft_with_llm_run email classification priority_analysis)
        as [r ->]; [by exists subject, sender, body|].
      specialize (Hdown r). destruct (completion _); [done|by eexists].
Qed.

(** ** Batches *)

Lemma extended_by_insert (key : pystr) (stage : pydict → M pydict)
    (email v : pydict) (log1 log2 : list request) :
  stage email log1 = (Ok v, log2) →
  extended_by key stage email (<[key := PDict v]> email).
Proof.
  intros Hrun. split; [by exists v, log1, log2|]. split.
  - intros k Hk. by rewrite lookup_insert_ne.
  - intros Hnone. split; [by apply insert_subseteq|].
    split; [by rewrite dom_insert_L|]. by apply not_elem_of_dom.
Qed.

Lemma batch_extended_of_Forall2 (key : pystr) (stage : pydict → M pydict)
    (emails added : list pydict) :
  Forall2 (extended_by key stage) emails added →
  batch_extended key stage emails added.
Proof.
  intros Hall. split; [symmetry; by eapply Forall2_length|].
  intros i email Hi.
  destruct (Forall2_lookup_l _ _ _ _ _ Hall Hi) as (r & Hr & Hext). eauto.
Qed.

Lemma batch_classify_loop_spec (emails results out : list pydict) (log log' : list request) :
  batch_classify_loop emails results log = (Ok out, log') →
  ∃ added, out = results ++ added ∧
           Forall2 (extended_by (u "classification") classify) emails added.
Proof.
  revert results log. induction emails as [|email rest IH]; intros results log Hrun.
  - injection Hrun as <- <-. exists []. by rewrite app_nil_r.
  - cbn [batch_classify_loop] in Hrun.
    apply bind_Ok_inv in Hrun as (c & log1 & Hstage & Hrest).
    apply IH in Hrest as (added & -> & Hall).
    exists (<[u "classification" := PDict c]> email :: added).
    split; [by rewrite <- app_assoc|].
    constructor; [by eapply extended_by_insert|done].
Qed.

Lemma batch_analyze_loop_spec (emails results out : list pydict) (log log' : list request) :
  batch_analyze_loop emails results log = (Ok out, log') →
  ∃ added, out = results ++ added ∧
           Forall2 (extended_by (u "priority_analysis") analyze_record) emails added.
Proof.
  revert results log. induction emails as [|email rest IH]; intros results log Hrun.
  - injection Hrun as <- <-. exists []. by rewrite app_nil_r.
  - cbn [batch_analyze_loop] in Hrun.
    apply bind_Ok_inv in Hrun as (c & log1 & Hstage & Hrest).
    apply IH in Hrest as (added & -> & Hall).
    exists (<[u "priority_analysis" := PDict c]> email :: added).
    split; [by rewrite <- app_assoc|].
    constructor; [by eapply extended_by_insert|done].
Qed.

Lemma batch_draft_loop_spec (emails results out : list pydict) (log log' : list request) :
  batch_draft_loop emails results log = (Ok out, log') →
  ∃ added, out = results ++ added ∧
           Forall2 (extended_by (u "response_draft") draft_record) emails added.
Proof.
  revert results log. induction emails as [|email rest IH]; intros results log Hrun.
  - injection Hrun as <- <-. exists []. by rewrite app_nil_r.
  - cbn [batch_draft_loop] in Hrun.
    apply bind_Ok_inv in Hrun as (c & log1 & Hstage & Hrest).
    apply IH in Hrest as (added & -> & Hall).
    exists (<[u "response_draft" := PDict c]> email :: added).
    split; [by rewrite <- app_assoc|].
    constructor; [by eapply extended_by_insert|done].
Qed.

(** C7, as the code has it: a batch that does not raise returns one
    record per input record, in input order; each is its input with the
    stage's key bound to the stage's result, every other key unchanged (so
    the fields of the earlier stages are kept); and when the input does
    not carry the stage's key yet, the result contains the whole input
    plus exactly that one new key. *)
Theorem batch_stages_extend_records (emails out : list pydict) (log log' : list request) :
  (batch_classify emails log = (Ok out, log') →
   batch_extended (u "classification") classify emails out) ∧
  (batch_analyze emails log = (Ok out, log') →
   batch_extended (u "priority_analysis") analyze_record emails out ∧
   (∀ i email r, emails !! i = Some email → out !! i = Some r →
                 r !! u "classification" = email !! u "classification")) ∧
  (batch_draft emails log = (Ok out, log') →
   batch_extended (u "response_draft") draft_record emails out ∧
   (∀ i email r, emails !! i = Some email → out !! i = Some r →
                 r !! u "classification" = email !! u "classification" ∧
                 r !! u "priority_analysis" = email !! u "priority_analysis")).
Proof.
  split_and!.
  - intros Hrun. apply batch_classify_loop_spec in Hrun as (added & -> & Hall).
    by apply batch_extended_of_Forall2.
  - intros Hrun. apply batch_analyze_loop_spec in Hrun as (added & -> & Hall).
    apply batch_extended_of_Forall2 in Hall as Hext. split; [done|].
    intros i email r Hi Hr. destruct Hext as [_ Hext].
    destruct (Hext i email Hi) as (r' & Hr' & _ & Hframe & _).
    simpl in Hr. rewrite Hr in Hr'. injection Hr' as <-.
    apply Hframe. by vm_compute.
  - intros Hrun. apply batch_draft_loop_spec in Hrun as (added & -> & Hall).
    apply batch_extended_of_Forall2 in Hall as Hext. split; [done|].
    intros i email r Hi Hr. destruct Hext as [_ Hext].
    destruct (Hext i email Hi) as (r' & Hr' & _ & Hframe & _).
    simpl in Hr. rewrite Hr in Hr'. injection Hr' as <-.
    split; apply Hframe; by vm_compute.
Qed.

(** ** The pattern matcher *)

Lemma runs_sound (p : N → bool) (s a b : pystr) :
  (a, b) ∈ Re.runs p s → s = a ++ b ∧ Forall (λ c, p c = true) a.
Proof.
  revert a b. induction s as [|c s IH]; intros a b; simpl.
  - intros Hin%list_elem_of_singleton. by injection Hin as -> ->.
  - destruct (p c) eqn:Hc.
    + rewrite elem_of_app, list_elem_of_singleton, list_elem_of_fmap.
      intros [([a' b'] & Heq & Hin)|Heq].
      * injection Heq as -> ->. destruct (IH _ _ Hin) as [-> Hall].
        split; [done|by constructor].
      * injection Heq as -> ->. by split.
    + intros Hin%list_elem_of_singleton. by injection Hin as -> ->.
Qed.

(** Every match the matcher reports is a match of the pattern: the text
    consumed is at the head of the subject and parses as the pattern does,
    with the capture reported. *)
Lemma matches_sound (r : Re.regex) (s a rest : pystr) (g : option pystr) :
  (a, g, rest) ∈ Re.matches r s → s = a ++ rest ∧ parses r a g.
Proof.
  revert s a rest g. induction r as [l|p|p|p|r1 IH1|r1 IH1 r2 IH2];
    intros s a rest g; simpl.
  - destruct (starts_with l s) eqn:Hl; [|by intros ?%elem_of_nil].
    intros Hin%list_elem_of_singleton. injection Hin as -> -> ->.
    apply starts_with_spec in Hl as [post ->].
    by rewrite drop_app_length.
  - destruct s as [|c s]; [by intros ?%elem_of_nil|].
    destruct (p c) eqn:Hc; [|by intros ?%elem_of_nil].
    intros Hin%list_elem_of_singleton. injection Hin as -> -> ->. eauto 6.
  - rewrite list_elem_of_fmap. intros ([a' b'] & Heq & Hin).
    injection Heq as -> -> ->. by destruct (runs_sound _ _ _ _ Hin).
  - rewrite list_elem_of_fmap. intros ([a' b'] & Heq & Hin).
    injection Heq as -> -> ->. apply list_elem_of_filter in Hin as [Hne Hin].
    by destruct (runs_sound _ _ _ _ Hin).
  - rewrite list_elem_of_fmap. intros ([[a' g'] b'] & Heq & Hin).
    injection Heq as -> -> ->. destruct (IH1 _ _ _ _ Hin). eauto.
  - rewrite list_elem_of_In, in_flat_map.
    intros ([[a1 g1] rest1] & Hin1%list_elem_of_In & Hin2%list_elem_of_In).
    apply list_elem_of_fmap in Hin2 as ([[a2 g2] rest2] & Heq & Hin2).
    injection Heq as -> -> ->.
    destruct (IH1 _ _ _ _ Hin1) as [-> Hp1], (IH2 _ _ _ _ Hin2) as [-> Hp2].
    split; [by rewrite app_assoc|]. by exists a1, g1, a2, g2.
Qed.

Lemma search_sound (r : Re.regex) (s g : pystr) :
  Re.search r s = Some g →
  ∃ pre a rest g', s = pre ++ a ++ rest ∧ parses r a g' ∧ g = default [] g'.
Proof.
  induction s as [|c s IH]; simpl.
  - destruct (Re.matches r []) as [|[[a g'] rest] ms] eqn:Hm; [done|].
    intros [= <-].
    destruct (matches_sound r [] a rest g') as [Heq Hp]; [rewrite Hm; by left|].
    by exists [], a, rest, g'.
  - destruct (Re.matches r (c :: s)) as [|[[a g'] rest] ms] eqn:Hm.
    + intros (pre & a & rest & g' & -> & Hp & ->)%IH.
      by exists (c :: pre), a, rest, g'.
    + intros [= <-].
      destruct (matches_sound r (c :: s) a rest g') as [Heq Hp]; [rewrite Hm; by left|].
      by exists [], a, rest, g'.
Qed.

Lemma labelled_search_sound (label : pystr) (value : N → bool) (s g : pystr) :
  Re.search (Re.labelled is_space (Re.Lit label) value) s = Some g →
  labelled_value label value s g.
Proof.
  intros (pre & a & rest & g' & -> & Hp & ->)%search_sound.
  destruct Hp as (a1 & g1 & a2 & g2 & -> & [-> ->] & Hp & ->).
  destruct Hp as (a3 & g3 & a4 & g4 & -> & [Hsp1 ->] & Hp & ->).
  destruct Hp as (a5 & g5 & a6 & g6 & -> & [(c & -> & Hc) ->] & Hp & ->).
  destruct Hp as (a7 & g7 & a8 & g8 & -> & [Hsp2 ->] & [(g9 & Hne & Hval & ->) ->] & ->).
  simpl. exists pre, a3, c, a7, rest. split_and!; try done.
  f_equal. rewrite <- !app_assoc. do 2 f_equal. simpl. by rewrite <- app_assoc.
Qed.

Lemma labelled_search_needs_label (label : pystr) (value : N → bool) (s : pystr) :
  contains label s = false →
  Re.search (Re.labelled is_space (Re.Lit label) value) s = None.
Proof.
  intros Hno. destruct (Re.search _ s) as [g|] eqn:Hs; [|done].
  apply labelled_search_sound in Hs as (pre & sp1 & c & sp2 & post & -> & _).
  apply not_true_iff_false in Hno. destruct Hno. apply contains_spec. eauto.
Qed.

Lemma runs_complete (p : N → bool) (a b : pystr) :
  Forall (λ c, p c = true) a → (a, b) ∈ Re.runs p (a ++ b).
Proof.
  induction 1 as [|c a Hc _ IH]; simpl.
  - destruct b as [|c b]; simpl; [by left|].
    destruct (p c); [|by left].
    apply elem_of_app. right. by left.
  - rewrite Hc. apply elem_of_app. left.
    apply list_elem_of_fmap. by exists (a, b).
Qed.

(** Every reading of the pattern at the head of the subject is among the
    matches the matcher reports. *)
Lemma matches_complete (r : Re.regex) (a rest : pystr) (g : option pystr) :
  parses r a g → (a, g, rest) ∈ Re.matches r (a ++ rest).
Proof.
  revert a rest g. induction r as [l|p|p|p|r1 IH1|r1 IH1 r2 IH2];
    intros a rest g; simpl.
  - intros [-> ->].
    rewrite (proj2 (starts_with_spec l (l ++ rest))) by eauto.
    rewrite drop_app_length. by left.
  - intros [(c & -> & Hc) ->]. simpl. rewrite Hc. by left.
  - intros [Hall ->]. apply list_elem_of_fmap. exists (a, rest).
    split; [done|]. by apply runs_complete.
  - intros (Hne & Hall & ->). apply list_elem_of_fmap. exists (a, rest).
    split; [done|]. apply list_elem_of_filter. split; [done|].
    by apply runs_complete.
  - intros [[g1 Hp] ->]. apply list_elem_of_fmap. exists (a, g1, rest).
    split; [done|]. by apply IH1.
  - intros (a1 & g1 & a2 & g2 & -> & Hp1 & Hp2 & ->).
    rewrite list_elem_of_In, in_flat_map. exists (a1, g1, a2 ++ rest). split.
    + apply list_elem_of_In. rewrite <- app_assoc. by apply IH1.
    + apply list_elem_of_In, list_elem_of_fmap. exists (a2, g2, rest).
      split; [done|]. by apply IH2.
Qed.

(** The tries of a greedy repetition: the longest run comes first, and
    every later try gives back at least one character of the class. *)
Lemma runs_split (p : N → bool) (s : pystr) :
  ∃ run rest shorter,
    Re.runs p s = (run, rest) :: shorter ∧
    s = run ++ rest ∧
    Forall (λ c, p c = true) run ∧
    (∀ c, head rest = Some c → p c = false) ∧
    Forall (λ ab : pystr * pystr, ∃ c t, ab.2 = c :: t ∧ p c = true) shorter ∧
    (run = [] → shorter = []).
Proof.
  induction s as [|c s (run & rest & shorter & Hruns & -> & Hrun & Hrest & Hshorter & _)];
    simpl.
  - exists [], [], []. split_and!; try done.
  - destruct (p c) eqn:Hc.
    + rewrite Hruns. simpl.
      exists (c :: run), rest,
             (map (λ '(a, b), (c :: a, b)) shorter ++ [([], c :: run ++ rest)]).
      split_and!; try done; [by constructor|].
      apply Forall_app. split.
      * apply Forall_fmap. eapply Forall_impl; [exact Hshorter|].
        by intros [a b].
      * repeat constructor. simpl. eauto.
    + exists [], (c :: run ++ rest), []. split_and!; try done.
      simpl. by intros ? [= <-].
Qed.

(** Where the search finds its match: at the first place of the subject
    at which the matcher reports any, and it is the first one reported
    there. *)
Lemma search_first (r : Re.regex) (s g : pystr) :
  Re.search r s = Some g →
  ∃ pre rest a g' post more,
    s = pre ++ rest ∧
    Re.matches r rest = (a, g', post) :: more ∧
    g = default [] g' ∧
    ∀ pre' rest', s = pre' ++ rest' → (length pre' < length pre)%nat →
                  Re.matches r rest' = [].
Proof.
  induction s as [|c s IH]; simpl.
  - destruct (Re.matches r []) as [|[[a g'] post] more] eqn:Hm; [done|].
    intros [= <-]. exists [], [], a, g', post, more. split_and!; try done.
    intros pre' rest' _ Hlt. simpl in Hlt. lia.
  - destruct (Re.matches r (c :: s)) as [|[[a g'] post] more] eqn:Hm.
    + intros (pre & rest & a & g' & post & more & -> & Hrest & -> & Hfirst)%IH.
      exists (c :: pre), rest, a, g', post, more. split_and!; try done.
      intros [|c' pre'] rest' Heq Hlt; simpl in *.
      * by subst rest'.
      * injection Heq as <- Heq. apply (Hfirst pre'); [done|lia].
    + intros [= <-]. exists [], (c :: s), a, g', post, more. split_and!; try done.
      intros pre' rest' _ Hlt. simpl in Hlt. lia.
Qed.

Lemma search_none (r : Re.regex) (s pre rest : pystr) :
  Re.search r s = None → s = pre ++ rest → Re.matches r rest = [].
Proof.
  revert pre. induction s as [|c s IH]; intros pre; simpl.
  - destruct (Re.matches r []) as [|[[a g'] post] more] eqn:Hm; [|done].
    intros _ Heq. symmetry in Heq. apply app_eq_nil in Heq as [_ ->]. done.
  - destruct (Re.matches r (c :: s)) as [|[[a g'] post] more] eqn:Hm; [|done].
    intros Hs Heq. destruct pre as [|c' pre]; simpl in Heq.
    + by subst rest.
    + injection Heq as _ Heq. by apply (IH pre).
Qed.

(** The first match of each part of a labelled pattern. *)
Lemma plus_group_first (p : N → bool) (s a post : pystr) (g : option pystr)
    (more : list (pystr * option pystr * pystr)) :
  Re.matches (Re.Group (Re.Plus p)) s = (a, g, post) :: more →
  s = a ++ post ∧ g = Some a ∧ a ≠ [] ∧ Forall (λ c, p c = true) a ∧
  (∀ c, head post = Some c → p c = false).
Proof.
  simpl.
  destruct (runs_split p s) as (run & rest & shorter & -> & -> & Hrun & Hrest & _ & Hnil).
  rewrite filter_cons. destruct (decide ((run, rest).1 ≠ [])) as [Hne|Hno]; simpl.
  - by intros [= <- <- <-].
  - simpl in Hno. apply dec_stable in Hno. by rewrite (Hnil Hno).
Qed.

Lemma star_seq_first (p : N → bool) (r : Re.regex) (s a post : pystr)
    (g : option pystr) (more : list (pystr * option pystr * pystr)) :
  (∀ c t, p c = true → Re.matches r (c :: t) = []) →
  Re.matches (Re.Seq (Re.Star p) r) s = (a, g, post) :: more →
  ∃ run rest a' g' more',
    s = run ++ rest ∧ Forall (λ c, p c = true) run ∧
    Re.matches r rest = (a', g', post) :: more' ∧
    a = run ++ a' ∧ g = match g' with Some _ => g' | None => None end.
Proof.
  intros Hfail. simpl.
  destruct (runs_split p s) as (run & rest & shorter & -> & -> & Hrun & _ & Hshorter & _).
  simpl.
  assert (flat_map
            (λ '(a1, g1, rest1),
               map (λ '(a2, g2, rest2),
                      (a1 ++ a2, match g2 with Some _ => g2 | None => g1 end, rest2))
                   (Re.matches r rest1))
            (map (λ '(a0, b), (a0, None, b)) shorter) = []) as ->.
  { induction Hshorter as [|[a0 b] shorter (c & t & Hb & Hc) _ IH]; [done|].
    simpl in *. subst b. by rewrite (Hfail c t Hc), IH. }
  rewrite app_nil_r.
  destruct (Re.matches r rest) as [|[[a' g'] post'] more'] eqn:Hm; [done|].
  simpl. intros [= <- <- <- <-]. by exists run, rest, a', g', more'.
Qed.

Lemma set_seq_first (p : N → bool) (r : Re.regex) (s a post : pystr)
    (g : option pystr) (more : list (pystr * option pystr * pystr)) :
  Re.matches (Re.Seq (Re.Set_ p) r) s = (a, g, post) :: more →
  ∃ c rest a' g' more',
    s = c :: rest ∧ p c = true ∧
    Re.matches r rest = (a', g', post) :: more' ∧
    a = c :: a' ∧ g = match g' with Some _ => g' | None => None end.
Proof.
  simpl. destruct s as [|c rest]; [done|]. destruct (p c) eqn:Hc; [|done].
  simpl. rewrite app_nil_r.
  destruct (Re.matches r rest) as [|[[a' g'] post'] more'] eqn:Hm; [done|].
  simpl. intros [= <- <- <- <-]. by exists c, rest, a', g', more'.
Qed.

Lemma lit_seq_first (l : pystr) (r : Re.regex) (s a post : pystr)
    (g : option pystr) (more : list (pystr * option pystr * pystr)) :
  Re.matches (Re.Seq (Re.Lit l) r) s = (a, g, post) :: more →
  ∃ rest a' g' more',
    s = l ++ rest ∧
    Re.matches r rest = (a', g', post) :: more' ∧
    a = l ++ a' ∧ g = match g' with Some _ => g' | None => None end.
Proof.
  simpl. destruct (starts_with l s) eqn:Hl; [|done].
  apply starts_with_spec in Hl as [rest ->]. rewrite drop_app_length.
  simpl. rewrite app_nil_r.
  destruct (Re.matches r rest) as [|[[a' g'] post'] more'] eqn:Hm; [done|].
  simpl. intros [= <- <- <- <-]. by exists rest, a', g', more'.
Qed.

Lemma plus_group_fails (p : N → bool) (c : N) (t : pystr) :
  p c = false → Re.matches (Re.Group (Re.Plus p)) (c :: t) = [].
Proof. intros Hc. simpl. by rewrite Hc. Qed.

Lemma set_seq_fails (p : N → bool) (r : Re.regex) (c : N) (t : pystr) :
  p c = false → Re.matches (Re.Seq (Re.Set_ p) r) (c :: t) = [].
Proof. intros Hc. simpl. by rewrite Hc. Qed.

(** The first match of a labelled pattern at a place: the field stands
    there, and the value captured is the whole word. *)
Lemma labelled_first (label : pystr) (value : N → bool) (s a post : pystr)
    (g : option pystr) (more : list (pystr * option pystr * pystr)) :
  spaces_apart value →
  Re.matches (Re.labelled is_space (Re.Lit label) value) s = (a, g, post) :: more →
  ∃ word, g = Some word ∧ labelled_at label value s word post ∧
          (∀ x, head post = Some x → value x = false).
Proof.
  intros Hapart. unfold Re.labelled.
  intros (s1 & a1 & g1 & more1 & -> & Hm & -> & ->)%lit_seq_first.
  apply star_seq_first in Hm as (sp1 & s2 & a2 & g2 & more2 & -> & Hsp1 & Hm & -> & ->);
    [|intros c t Hc; apply set_seq_fails; by apply Hapart].
  apply set_seq_first in Hm as (c & s3 & a3 & g3 & more3 & -> & Hc & Hm & -> & ->).
  apply star_seq_first in Hm as (sp2 & s4 & a4 & g4 & more4 & -> & Hsp2 & Hm & -> & ->);
    [|intros x t Hx; apply plus_group_fails; by apply Hapart].
  apply plus_group_first in Hm as (-> & -> & Hne & Hword & Hpost).
  exists a4. split; [done|]. split; [|done].
  by exists sp1, c, sp2.
Qed.

Lemma labelled_at_parses (label : pystr) (value : N → bool) (s g post : pystr) :
  labelled_at label value s g post →
  ∃ a, s = a ++ post ∧ parses (Re.labelled is_space (Re.Lit label) value) a (Some g).
Proof.
  intros (sp1 & c & sp2 & -> & Hsp1 & Hc & Hsp2 & Hne & Hg).
  exists (label ++ sp1 ++ [c] ++ sp2 ++ g). split.
  { rewrite <- !app_assoc. done. }
  exists label, None, (sp1 ++ [c] ++ sp2 ++ g), (Some g). split_and!; try done.
  exists sp1, None, ([c] ++ sp2 ++ g), (Some g). split_and!; try done.
  exists [c], None, (sp2 ++ g), (Some g). split_and!; try done;
    [split; [by exists c|done]|].
  exists sp2, None, g, (Some g). split_and!; try done.
  split; [|done]. by exists None.
Qed.

Lemma span_unique (p : N → bool) (a1 a2 b1 b2 : pystr) :
  Forall (λ c, p c = true) a1 → Forall (λ c, p c = true) a2 →
  (∀ c, head b1 = Some c → p c = false) →
  (∀ c, head b2 = Some c → p c = false) →
  a1 ++ b1 = a2 ++ b2 → a1 = a2 ∧ b1 = b2.
Proof.
  intros H1. revert a2. induction H1 as [|c a1 Hc _ IH]; intros a2 H2 Hb1 Hb2 Heq.
  - destruct H2 as [|c a2 Hc _]; [done|]. simpl in Heq. subst b1.
    specialize (Hb1 c eq_refl). congruence.
  - destruct H2 as [|c' a2 Hc' H2]; simpl in Heq.
    + subst b2. specialize (Hb2 c eq_refl). congruence.
    + injection Heq as <- Heq. destruct (IH a2 H2 Hb1 Hb2 Heq) as [-> ->]. done.
Qed.

(** At one place the field has one value only. *)
Lemma labelled_at_unique (label : pystr) (value : N → bool)
    (s g1 post1 g2 post2 : pystr) :
  spaces_apart value →
  labelled_at label value s g1 post1 → (∀ x, head post1 = Some x → value x = false) →
  labelled_at label value s g2 post2 → (∀ x, head post2 = Some x → value x = false) →
  g1 = g2.
Proof.
  intros Hapart (sp1 & c1 & sp2 & -> & Hsp1 & Hc1 & Hsp2 & Hne1 & Hg1) Hpost1
         (sp1' & c2 & sp2' & Heq & Hsp1' & Hc2 & Hsp2' & Hne2 & Hg2) Hpost2.
  assert (∀ c, Re.colon c = true → is_space c = false) as Hcolon.
  { intros c Hc. destruct (is_space c) eqn:Hs; [|done].
    destruct (Hapart c Hs) as [_ Hno]. congruence. }
  assert (∀ g post, g ≠ [] → Forall (λ x, value x = true) g →
                    ∀ c, head (g ++ post) = Some c → is_space c = false) as Hvalue.
  { intros g post Hne Hg c Hhead. destruct Hg as [|x g Hx _]; [done|].
    simpl in Hhead. injection Hhead as <-. destruct (is_space x) eqn:Hs; [|done].
    destruct (Hapart x Hs) as [Hno _]. congruence. }
  apply app_inv_head in Heq.
  apply (span_unique is_space) in Heq as [-> Heq]; try done;
    [|intros ? [= <-]; by apply Hcolon..].
  injection Heq as -> Heq.
  apply (span_unique is_space) in Heq as [-> Heq]; try done; [|by apply Hvalue..].
  by apply (span_unique value) in Heq as [-> _].
Qed.

Lemma first_labelled_value_unique (label : pystr) (value : N → bool) (s g1 g2 : pystr) :
  spaces_apart value →
  first_labelled_value label value s g1 → first_labelled_value label value s g2 →
  g1 = g2.
Proof.
  intros Hapart (pre1 & rest1 & post1 & -> & Hat1 & Hpost1 & Hfirst1)
         (pre2 & rest2 & post2 & Heq & Hat2 & Hpost2 & Hfirst2).
  pose proof (Hfirst1 _ _ _ _ Heq Hat2) as Hle1.
  pose proof (Hfirst2 _ _ _ _ eq_refl Hat1) as Hle2.
  apply app_inj_1 in Heq as [-> ->]; [|lia].
  by eapply labelled_at_unique.
Qed.

(** The search for a labelled pattern finds the value of the first field. *)
Lemma labelled_search_first (label : pystr) (value : N → bool) (s g : pystr) :
  spaces_apart value →
  Re.search (Re.labelled is_space (Re.Lit label) value) s = Some g ↔
  first_labelled_value label value s g.
Proof.
  intros Hapart.
  assert (∀ g, Re.search (Re.labelled is_space (Re.Lit label) value) s = Some g →
               first_labelled_value label value s g) as Hsound.
  { clear g. intros g (pre & rest & a & g' & post & more & -> & Hm & -> & Hfirst)%search_first.
    apply labelled_first in Hm as (word & -> & Hat & Hpost); [|done].
    exists pre, rest, post. split_and!; try done.
    intros pre' rest' g' post' Heq (a' & -> & Hp)%labelled_at_parses.
    destruct (decide (length pre ≤ length pre')%nat) as [|Hlt]; [done|].
    pose proof (matches_complete _ _ post' _ Hp) as Hin.
    rewrite (Hfirst pre' _ Heq) in Hin by lia. by apply elem_of_nil in Hin. }
  split; [by apply Hsound|].
  intros Hg. destruct (Re.search _ s) as [g0|] eqn:Hs.
  - f_equal. eapply first_labelled_value_unique; [done| |done]. by apply Hsound.
  - destruct Hg as (pre & rest & post & -> & (a & -> & Hp)%labelled_at_parses & _).
    pose proof (matches_complete _ _ post _ Hp) as Hin.
    rewrite (search_none _ _ pre _ Hs eq_refl) in Hin. by apply elem_of_nil in Hin.
Qed.

Lemma first_labelled_value_labelled (label : pystr) (value : N → bool) (s g : pystr) :
  first_labelled_value label value s g → labelled_value label value s g.
Proof.
  intros (pre & rest & post & -> & (sp1 & c & sp2 & -> & ? & ? & ? & ? & ?) & _).
  by exists pre, sp1, c, sp2, post.
Qed.

(** ** The stages, run on a message *)

Lemma parse_classification_category (text : pystr) :
  ∃ reason,
    parse_classification text =
    Ok (match Re.search (Re.labelled is_space (Re.Lit (u "카테고리")) is_word) text with
        | Some w => PStr (str_lower w)
        | None => PNone
        end, reason).
Proof.
  unfold parse_classification.
  destruct (Re.search (Re.labelled is_space (Re.Lit (u "카테고리")) is_word) text)
    as [w|] eqn:Hw; cbn [group1 Py.truthy lower].
  - apply labelled_search_sound in Hw as (? & ? & ? & ? & ? & _ & _ & _ & _ & Hne & _).
    destruct w; [done|]. cbn. eauto.
  - cbn. eauto.
Qed.

Lemma classify_run (email : pydict) (log : list request) :
  is_message email →
  ∃ req,
    classify email log =
    (match completion (service log req) with
     | Ok text =>
       match parse_classification text with
       | Ok (category, reason) =>
         match rejected category (Py.dict_of EMAIL_CATEGORIES) with
         | Ok true =>
           Raise (Exn ValueError
                    (u "LLM 분류 실패: 유효하지 않은 카테고리 '" ++ fmt category ++
                     u "'. OpenAI API 키가 올바르게 설정되었는지 확인하세요."))
         | Ok false =>
           Ok (Py.dict_of [(u "category", category);
                           (u "confidence", PFloat (Float.literal 85 100));
                           (u "reason", PStr reason)])
         | Raise e => Raise e
         end
       | Raise e => Raise e
       end
     | Raise e => Raise (Exn ValueError (u "LLM 분류 오류: " ++ exn_msg e))
     end, log ++ [req]).
Proof.
  intros Hmsg. rewrite classify_after_llm by done.
  destruct (_classify_with_llm_run email log Hmsg) as [req ->]. exists req.
  destruct (completion _) as [text|e]; [|done].
  by destruct (parse_classification text) as [[category reason]|e].
Qed.

Lemma analyze_run (email classification : pydict) (log : list request) :
  is_message email →
  ∃ req,
    analyze email (PDict classification) log =
    (match completion (service log req) with
     | Ok text =>
       match rejected (parse_priority text).1 (Py.dict_of PRIORITY_LEVELS) with
       | Ok true =>
         Raise (Exn ValueError
                  (u "LLM 우선순위 분석 실패: 유효하지 않은 우선순위 '" ++
                   fmt (parse_priority text).1 ++
                   u "'. OpenAI API 키가 올바르게 설정되었는지 확인하세요."))
       | Ok false =>
         match _calculate_urgency_score email (parse_priority text).1 with
         | Ok urgency_score =>
           Ok (Py.dict_of [(u "priority", (parse_priority text).1);
                           (u "urgency_score", PInt urgency_score);
                           (u "factors", PList (PStr <$> (parse_priority text).2))])
         | Raise e => Raise e
         end
       | Raise e => Raise e
       end
     | Raise e => Raise (Exn ValueError (u "LLM 우선순위 분석 오류: " ++ exn_msg e))
     end, log ++ [req]).
Proof.
  intros Hmsg. rewrite analyze_after_llm by done.
  destruct (_analyze_with_llm_run email classification log Hmsg) as [req ->]. exists req.
  destruct (completion _) as [text|e]; [|done].
  by destruct (parse_priority text) as [priority factors].
Qed.

Lemma draft_response_run_message (email classification priority_analysis : pydict)
    (log : list request) :
  is_message email →
  Py.in_str_list (Py.dict_get classification (u "category") (PStr (u "work")))
                 [u "spam"; u "marketing"] = false →
  ∃ req subject,
    email !! u "subject" = Some (PStr subject) ∧
    draft_response email (PDict classification) (PDict priority_analysis) log =
    (match completion (service log req) with
     | Ok text =>
       if negb (Py.truthy (PStr (strip is_space text))) then
         Raise (Exn ValueError
                  (u "LLM 답변 생성 실패. OpenAI API 키가 올바르게 설정되었는지 확인하세요."))
       else
         Ok (Py.dict_of
               [(u "draft", PStr (strip is_space text));
                (u "tone",
                 PStr (_select_tone
                         (Py.dict_get classification (u "category") (PStr (u "work")))
                         (Py.dict_get priority_analysis (u "priority") (PStr (u "medium")))));
                (u "suggested_subject", PStr (u "Re: " ++ subject));
                (u "should_respond", PBool true);
                (u "reason", PStr drafted_reason)])
     | Raise e => Raise (Exn ValueError (u "LLM 답변 생성 오류: " ++ exn_msg e))
     end, log ++ [req]).
Proof.
  intros Hmsg Hcat. pose proof Hmsg as (subject & sender & body & Hs & Hf & Hb).
  edestruct (_generate_draft_with_llm_run email classification priority_analysis)
    as [req Hrun]; [done|].
  exists req, subject. split; [done|].
  rewrite (draft_response_run email subject) by done. cbv zeta.
  rewrite Hcat, Hrun.
  by destruct (completion _) as [text|e].
Qed.

Lemma preview_take (s : pystr) (n : nat) : preview (PStr s) n = Ok (PStr (take n s)).
Proof.
  unfold preview. simpl. destruct (_ <? _)%Z eqn:Hlen; [done|].
  apply Z.ltb_ge in Hlen. by rewrite take_ge by lia.
Qed.

Lemma is_message_insert (email : pydict) (key : pystr) (v : pyval) :
  is_message email →
  key ≠ u "subject" → key ≠ u "from" → key ≠ u "body" →
  is_message (<[key := v]> email).
Proof.
  intros (subject & sender & body & Hs & Hf & Hb) H1 H2 H3.
  exists subject, sender, body. by rewrite !lookup_insert_ne.
Qed.

Lemma is_message_new_body (email : pydict) (body : pystr) :
  is_message email → is_message (<[u "body" := PStr body]> email).
Proof.
  intros (subject & sender & body' & Hs & Hf & Hb).
  exists subject, sender, body.
  rewrite lookup_insert_eq, !lookup_insert_ne by (by vm_compute). done.
Qed.

(** X1: on a message each stage sends exactly one request to the model,
    whether it then returns or raises; [draft_response] sends none for
    the categories spam and marketing. *)
Theorem stages_send_one_request (email classification priority_analysis : pydict)
    (log : list request) :
  is_message email →
  (∃ req, (classify email log).2 = log ++ [req]) ∧
  (∃ req, (analyze email (PDict classification) log).2 = log ++ [req]) ∧
  (if Py.in_str_list (Py.dict_get classification (u "category") (PStr (u "work")))
                     [u "spam"; u "marketing"]
   then (draft_response email (PDict classification) (PDict priority_analysis) log).2 = log
   else ∃ req, (draft_response email (PDict classification) (PDict priority_analysis) log).2
               = log ++ [req]).
Proof.
  intros Hmsg. split_and!.
  - destruct (classify_run email log Hmsg) as [req ->]. by exists req.
  - destruct (analyze_run email classification log Hmsg) as [req ->]. by exists req.
  - destruct (Py.in_str_list _ _) eqn:Hcat.
    + destruct Hmsg as (subject & _ & _ & Hs & _).
      rewrite (draft_response_run email subject) by done. cbv zeta. by rewrite Hcat.
    + destruct (draft_response_run_message email classification priority_analysis log
                  Hmsg Hcat) as (req & subject & _ & ->). by exists req.
Qed.

Lemma _classify_with_llm_new_body (email : pydict) (body1 body2 : pystr)
    (log : list request) :
  email !! u "body" = Some (PStr body1) →
  take 500 body1 = take 500 body2 →
  _classify_with_llm (<[u "body" := PStr body2]> email) log = _classify_with_llm email log.
Proof.
  intros Hb Htake. unfold _classify_with_llm, Py.getitem.
  rewrite lookup_insert_eq, !lookup_insert_ne, Hb by (by vm_compute).
  rewrite !run_lift_bind. cbv beta iota. by rewrite !preview_take, Htake.
Qed.

Lemma _generate_draft_with_llm_new_body (email : pydict) (body1 body2 : pystr)
    (classification priority_analysis : pyval) (tone : pystr) (log : list request) :
  email !! u "body" = Some (PStr body1) →
  take 600 body1 = take 600 body2 →
  _generate_draft_with_llm (<[u "body" := PStr body2]> email)
                           classification priority_analysis tone log =
  _generate_draft_with_llm email classification priority_analysis tone log.
Proof.
  intros Hb Htake. unfold _generate_draft_with_llm, Py.getitem.
  rewrite lookup_insert_eq, !lookup_insert_ne, Hb by (by vm_compute).
  rewrite !run_lift_bind. cbv beta iota. by rewrite !preview_take, Htake.
Qed.

(** X2: the model sees a body only up to a fixed length: two messages
    that differ only in their bodies beyond the first 500 characters are
    classified alike, and replies to two messages that differ only beyond
    the first 600 characters are drafted alike. *)
Theorem stages_read_a_prefix_of_the_body (email : pydict) (body1 body2 : pystr)
    (classification priority_analysis : pydict) (log : list request) :
  is_message email →
  email !! u "body" = Some (PStr body1) →
  (take 500 body1 = take 500 body2 →
   classify (<[u "body" := PStr body2]> email) log = classify email log) ∧
  (take 600 body1 = take 600 body2 →
   draft_response (<[u "body" := PStr body2]> email)
                  (PDict classification) (PDict priority_analysis) log =
   draft_response email (PDict classification) (PDict priority_analysis) log).
Proof.
  intros Hmsg Hb. split; intros Htake.
  - rewrite !classify_after_llm by (done || by apply is_message_new_body).
    by rewrite (_classify_with_llm_new_body email body1 body2).
  - pose proof Hmsg as (subject & _ & _ & Hs & _).
    rewrite (draft_response_run email subject) by done.
    rewrite (draft_response_run (<[u "body" := PStr body2]> email) subject)
      by (by rewrite lookup_insert_ne by (by vm_compute)).
    cbv zeta. by rewrite (_generate_draft_with_llm_new_body email body1 body2).
Qed.

(** X3: when the call to the model fails with an exception [e], each
    stage raises a [ValueError] whose text is the stage's own prefix
    followed by the text of [e]. *)
Theorem stages_wrap_the_service_error (email classification priority_analysis : pydict)
    (log : list request) (e : exn) :
  is_message email →
  (∀ req, service log req = Failure e) →
  (classify email log).1 = Raise (Exn ValueError (u "LLM 분류 오류: " ++ exn_msg e)) ∧
  (analyze email (PDict classification) log).1 =
    Raise (Exn ValueError (u "LLM 우선순위 분석 오류: " ++ exn_msg e)) ∧
  (Py.in_str_list (Py.dict_get classification (u "category") (PStr (u "work")))
                  [u "spam"; u "marketing"] = false →
   (draft_response email (PDict classification) (PDict priority_analysis) log).1 =
     Raise (Exn ValueError (u "LLM 답변 생성 오류: " ++ exn_msg e))).
Proof.
  intros Hmsg Hfail. split_and!.
  - destruct (classify_run email log Hmsg) as [req ->]. by rewrite Hfail.
  - destruct (analyze_run email classification log Hmsg) as [req ->]. by rewrite Hfail.
  - intros Hcat.
    destruct (draft_response_run_message email classification priority_analysis log
                Hmsg Hcat) as (req & subject & _ & ->). by rewrite Hfail.
Qed.

Lemma rejected_in (s : pystr) (items : list (pystr * pyval)) :
  s ≠ [] → s ∈ items.*1 → rejected (PStr s) (Py.dict_of items) = Ok false.
Proof.
  intros Hne Hin. unfold rejected. destruct s; [done|]. simpl.
  rewrite bool_decide_eq_true_2; [done|]. by apply dict_of_is_Some.
Qed.

Lemma category_key_nonempty (s : pystr) : s ∈ EMAIL_CATEGORIES.*1 → s ≠ [].
Proof.
  intros Hin ->. revert Hin. vm_compute (EMAIL_CATEGORIES.*1).
  rewrite !elem_of_cons, elem_of_nil. naive_solver.
Qed.

Lemma priority_key_nonempty (s : pystr) : s ∈ PRIORITY_LEVELS.*1 → s ≠ [].
Proof.
  intros Hin ->. revert Hin. vm_compute (PRIORITY_LEVELS.*1).
  rewrite !elem_of_cons, elem_of_nil. naive_solver.
Qed.

(** X4: what [classify] makes of an answer. An answer without the label
    ['카테고리'] is always refused with a [ValueError]; a classification
    that is returned has exactly the keys category, confidence and reason,
    its category is the lowercased word that follows the label in the
    answer, and its confidence is always 0.85. When a space is neither a
    word character nor a colon, the word is the one at the first place of
    the answer where the label, optional spaces, a colon, optional spaces
    and a word stand, taken whole; it is the only such word, and it
    decides the outcome: [classify] returns the classification with its
    lowercase as category when that is a key of [EMAIL_CATEGORIES], and
    raises a [ValueError] when it is not, or when the answer has no such
    place. *)
Theorem classify_reads_the_labelled_category (email : pydict) (log : list request)
    (text : pystr) :
  is_message email →
  (∀ req, service log req = Content (Some text)) →
  (contains (u "카테고리") (strip is_space text) = false →
   ∃ msg, (classify email log).1 = Raise (Exn ValueError msg)) ∧
  (∀ c, (classify email log).1 = Ok c →
        ∃ word reason,
          labelled_value (u "카테고리") is_word (strip is_space text) word ∧
          c = Py.dict_of [(u "category", PStr (str_lower word));
                          (u "confidence", PFloat (Float.literal 85 100));
                          (u "reason", PStr reason)] ∧
          dom c = {[u "category"; u "confidence"; u "reason"]}) ∧
  (spaces_apart is_word →
   (∀ c, (classify email log).1 = Ok c →
         ∃ word reason,
           first_labelled_value (u "카테고리") is_word (strip is_space text) word ∧
           str_lower word ∈ EMAIL_CATEGORIES.*1 ∧
           c = Py.dict_of [(u "category", PStr (str_lower word));
                           (u "confidence", PFloat (Float.literal 85 100));
                           (u "reason", PStr reason)]) ∧
   (∀ word,
      first_labelled_value (u "카테고리") is_word (strip is_space text) word →
      (∀ other,
         first_labelled_value (u "카테고리") is_word (strip is_space text) other →
         other = word) ∧
      (str_lower word ∈ EMAIL_CATEGORIES.*1 →
       ∃ reason,
         (classify email log).1 =
         Ok (Py.dict_of [(u "category", PStr (str_lower word));
                         (u "confidence", PFloat (Float.literal 85 100));
                         (u "reason", PStr reason)])) ∧
      (str_lower word ∉ EMAIL_CATEGORIES.*1 →
       ∃ msg, (classify email log).1 = Raise (Exn ValueError msg))) ∧
   ((∀ word, ¬ first_labelled_value (u "카테고리") is_word (strip is_space text) word) →
    ∃ msg, (classify email log).1 = Raise (Exn ValueError msg))).
Proof.
  intros Hmsg Htext. destruct (classify_run email log Hmsg) as [req ->].
  rewrite Htext. cbn [completion fst].
  destruct (parse_classification_category (strip is_space text)) as [reason ->].
  set (answer := strip is_space text).
  split; [|split].
  - intros Hno. rewrite labelled_search_needs_label by done. by eexists.
  - intros c.
    destruct (Re.search _ answer) as [word|] eqn:Hword; [|done].
    destruct (rejected _ _) as [[|]|e']; try done. intros [= <-].
    exists word, reason. split; [by apply labelled_search_sound|]. split; [done|].
    rewrite dict_of_dom. simpl. set_solver.
  - intros Hapart.
    pose proof (λ g, labelled_search_first (u "카테고리") is_word answer g Hapart) as Hfirst.
    split; [|split].
    + intros c.
      destruct (Re.search _ answer) as [word|] eqn:Hword; [|done].
      destruct (rejected _ _) as [[|]|e'] eqn:Hrej; try done. intros [= <-].
      exists word, reason. split; [by apply Hfirst|]. split; [|done].
      by apply rejected_false in Hrej as (s & [= <-] & Hin).
    + intros word Hw. split; [|split].
      * intros other Ho. by apply (first_labelled_value_unique _ _ _ _ _ Hapart Ho Hw).
      * intros Hin. rewrite (proj2 (Hfirst word) Hw).
        rewrite rejected_in by (by try apply category_key_nonempty). by exists reason.
      * intros Hout. rewrite (proj2 (Hfirst word) Hw).
        rewrite rejected_true; [by eexists|by eauto|].
        intros s Hs [= Heq]. by subst s.
    + intros Hnone. destruct (Re.search _ answer) as [word|] eqn:Hword.
      * destruct (Hnone word). by apply Hfirst.
      * by eexists.
Qed.

Lemma split_on_no_sep (sep : N) (s w : pystr) : w ∈ split_on sep s → sep ∉ w.
Proof.
  revert w. induction s as [|c s IH]; intros w; simpl.
  - intros ->%list_elem_of_singleton. apply not_elem_of_nil.
  - destruct (c =? sep)%N eqn:Hc.
    + intros [->|Hin]%elem_of_cons; [apply not_elem_of_nil|by apply IH].
    + apply N.eqb_neq in Hc.
      destruct (split_on sep s) as [|w' ws] eqn:Hs.
      * intros ->%list_elem_of_singleton. intros [?|?%elem_of_nil]%elem_of_cons; congruence.
      * intros [->|Hin]%elem_of_cons.
        -- intros [?|Hin]%elem_of_cons; [congruence|]. by apply (IH w'); [left|].
        -- apply IH. by right.
Qed.

Lemma split_on_whole (sep : N) (s : pystr) : sep ∉ s → split_on sep s = [s].
Proof.
  induction s as [|c s IH]; [done|]. intros Hno. simpl.
  destruct (c =? sep)%N eqn:Hc.
  - apply N.eqb_eq in Hc. subst. destruct Hno. by left.
  - rewrite IH; [done|]. intros Hin. apply Hno. by right.
Qed.

Lemma lstrip_sublist (s : pystr) (x : N) : x ∈ lstrip is_space s → x ∈ s.
Proof.
  induction s as [|c s IH]; simpl; [done|].
  destruct (is_space c); [|done]. intros Hin. right. by apply IH.
Qed.

Lemma strip_sublist (s : pystr) (x : N) : x ∈ strip is_space s → x ∈ s.
Proof.
  unfold strip, rstrip. rewrite list_elem_of_In, <- in_rev, <- list_elem_of_In.
  intros Hin%lstrip_sublist. apply list_elem_of_In in Hin.
  apply in_rev, list_elem_of_In in Hin. by apply lstrip_sublist.
Qed.

(** X5: the factors read from the model's answer are never empty, never
    contain a comma and carry no surrounding whitespace; an answer
    without a comma gives the one stripped factor, or none when it is
    blank. *)
Theorem split_factors_are_clean (text : pystr) :
  Forall (λ f, f ≠ [] ∧ (44%N ∉ f) ∧ strip is_space f = f) (split_factors text) ∧
  (44%N ∉ text →
   split_factors text =
   if bool_decide (strip is_space text = []) then [] else [strip is_space text]).
Proof.
  split.
  - apply Forall_forall. intros f Hin. unfold split_factors in Hin.
    apply list_elem_of_omap in Hin as (w & Hw & Hf). simpl in Hf.
    destruct (strip is_space w) as [|c t] eqn:Hstrip; [done|].
    simpl in Hf. injection Hf as <-. split; [done|]. split.
    + intros Hcomma. apply (split_on_no_sep _ _ _ Hw).
      apply strip_sublist. by rewrite Hstrip.
    + by rewrite <- Hstrip, strip_idemp.
  - intros Hno. unfold split_factors. rewrite split_on_whole by done. simpl.
    destruct (strip is_space text) as [|c t]; by simpl.
Qed.

Lemma base_score_le_score (priority : pyval) (points : Z) :
  (0 ≤ points → base_score priority ≤ Z.min 10 (base_score priority + points) ≤ 10)%Z.
Proof.
  unfold base_score. repeat destruct (Py.eq_str _ _); lia.
Qed.

Lemma urgency_score_bounds (email : pydict) (priority : pystr) :
  is_message email →
  ∃ score, _calculate_urgency_score email (PStr priority) = Ok score ∧
           (base_score (PStr priority) ≤ score ≤ 10)%Z.
Proof.
  intros (subject & sender & body & Hs & Hf & Hb).
  eexists. split; [by apply (urgency_score_value email subject body)|].
  apply base_score_le_score.
  assert (∀ keyword points, (0 ≤ points → 0 ≤ keyword_points keyword points subject body)%Z)
    as Hpts.
  { intros keyword points Hpos. unfold keyword_points. by destruct (occurs _ _ _). }
  pose proof (Hpts "긴급"%string 2%Z). pose proof (Hpts "즉시"%string 2%Z).
  pose proof (Hpts "urgent"%string 2%Z). pose proof (Hpts "asap"%string 2%Z).
  pose proof (Hpts "불만"%string 1%Z). pose proof (Hpts "환불"%string 1%Z).
  pose proof (Hpts "오류"%string 1%Z). pose proof (Hpts "error"%string 1%Z).
  pose proof (Hpts "bug"%string 1%Z). lia.
Qed.

Lemma analyze_returns (email classification p : pydict) (log : list request) :
  is_message email →
  (analyze email (PDict classification) log).1 = Ok p →
  ∃ priority score factors,
    p = Py.dict_of [(u "priority", PStr priority);
                    (u "urgency_score", PInt score);
                    (u "factors", PList (PStr <$> factors))] ∧
    priority ∈ [u "high"; u "medium"; u "low"] ∧
    _calculate_urgency_score email (PStr priority) = Ok score ∧
    (base_score (PStr priority) ≤ score ≤ 10)%Z.
Proof.
  intros Hmsg. destruct (analyze_run email classification log Hmsg) as [req ->].
  cbn [fst]. destruct (completion _) as [text|e]; [|done].
  destruct (parse_priority text) as [v factors]. cbn [fst snd].
  destruct (rejected v _) as [[|]|e] eqn:Hrej; try done.
  apply rejected_false in Hrej as (priority & -> & Hin).
  destruct (urgency_score_bounds email priority Hmsg) as (score & Hscore & Hbounds).
  rewrite Hscore. intros [= <-]. by exists priority, score, factors.
Qed.

(** X6: a priority analysis that [analyze] returns for a message has
    exactly the keys priority, urgency_score and factors; the priority is
    one of high, medium, low; the score is the urgency score of the
    message for that priority, an integer between the base score of the
    priority and 10; and any record that carries the analysis is sorted
    by [sort_by_priority] under the weight of that priority and that
    score. *)
Theorem analyze_record_is_sortable (email classification p : pydict)
    (log : list request) :
  is_message email →
  (analyze email (PDict classification) log).1 = Ok p →
  ∃ priority score,
    p !! u "priority" = Some (PStr priority) ∧
    p !! u "urgency_score" = Some (PInt score) ∧
    dom p = {[u "priority"; u "urgency_score"; u "factors"]} ∧
    priority ∈ [u "high"; u "medium"; u "low"] ∧
    _calculate_urgency_score email (PStr priority) = Ok score ∧
    (base_score (PStr priority) ≤ score ≤ 10)%Z ∧
    ∀ record, sort_key (<[u "priority_analysis" := PDict p]> record) =
              Ok (weight priority, score).
Proof.
  intros Hmsg Hrun.
  destruct (analyze_returns email classification p log Hmsg Hrun)
    as (priority & score & factors & -> & Hin & Hscore & Hbounds).
  exists priority, score.
  assert (Py.dict_of [(u "priority", PStr priority); (u "urgency_score", PInt score);
                      (u "factors", PList (PStr <$> factors))] !! u "priority"
          = Some (PStr priority)) as Hp by (by dict_lookup).
  assert (Py.dict_of [(u "priority", PStr priority); (u "urgency_score", PInt score);
                      (u "factors", PList (PStr <$> factors))] !! u "urgency_score"
          = Some (PInt score)) as Hu by (by dict_lookup).
  split; [done|]. split; [done|]. split; [rewrite dict_of_dom; simpl; set_solver|].
  split; [done|]. split; [done|]. split; [done|].
  intros record. apply sort_key_analyzed. eexists. split; [apply lookup_insert_eq|done].
Qed.

(** ** Batches, sorting and statistics together *)

Lemma stage_loop_app (key : pystr) (stage : pydict → M pydict)
    (l1 l2 results : list pydict) (log : list request) :
  stage_loop key stage (l1 ++ l2) results log =
  match stage_loop key stage l1 results log with
  | (Ok results', log') => stage_loop key stage l2 results' log'
  | (Raise e, log') => (Raise e, log')
  end.
Proof.
  revert results log. induction l1 as [|email l1 IH]; intros results log; [done|].
  cbn [app stage_loop]. rewrite !run_bind.
  destruct (stage email log) as [[v|e] log1]; [apply IH|done].
Qed.

Lemma batch_classify_loop_shared (emails results : list pydict) (log : list request) :
  batch_classify_loop emails results log =
  stage_loop (u "classification") classify emails results log.
Proof.
  revert results log. induction emails as [|email rest IH]; intros results log; [done|].
  cbn [batch_classify_loop stage_loop]. rewrite !run_bind.
  destruct (classify email log) as [[v|e] log1]; [apply IH|done].
Qed.

Lemma batch_analyze_loop_shared (emails results : list pydict) (log : list request) :
  batch_analyze_loop emails results log =
  stage_loop (u "priority_analysis") analyze_record emails results log.
Proof.
  revert results log. induction emails as [|email rest IH]; intros results log; [done|].
  cbn [batch_analyze_loop stage_loop]. rewrite !run_bind. unfold analyze_record at 1.
  destruct (analyze email _ log) as [[v|e] log1]; [apply IH|done].
Qed.

Lemma batch_draft_loop_shared (emails results : list pydict) (log : list request) :
  batch_draft_loop emails results log =
  stage_loop (u "response_draft") draft_record emails results log.
Proof.
  revert results log. induction emails as [|email rest IH]; intros results log; [done|].
  cbn [batch_draft_loop stage_loop]. rewrite !run_bind. unfold draft_record at 1.
  destruct (draft_response email _ _ log) as [[v|e] log1]; [apply IH|done].
Qed.

Lemma stage_loop_aborts (key : pystr) (stage : pydict → M pydict)
    (before after out : list pydict) (email : pydict) (e : exn)
    (log log1 log2 : list request) :
  stage_loop key stage before [] log = (Ok out, log1) →
  stage email log1 = (Raise e, log2) →
  stage_loop key stage (before ++ email :: after) [] log = (Raise e, log2).
Proof.
  intros Hbefore Hfail. rewrite stage_loop_app, Hbefore.
  cbn [stage_loop]. by rewrite run_bind, Hfail.
Qed.

(** X7: a batch stops at the first record on which its stage raises: the
    exception of that record is the exception of the batch, nothing of
    the records already done is returned, and no request is sent for the
    records after it (the log is the one the failing call left). *)
Theorem batch_aborts_at_first_failure (before after out : list pydict) (email : pydict)
    (e : exn) (log log1 log2 : list request) :
  (batch_classify before log = (Ok out, log1) →
   classify email log1 = (Raise e, log2) →
   batch_classify (before ++ email :: after) log = (Raise e, log2)) ∧
  (batch_analyze before log = (Ok out, log1) →
   analyze email (Py.dict_get email (u "classification") (PDict ∅)) log1 = (Raise e, log2) →
   batch_analyze (before ++ email :: after) log = (Raise e, log2)) ∧
  (batch_draft before log = (Ok out, log1) →
   draft_response email (Py.dict_get email (u "classification") (PDict ∅))
                  (Py.dict_get email (u "priority_analysis") (PDict ∅)) log1
     = (Raise e, log2) →
   batch_draft (before ++ email :: after) log = (Raise e, log2)).
Proof.
  unfold batch_classify, batch_analyze, batch_draft. split_and!; intros Hbefore Hfail.
  - rewrite batch_classify_loop_shared in Hbefore. rewrite batch_classify_loop_shared.
    by eapply stage_loop_aborts.
  - rewrite batch_analyze_loop_shared in Hbefore. rewrite batch_analyze_loop_shared.
    by eapply stage_loop_aborts.
  - rewrite batch_draft_loop_shared in Hbefore. rewrite batch_draft_loop_shared.
    by eapply stage_loop_aborts.
Qed.

Lemma stage_loop_requests (key : pystr) (stage : pydict → M pydict) (cost : pydict → nat)
    (emails results : list pydict) (log : list request) :
  (∀ email log, email ∈ emails →
                ∃ reqs, (stage email log).2 = log ++ reqs ∧ length reqs = cost email) →
  ∃ reqs,
    (stage_loop key stage emails results log).2 = log ++ reqs ∧
    (length reqs ≤ sum_list (cost <$> emails))%nat ∧
    (is_ok (stage_loop key stage emails results log).1 = true →
     length reqs = sum_list (cost <$> emails)).
Proof.
  revert results log. induction emails as [|email rest IH]; intros results log Hcost.
  - exists []. simpl. by rewrite app_nil_r.
  - cbn [stage_loop]. rewrite run_bind.
    destruct (Hcost email log) as (reqs1 & Hlog1 & Hlen1); [by left|].
    destruct (stage email log) as [[v|e] log1]; simpl in Hlog1; subst log1.
    + destruct (IH (results ++ [<[key := PDict v]> email]) (log ++ reqs1))
        as (reqs2 & Hlog2 & Hle & Heq).
      { intros email' log' Hin. apply Hcost. by right. }
      exists (reqs1 ++ reqs2). rewrite Hlog2, length_app, Hlen1. simpl.
      change (list_fmap pydict nat cost rest) with (cost <$> rest).
      split; [by rewrite app_assoc|]. split; [lia|]. intros Hok. rewrite Heq by done. lia.
    + exists reqs1. simpl. split; [done|]. split; [lia|done].
Qed.

Lemma is_record_category (email : pydict) :
  is_record email →
  ∃ c p, Py.dict_get email (u "classification") (PDict ∅) = PDict c ∧
         Py.dict_get email (u "priority_analysis") (PDict ∅) = PDict p ∧
         wants_reply email =
         negb (Py.in_str_list (Py.dict_get c (u "category") (PStr (u "work")))
                              [u "spam"; u "marketing"]).
Proof.
  intros (Hmsg & [c Hc] & [p Hp]). exists c, p. split; [done|]. split; [done|].
  unfold wants_reply, category_of, field_value. by rewrite Hc.
Qed.

Lemma draft_record_requests (email : pydict) (log : list request) :
  is_record email →
  ∃ reqs, (draft_record email log).2 = log ++ reqs ∧
          length reqs = (if wants_reply email then 1 else 0)%nat.
Proof.
  intros Hrec. pose proof Hrec as (Hmsg & _).
  destruct (is_record_category email Hrec) as (c & p & Hc & Hp & ->).
  unfold draft_record. rewrite Hc, Hp.
  destruct (Py.in_str_list _ _) eqn:Hcat.
  - destruct Hmsg as (subject & _ & _ & Hs & _).
    rewrite (draft_response_run email subject) by done. cbv zeta. rewrite Hcat.
    exists []. by rewrite app_nil_r.
  - destruct (draft_response_run_message email c p log Hmsg Hcat)
      as (req & subject & _ & ->). by exists [req].
Qed.

Lemma sum_list_ones {A} (l : list A) : sum_list ((λ _, 1%nat) <$> l) = length l.
Proof. induction l as [|x l IH]; [done|]. rewrite fmap_cons. simpl. by rewrite IH. Qed.

Lemma sum_list_flags {A} (f : A → bool) (l : list A) :
  sum_list ((λ x, if f x then 1 else 0)%nat <$> l) = length (filter (λ x, f x = true) l).
Proof.
  induction l as [|x l IH]; [done|]. rewrite fmap_cons, filter_cons. simpl.
  destruct (decide (f x = true)) as [Hx|Hx].
  - rewrite Hx. simpl. by rewrite <- IH.
  - apply not_true_is_false in Hx. rewrite Hx. simpl. by rewrite <- IH.
Qed.

(** X8: the number of requests a batch sends. Over records of the
    pipeline, [batch_classify] and [batch_analyze] send at most one
    request per record and exactly one per record when they return;
    [batch_draft] sends at most one per record that is neither spam nor
    marketing, and exactly that many when it returns. *)
Theorem batch_request_counts (emails : list pydict) (log : list request) :
  Forall is_record emails →
  (∃ reqs, (batch_classify emails log).2 = log ++ reqs ∧
           (length reqs ≤ length emails)%nat ∧
           (is_ok (batch_classify emails log).1 = true → length reqs = length emails)) ∧
  (∃ reqs, (batch_analyze emails log).2 = log ++ reqs ∧
           (length reqs ≤ length emails)%nat ∧
           (is_ok (batch_analyze emails log).1 = true → length reqs = length emails)) ∧
  (∃ reqs, (batch_draft emails log).2 = log ++ reqs ∧
           (length reqs ≤ length (filter (λ email, wants_reply email = true) emails))%nat ∧
           (is_ok (batch_draft emails log).1 = true →
            length reqs = length (filter (λ email, wants_reply email = true) emails))).
Proof.
  intros Hrec. rewrite Forall_forall in Hrec.
  unfold batch_classify, batch_analyze, batch_draft. split_and!.
  - rewrite batch_classify_loop_shared. rewrite <- sum_list_ones.
    apply stage_loop_requests. intros email log' [Hmsg _]%Hrec.
    destruct (classify_run email log' Hmsg) as [req ->]. by exists [req].
  - rewrite batch_analyze_loop_shared. rewrite <- sum_list_ones.
    apply stage_loop_requests. intros email log' Hin.
    destruct (Hrec email Hin) as (Hmsg & [c Hc] & _). unfold analyze_record. rewrite Hc.
    destruct (analyze_run email c log' Hmsg) as [req ->]. by exists [req].
  - rewrite batch_draft_loop_shared. rewrite <- sum_list_flags.
    apply stage_loop_requests. intros email log' Hin.
    by apply draft_record_requests, Hrec.
Qed.

Lemma sorted_desc_fixed {A} (l : list ((Z * Z) * A)) :
  StronglySorted not_below l → sorted_desc l = l.
Proof.
  induction 1 as [|x l Hl IH Hx]; [done|]. simpl. rewrite IH.
  destruct l as [|y l']; [done|]. simpl.
  apply Forall_cons in Hx as [Hxy _]. unfold not_below in Hxy. by rewrite Hxy.
Qed.

Lemma with_keys_of_keyed (kl : list ((Z * Z) * pydict)) :
  Forall (λ kx, sort_key kx.2 = Ok kx.1) kl → with_keys kl.*2 = Ok kl.
Proof.
  induction 1 as [|[k x] kl Hx _ IH]; [done|]. rewrite fmap_cons.
  cbn [with_keys snd fst] in *. by rewrite Hx, IH.
Qed.

Lemma sort_by_priority_keyed (l out : list pydict) :
  sort_by_priority l = Ok out →
  ∃ keyed, with_keys l = Ok keyed ∧ out = (sorted_desc keyed).*2 ∧
           Forall (λ kx, sort_key kx.2 = Ok kx.1) (sorted_desc keyed) ∧
           out ≡ₚ l.
Proof.
  unfold sort_by_priority. destruct (with_keys l) as [keyed|e] eqn:Hk; [|done].
  intros [= <-]. exists keyed. destruct (with_keys_spec l keyed Hk) as [Hsnd Hkeys].
  split; [done|]. split; [done|]. split; [by rewrite sorted_desc_perm|].
  by rewrite sorted_desc_perm, Hsnd.
Qed.


Lemma tally_perm (read : pydict → result pyval) (s : pystr) (l1 l2 : list pydict) :
  l1 ≡ₚ l2 → tally read s l1 = tally read s l2.
Proof. intros Hperm. unfold tally. by rewrite Hperm. Qed.

Lemma count_loop_perm (field key dflt : string) (l1 l2 : list pydict)
    (stats : gmap pystr Z) :
  Forall (countable_by (field_value field key dflt)) l1 →
  l1 ≡ₚ l2 →
  count_loop (u field) (u key) (u dflt) l1 stats =
  count_loop (u field) (u key) (u dflt) l2 stats.
Proof.
  intros Hl1 Hperm.
  assert (Forall (countable_by (field_value field key dflt)) l2) as Hl2
    by by rewrite <- Hperm.
  destruct (count_loop_spec field key dflt l1 stats Hl1) as (s1 & -> & Hdom1 & Hc1).
  destruct (count_loop_spec field key dflt l2 stats Hl2) as (s2 & -> & Hdom2 & Hc2).
  f_equal. apply map_eq. intros k.
  destruct (decide (k ∈ dom stats)) as [Hin|Hout].
  - by rewrite Hc1, Hc2, (tally_perm _ _ l1 l2).
  - rewrite (proj1 (not_elem_of_dom s1 k)), (proj1 (not_elem_of_dom s2 k)); congruence.
Qed.

Lemma count_need_response_perm (l1 l2 : list pydict) :
  Forall is_drafted l1 → l1 ≡ₚ l2 →
  get_response_stats l1 = get_response_stats l2.
Proof.
  intros Hl1 Hperm.
  assert (Forall is_drafted l2) as Hl2 by by rewrite <- Hperm.
  assert (length l1 = length l2) as Hlen by by rewrite Hperm.
  assert (length (filter (λ email, responds email = true) l1) =
          length (filter (λ email, responds email = true) l2)) as Hneed
    by by rewrite Hperm.
  unfold get_response_stats. rewrite !count_need_response_spec by done.
  by rewrite Hlen, Hneed.
Qed.

Lemma count_loop_countable (field key dflt : string) (l : list pydict)
    (stats stats' : gmap pystr Z) :
  count_loop (u field) (u key) (u dflt) l stats = Ok stats' →
  Forall (countable_by (field_value field key dflt)) l.
Proof.
  revert stats. induction l as [|email l IH]; intros stats; [by constructor|].
  cbn [count_loop].
  destruct (Py.get _ (u key) _) as [v|e] eqn:Hv; [|done]. cbn [mbind result_bind].
  intros Hrun. constructor.
  - exists v. split; [exact Hv|]. destruct v; try done; simpl in Hrun; done.
  - destruct (Py.key_in v stats) as [present|e]; [|done]. cbn [mbind result_bind] in Hrun.
    destruct present, v; by eapply IH.
Qed.

Lemma count_need_response_drafted (l : list pydict) (total need : Z) :
  count_need_response l total = Ok need → Forall is_drafted l.
Proof.
  revert total. induction l as [|email l IH]; intros total; [by constructor|].
  cbn [count_need_response].
  destruct (Py.get _ _ _) as [flag|e] eqn:Hflag; [|done]. cbn [mbind result_bind].
  intros Hrun. constructor; [|by eapply IH].
  unfold is_drafted. unfold Py.dict_get in Hflag.
  by destruct (email !! u "response_draft") as [[]|].
Qed.

Lemma response_stats_drafted (l : list pydict) (stats : pydict) :
  get_response_stats l = Ok stats → Forall is_drafted l.
Proof.
  unfold get_response_stats.
  destruct (count_need_response l 0) as [need|e] eqn:Hneed; [|done].
  intros _. by eapply count_need_response_drafted.
Qed.

Lemma sort_key_countable (x : pydict) (k : Z * Z) :
  sort_key x = Ok k → countable_by priority_of x.
Proof.
  unfold sort_key, countable_by, priority_of, field_value.
  destruct (Py.get _ (u "priority") _) as [v|e]; [|done]. cbn [mbind result_bind].
  intros Hk. exists v. split; [done|]. destruct v; try done; simpl in Hk; done.
Qed.

Lemma sort_by_priority_countable (l out : list pydict) :
  sort_by_priority l = Ok out → Forall (countable_by priority_of) l.
Proof.
  intros (keyed & _ & -> & Hkeys & Hperm)%sort_by_priority_keyed.
  rewrite <- Hperm. apply Forall_fmap.
  eapply Forall_impl; [exact Hkeys|]. intros kx Hkx. simpl in *.
  by eapply sort_key_countable.
Qed.


Lemma category_stats_tally (l : list pydict) :
  Forall (countable_by category_of) l →
  ∃ stats,
    get_category_stats l = Ok stats ∧
    ∀ category,
      category ∈ [u "urgent"; u "work"; u "marketing"; u "internal"; u "spam"] →
      stats !! category = Some (tally category_of category l).
Proof.
  intros Hc. unfold get_category_stats.
  destruct (count_loop_spec "classification" "category" "work" l
              (zero_counts EMAIL_CATEGORIES) Hc) as (stats & -> & Hdom & Hcount).
  exists stats. split; [done|].
  rewrite zero_counts_categories in Hcount. intros c Hin.
  rewrite Hcount by (by rewrite dict_of_dom, elem_of_list_to_set).
  by rewrite (dict_of_zero [u "urgent"; u "work"; u "marketing"; u "internal"; u "spam"]).
Qed.

Lemma priority_stats_tally (l : list pydict) :
  Forall (countable_by priority_of) l →
  ∃ stats,
    get_priority_stats l = Ok stats ∧
    ∀ priority,
      priority ∈ [u "high"; u "medium"; u "low"] →
      stats !! priority = Some (tally priority_of priority l).
Proof.
  intros Hp. unfold get_priority_stats.
  destruct (count_loop_spec "priority_analysis" "priority" "medium" l
              (zero_counts PRIORITY_LEVELS) Hp) as (stats & -> & Hdom & Hcount).
  exists stats. split; [done|].
  rewrite zero_counts_priorities in Hcount. intros c Hin.
  rewrite Hcount by (by rewrite dict_of_dom, elem_of_list_to_set).
  by rewrite (dict_of_zero [u "high"; u "medium"; u "low"]).
Qed.

Lemma reads_once (read : pydict → result pyval) (keys : list pystr) (email : pydict) :
  NoDup keys →
  foldr (λ k total, ((if reads read k email then 1 else 0) + total)%Z) 0%Z keys =
  (if reads_one_of read keys email then 1 else 0)%Z.
Proof.
  induction 1 as [|k keys Hk _ IH]; [done|]. cbn [foldr]. rewrite IH.
  unfold reads_one_of. cbn [existsb].
  destruct (reads read k email) eqn:Hread; [|done]. cbn [orb].
  replace (existsb (λ k0, reads read k0 email) keys) with false; [done|].
  symmetry. apply not_true_iff_false. intros (k' & Hin & Hread')%existsb_exists.
  apply list_elem_of_In in Hin. unfold reads in Hread, Hread'.
  destruct (read email) as [v|e]; [|done].
  apply eq_str_true in Hread, Hread'. congruence.
Qed.

Lemma tallies_add_up (read : pydict → result pyval) (keys : list pystr)
    (l : list pydict) :
  NoDup keys →
  foldr (λ k total, (tally read k l + total)%Z) 0%Z keys =
  Z.of_nat (length (filter (λ email, reads_one_of read keys email = true) l)).
Proof.
  intros Hkeys. induction l as [|email l IH].
  - unfold tally. simpl. induction keys as [|k keys IHk]; [done|].
    simpl. rewrite IHk; [done|]. by apply NoDup_cons in Hkeys as [_ ?].
  - transitivity
      ((if reads_one_of read keys email then 1 else 0) +
       foldr (λ k total, (tally read k l + total)%Z) 0%Z keys)%Z.
    + rewrite <- (reads_once read keys email Hkeys). clear.
      induction keys as [|k keys IHk]; [done|].
      cbn [foldr]. rewrite IHk, tally_cons. lia.
    + rewrite IH, filter_cons.
      destruct (decide (reads_one_of read keys email = true)) as [->|Hno]; simpl; [lia|].
      apply not_true_is_false in Hno. rewrite Hno. lia.
Qed.

Lemma total_of_tallies (read : pydict → result pyval) (stats : gmap pystr Z)
    (keys : list pystr) (l : list pydict) :
  (∀ k, k ∈ keys → stats !! k = Some (tally read k l)) →
  total_of stats keys = foldr (λ k total, (tally read k l + total)%Z) 0%Z keys.
Proof.
  unfold total_of. induction keys as [|k keys IH]; intros Hstats; [done|].
  cbn [foldr]. rewrite Hstats by by left. simpl. rewrite IH; [done|].
  intros k' Hin. apply Hstats. by right.
Qed.

Lemma filter_all_length (P : pydict → Prop) `{∀ x, Decision (P x)} (l : list pydict) :
  Forall P l → length (filter P l) = length l.
Proof.
  induction 1 as [|x l Hx _ IH]; [done|]. rewrite filter_cons, decide_True by done.
  simpl. by rewrite IH.
Qed.

(** X11: the counts add up to the records that belong. The five category
    counts sum to the number of records whose category is one of the
    five, and the three priority counts to the number whose priority is
    one of the three: never more than the number of records, and exactly
    that number when every record belongs. *)
Theorem statistics_add_up (l : list pydict) :
  let categories := [u "urgent"; u "work"; u "marketing"; u "internal"; u "spam"] in
  let priorities := [u "high"; u "medium"; u "low"] in
  Forall (countable_by category_of) l →
  Forall (countable_by priority_of) l →
  ∃ by_category by_priority,
    get_category_stats l = Ok by_category ∧
    get_priority_stats l = Ok by_priority ∧
    total_of by_category categories =
      Z.of_nat (length (filter (λ email, reads_one_of category_of categories email = true) l)) ∧
    total_of by_priority priorities =
      Z.of_nat (length (filter (λ email, reads_one_of priority_of priorities email = true) l)) ∧
    (total_of by_category categories ≤ Z.of_nat (length l))%Z ∧
    (total_of by_priority priorities ≤ Z.of_nat (length l))%Z ∧
    (Forall (λ email, reads_one_of category_of categories email = true) l →
     total_of by_category categories = Z.of_nat (length l)) ∧
    (Forall (λ email, reads_one_of priority_of priorities email = true) l →
     total_of by_priority priorities = Z.of_nat (length l)).
Proof.
  intros categories priorities Hc Hp.
  destruct (category_stats_tally l Hc) as (by_category & Hcat & Hcounts).
  destruct (priority_stats_tally l Hp) as (by_priority & Hpri & Hpcounts).
  exists by_category, by_priority. split; [done|]. split; [done|].
  assert (NoDup categories) as Hnd1.
  { refine (bool_decide_unpack (NoDup categories) _). by vm_compute. }
  assert (NoDup priorities) as Hnd2.
  { refine (bool_decide_unpack (NoDup priorities) _). by vm_compute. }
  rewrite (total_of_tallies category_of by_category categories l) by done.
  rewrite (total_of_tallies priority_of by_priority priorities l) by done.
  rewrite !tallies_add_up by done.
  pose proof (filter_length_le (λ email, reads_one_of category_of categories email = true) l).
  pose proof (filter_length_le (λ email, reads_one_of priority_of priorities email = true) l).
  split; [done|]. split; [done|]. split; [lia|]. split; [lia|].
  split; intros Hall; by rewrite filter_all_length.
Qed.

Lemma draft_record_flag (email v : pydict) (log log' : list request) :
  is_record email →
  draft_record email log = (Ok v, log') →
  v !! u "should_respond" = Some (PBool (wants_reply email)).
Proof.
  intros Hrec. pose proof Hrec as (Hmsg & _).
  destruct (is_record_category email Hrec) as (c & p & Hc & Hp & ->).
  unfold draft_record. rewrite Hc, Hp.
  destruct (Py.in_str_list _ _) eqn:Hcat.
  - destruct Hmsg as (subject & _ & _ & Hs & _).
    rewrite (draft_response_run email subject) by done. cbv zeta. rewrite Hcat.
    intros [= <- _]. by dict_lookup.
  - destruct (draft_response_run_message email c p log Hmsg Hcat)
      as (req & subject & _ & ->).
    destruct (completion _) as [text|e]; [|done].
    destruct (negb _); [done|]. intros [= <- _]. by dict_lookup.
Qed.

Lemma drafted_records (emails added : list pydict) :
  Forall is_record emails →
  Forall2 (extended_by (u "response_draft") draft_record) emails added →
  Forall is_drafted added ∧
  length (filter (λ email, responds email = true) added) =
  length (filter (λ email, wants_reply email = true) emails).
Proof.
  intros Hrec Hall. induction Hall as [|email r emails added Hr _ IH]; [done|].
  apply Forall_cons in Hrec as [He Hrec]. destruct (IH Hrec) as [Hdrafted Hcount].
  destruct Hr as ((v & log1 & log2 & Hrun & ->) & _).
  pose proof (draft_record_flag email v log1 log2 He Hrun) as Hflag.
  assert (responds (<[u "response_draft" := PDict v]> email) = wants_reply email) as Hresp.
  { unfold responds, Py.dict_get. rewrite lookup_insert_eq. simpl.
    unfold Py.dict_get. by rewrite Hflag. }
  split.
  - constructor; [|done]. unfold is_drafted. by rewrite lookup_insert_eq.
  - rewrite !filter_cons, Hresp.
    destruct (decide (wants_reply email = true)); simpl; by rewrite Hcount.
Qed.

(** X12: the statistics of a drafted batch. When [batch_draft] returns
    on records of the pipeline, [get_response_stats] of its result counts
    every record as total, as needing a response exactly those whose
    category is neither spam nor marketing, and the rest as needing none;
    and the number needing a response is the number of requests the batch
    sent. *)
Theorem drafted_batch_statistics (emails out : list pydict) (log log' : list request) :
  Forall is_record emails →
  batch_draft emails log = (Ok out, log') →
  ∃ (stats : pydict) (reqs : list request),
    let need := Z.of_nat (length (filter (λ email, wants_reply email = true) emails)) in
    get_response_stats out = Ok stats ∧
    stats !! u "total" = Some (PInt (Z.of_nat (length emails))) ∧
    stats !! u "need_response" = Some (PInt need) ∧
    stats !! u "no_response" = Some (PInt (Z.of_nat (length emails) - need)) ∧
    log' = log ++ reqs ∧
    Z.of_nat (length reqs) = need.
Proof.
  intros Hrec Hrun. pose proof Hrun as Hrun'. unfold batch_draft in Hrun.
  apply batch_draft_loop_spec in Hrun as (added & -> & Hall). rewrite app_nil_l.
  destruct (drafted_records emails added Hrec Hall) as [Hdrafted Hcount].
  pose proof (Forall2_length _ _ _ Hall) as Hlen.
  assert (∃ reqs, log' = log ++ reqs ∧
                  length reqs = length (filter (λ email, wants_reply email = true) emails))
    as (reqs & -> & Hreqs).
  { unfold batch_draft in Hrun'. rewrite batch_draft_loop_shared in Hrun'.
    destruct (stage_loop_requests (u "response_draft") draft_record
                (λ email, if wants_reply email then 1 else 0)%nat emails [] log)
      as (reqs & Hlog & _ & Heq).
    { intros email log1 Hin. apply draft_record_requests.
      rewrite Forall_forall in Hrec. by apply Hrec. }
    rewrite Hrun' in Hlog, Heq. simpl in Hlog, Heq.
    exists reqs. split; [done|]. rewrite Heq by done. apply sum_list_flags. }
  unfold get_response_stats. rewrite count_need_response_spec by done.
  cbn [mbind result_bind]. rewrite Z.add_0_l, Hcount, <- Hlen.
  eexists _, reqs. cbv zeta. split; [done|].
  split; [by dict_lookup|]. split; [by dict_lookup|]. split; [by dict_lookup|].
  split; [done|]. by rewrite Hreqs.
Qed.

Lemma lacks_cases (email : pydict) (field : pystr) :
  lacks email field →
  (field = u "subject" ∧ email !! u "subject" = None) ∨
  (∃ subject, email !! u "subject" = Some (PStr subject) ∧
     ((field = u "body" ∧ email !! u "body" = None) ∨
      (∃ body, email !! u "body" = Some (PStr body) ∧
               field = u "from" ∧ email !! u "from" = None))).
Proof.
  intros (Hin & Hnone & Hrest).
  assert (u "subject" ≠ u "from" ∧ u "subject" ≠ u "body" ∧ u "from" ≠ u "body")
    as (H1 & H2 & H3) by (split_and!; by vm_compute).
  rewrite !elem_of_cons, elem_of_nil in Hin. destruct Hin as [->|[->|[->|[]]]].
  - by left.
  - right. destruct (Hrest (u "subject")) as [s Hs]; [set_solver|done|].
    destruct (Hrest (u "body")) as [b Hb]; [set_solver|done|]. eauto 10.
  - right. destruct (Hrest (u "subject")) as [s Hs]; [set_solver|done|]. eauto 10.
Qed.

(** X13: a record without one of the fields is a [KeyError], not a
    service error. When a record lacks ['subject'], ['from'] or ['body']
    (the other two being strings), [classify] and [analyze] raise
    [KeyError] for that key without sending a request, and so does
    [draft_response] unless the category is spam or marketing; for those
    two categories only a missing subject is noticed, and the no-reply
    result is returned otherwise. *)
Theorem missing_field_is_a_key_error (email classification priority_analysis : pydict)
    (field : pystr) (log : list request) :
  lacks email field →
  let category := Py.dict_get classification (u "category") (PStr (u "work")) in
  classify email log = (Raise (key_error field), log) ∧
  analyze email (PDict classification) log = (Raise (key_error field), log) ∧
  draft_response email (PDict classification) (PDict priority_analysis) log =
    (if Py.in_str_list category [u "spam"; u "marketing"] &&
        negb (bool_decide (field = u "subject"))
     then Ok (Py.dict_of [(u "draft", PNone); (u "tone", PNone);
                          (u "suggested_subject", PNone);
                          (u "should_respond", PBool false);
                          (u "reason", PStr no_reply_reason)])
     else Raise (key_error field), log).
Proof.
  intros Hlacks category.
  assert (u "body" ≠ u "subject" ∧ u "from" ≠ u "subject") as (Hbs & Hfs)
    by (split; by vm_compute).
  destruct (lacks_cases email field Hlacks)
    as [[-> Hs]|(subject & Hs & [[-> Hb]|(body & Hb & -> & Hf)])].
  - unfold classify, analyze, draft_response, Py.getitem. rewrite Hs.
    rewrite !run_lift_bind. rewrite bool_decide_true, andb_false_r by done. done.
  - rewrite bool_decide_false by done. rewrite andb_true_r.
    split_and!.
    + unfold classify, Py.getitem. rewrite Hs. run_step.
      cbn [Py.slice_to]. run_step. rewrite run_bind. cbn [print mret M_ret].
      rewrite run_bind. unfold _classify_with_llm, Py.getitem. rewrite Hb. by run_step.
    + unfold analyze, Py.getitem. rewrite Hs. run_step.
      cbn [Py.slice_to]. run_step. rewrite run_bind. cbn [print mret M_ret].
      rewrite run_bind. unfold _analyze_with_llm, Py.getitem. rewrite Hb. by run_step.
    + rewrite (draft_response_run email subject) by done. cbv zeta. fold category.
      destruct (Py.in_str_list category _); [done|].
      unfold _generate_draft_with_llm, Py.getitem. rewrite Hb. by run_step.
  - rewrite bool_decide_false by done. rewrite andb_true_r.
    split_and!.
    + unfold classify, Py.getitem. rewrite Hs. run_step.
      cbn [Py.slice_to]. run_step. rewrite run_bind. cbn [print mret M_ret].
      rewrite run_bind. unfold _classify_with_llm, Py.getitem. rewrite Hb, Hf. run_step.
      destruct (preview_str body 500) as [body' ->]. run_step. by run_step.
    + unfold analyze, Py.getitem. rewrite Hs. run_step.
      cbn [Py.slice_to]. run_step. rewrite run_bind. cbn [print mret M_ret].
      rewrite run_bind. unfold _analyze_with_llm, Py.getitem. rewrite Hb, Hf. run_step.
      destruct (preview_str body 400) as [body' ->]. run_step.
      cbn [Py.get]. run_step. by run_step.
    + rewrite (draft_response_run email subject) by done. cbv zeta. fold category.
      destruct (Py.in_str_list category _); [done|].
      unfold _generate_draft_with_llm, Py.getitem. rewrite Hb, Hf. run_step.
      destruct (preview_str body 600) as [body' ->]. run_step.
      cbn [Py.get]. run_step. run_step. by run_step.
Qed.

Lemma completion_stripped (r : response) (text : pystr) :
  completion r = Ok text → strip is_space text = text.
Proof.
  destruct r as [[raw|]|e]; simpl; try done. intros [= <-]. apply strip_idemp.
Qed.

Lemma example_messages_length (examples : list (pystr * pystr)) :
  length (example_messages examples) = (2 * length examples)%nat.
Proof.
  unfold example_messages. induction examples as [|[a b] examples IH]; [done|].
  simpl in *. rewrite IH. lia.
Qed.

(** X14: what the handler sends and returns. [generate_with_examples]
    sends one request whose messages are a user and an assistant message
    per example, in order, and the prompt as the last user message, so
    [2 * n + 1] of them; [generate] sends the prompt alone when the system
    prompt is absent or empty, and is then the same computation as
    [generate_with_examples] without examples. Both leave exactly one
    request in the log whatever the service does, return a text that is
    already stripped, and pass a failure of the service on unchanged. *)
Theorem handler_sends_one_request (prompt : pystr) (examples : list (pystr * pystr))
    (system_prompt : option pystr) (max_tokens : Z) (temperature : spec_float)
    (log : list request) :
  ∃ req1 req2,
    (generate prompt max_tokens temperature system_prompt log).2 = log ++ [req1] ∧
    (generate_with_examples prompt examples max_tokens temperature log).2 = log ++ [req2] ∧
    req_messages req1 =
      match system_prompt with
      | Some (c :: sp) => [(u "system", c :: sp); (u "user", prompt)]
      | _ => [(u "user", prompt)]
      end ∧
    length (req_messages req2) = (2 * length examples + 1)%nat ∧
    last (req_messages req2) = Some (u "user", prompt) ∧
    (∀ i user_example assistant_example,
       examples !! i = Some (user_example, assistant_example) →
       req_messages req2 !! (2 * i)%nat = Some (u "user", user_example) ∧
       req_messages req2 !! (2 * i + 1)%nat = Some (u "assistant", assistant_example)) ∧
    (∀ text, (generate prompt max_tokens temperature system_prompt log).1 = Ok text →
             strip is_space text = text) ∧
    (∀ text, (generate_with_examples prompt examples max_tokens temperature log).1 = Ok text →
             strip is_space text = text) ∧
    (∀ e, service log req1 = Failure e →
          (generate prompt max_tokens temperature system_prompt log).1 = Raise e) ∧
    (∀ e, service log req2 = Failure e →
          (generate_with_examples prompt examples max_tokens temperature log).1 = Raise e) ∧
    (generate prompt max_tokens temperature None =
     generate_with_examples prompt [] max_tokens temperature) ∧
    (generate prompt max_tokens temperature (Some []) =
     generate_with_examples prompt [] max_tokens temperature).
Proof.
  rewrite generate_run, generate_with_examples_run. cbv zeta.
  eexists _, _. split; [done|]. split; [done|]. cbn [req_messages fst snd].
  split_and!.
  - unfold chat_messages. by destruct system_prompt as [[|c sp]|].
  - rewrite length_app, example_messages_length. simpl. lia.
  - by rewrite last_snoc.
  - intros i a b Hi. unfold example_messages.
    revert i Hi. induction examples as [|[a' b'] examples IH]; intros i Hi; [done|].
    destruct i as [|i].
    + by injection Hi as -> ->.
    + replace (2 * S i)%nat with (S (S (2 * i))) by lia.
      replace (S (S (2 * i)) + 1)%nat with (S (S (2 * i + 1))) by lia.
      apply (IH i Hi).
  - intros text. apply completion_stripped.
  - intros text. apply completion_stripped.
  - by intros e ->.
  - by intros e ->.
  - done.
  - done.
Qed.

(** ** The readers of the [From] field *)

Lemma strip_fixed (p : N → bool) (s : pystr) :
  (∀ c, head s = Some c ∨ last s = Some c → p c = false) → strip p s = s.
Proof.
  intros Hends. destruct s as [|c s]; [done|]. unfold strip, rstrip. cbn [lstrip].
  rewrite (Hends c) by by left.
  destruct (rev (c :: s)) as [|d r] eqn:Hrev.
  { simpl in Hrev. by destruct (rev s). }
  assert (c :: s = rev r ++ [d]) as Hs.
  { by rewrite <- (rev_involutive (c :: s)), Hrev. }
  cbn [lstrip]. rewrite (Hends d); [|right; by rewrite Hs, last_snoc].
  by rewrite <- Hrev, rev_involutive.
Qed.

Lemma lstrip_app_keep (p : N → bool) (s t : pystr) :
  lstrip p s ≠ [] → lstrip p (s ++ t) = lstrip p s ++ t.
Proof.
  induction s as [|c s IH]; [done|]. simpl. destruct (p c); [apply IH|done].
Qed.

Lemma strip_snoc_space (p : N → bool) (s : pystr) (c : N) :
  p c = true → lstrip p s ≠ [] → strip p (s ++ [c]) = strip p s.
Proof.
  intros Hc Hs. unfold strip, rstrip. rewrite lstrip_app_keep by done.
  rewrite rev_app_distr. simpl. by rewrite Hc.
Qed.

Lemma runs_head (p : N → bool) (a b : pystr) :
  Forall (λ c, p c = true) a → (∀ c, head b = Some c → p c = false) →
  ∃ more, Re.runs p (a ++ b) = (a, b) :: more.
Proof.
  intros Ha Hb. induction Ha as [|x a Hx _ [more IH]]; simpl.
  - destruct b as [|c t]; [by exists []|]. simpl. rewrite (Hb c) by done. by exists [].
  - rewrite Hx, IH. simpl. eauto.
Qed.

Lemma name_match (name rest : pystr) :
  name ≠ [] → 60%N ∉ name → (∀ c, head rest = Some c → c = 60%N) →
  ∃ more,
    Re.matches (Re.Group (Re.Plus (λ c, negb (c =? 60)%N))) (name ++ rest) =
    (name, Some name, rest) :: more.
Proof.
  intros Hne Hno Hrest.
  destruct (runs_head (λ c, negb (c =? 60)%N) name rest) as [more Hruns].
  - apply Forall_forall. intros c Hc. apply negb_true_iff, N.eqb_neq. by intros ->.
  - intros c ->%Hrest. done.
  - cbn [Re.matches]. rewrite Hruns, filter_cons_True by done. simpl. eauto.
Qed.

Lemma lazy_runs_sound (p : N → bool) (s a b : pystr) :
  (a, b) ∈ lazy_runs p s → s = a ++ b ∧ a ≠ [] ∧ Forall (λ c, p c = true) a.
Proof.
  revert a b. induction s as [|c s IH]; intros a b; simpl.
  - by intros ?%elem_of_nil.
  - destruct (p c) eqn:Hc; [|by intros ?%elem_of_nil].
    rewrite elem_of_cons, list_elem_of_fmap. intros [Heq|([a' b'] & Heq & Hin)].
    + injection Heq as -> ->. split; [done|]. split; [done|]. by constructor.
    + injection Heq as -> ->. destruct (IH _ _ Hin) as (-> & _ & Hall).
      split; [done|]. split; [done|]. by constructor.
Qed.

Lemma close_match (s : pystr) :
  Re.matches (Re.Lit (u ">")) s =
  match s with
  | c :: post => if (62 =? c)%N then [(u ">", None, post)] else []
  | [] => []
  end.
Proof.
  cbn [Re.matches]. change (u ">") with [62%N].
  destruct s as [|c post]; [done|]. simpl. rewrite andb_true_r.
  by destruct (62 =? c)%N.
Qed.

Lemma open_match (s : pystr) :
  Re.matches (Re.Lit (u "<")) s =
  match s with
  | c :: post => if (60 =? c)%N then [(u "<", None, post)] else []
  | [] => []
  end.
Proof.
  cbn [Re.matches]. change (u "<") with [60%N].
  destruct s as [|c post]; [done|]. simpl. rewrite andb_true_r.
  by destruct (60 =? c)%N.
Qed.

Lemma lazy_until_close_sound (s g : pystr) :
  g ∈ lazy_until_close s →
  ∃ post, s = g ++ 62%N :: post ∧ g ≠ [] ∧ 10%N ∉ g.
Proof.
  unfold lazy_until_close. rewrite list_elem_of_In, in_flat_map.
  intros ([a rest] & Hin & Hg). apply list_elem_of_In in Hin.
  apply lazy_runs_sound in Hin as (-> & Hne & Hdot).
  rewrite close_match in Hg. destruct rest as [|c post]; [done|].
  destruct (62 =? c)%N eqn:Hc; [|done]. apply N.eqb_eq in Hc as <-.
  destruct Hg as [<-|[]]. exists post. split; [done|]. split; [done|].
  intros Hnl. rewrite Forall_forall in Hdot. by specialize (Hdot _ Hnl).
Qed.

Lemma angle_search_sound (s g : pystr) :
  angle_search s = Some g →
  ∃ pre post, s = pre ++ 60%N :: g ++ 62%N :: post ∧ g ≠ [] ∧ 10%N ∉ g.
Proof.
  assert (∀ s g more, angle_matches s = g :: more →
            ∃ post, s = 60%N :: g ++ 62%N :: post ∧ g ≠ [] ∧ 10%N ∉ g) as Hat.
  { clear. intros s g more. unfold angle_matches. rewrite open_match.
    destruct s as [|c rest]; [done|]. destruct (60 =? c)%N eqn:Hc; [|done].
    apply N.eqb_eq in Hc as <-. simpl. rewrite app_nil_r. intros Hm.
    destruct (lazy_until_close_sound rest g) as (post & -> & ?); [rewrite Hm; by left|].
    by exists post. }
  induction s as [|c s IH]; [by vm_compute|]. cbn [angle_search].
  destruct (angle_matches (c :: s)) as [|g' more] eqn:Hm.
  - intros (pre & post & -> & ?)%IH. by exists (c :: pre), post.
  - intros [= ->]. destruct (Hat _ _ _ Hm) as (post & -> & ?). by exists [], post.
Qed.

Lemma lazy_until_close_hit (c : N) (address post : pystr) :
  c ≠ 10%N → 10%N ∉ address → 62%N ∉ address →
  ∃ more, lazy_until_close (c :: address ++ 62%N :: post) = (c :: address) :: more.
Proof.
  revert c. induction address as [|d address IH]; intros c Hc Hnl Hgt.
  - unfold lazy_until_close. cbn [app lazy_runs].
    replace (Re.dot c) with true by (symmetry; by apply negb_true_iff, N.eqb_neq).
    cbn [flat_map]. rewrite close_match. simpl. eauto.
  - destruct (IH d) as [more Hmore].
    { intros ->. apply Hnl. by left. }
    { intros Hin. apply Hnl. by right. }
    { intros Hin. apply Hgt. by right. }
    unfold lazy_until_close in *.
    change (c :: (d :: address) ++ 62%N :: post) with (c :: d :: address ++ 62%N :: post).
    set (tail := d :: address ++ 62%N :: post) in *.
    assert (∀ l,
      flat_map (λ '(a, rest), map (λ _, a) (Re.matches (Re.Lit (u ">")) rest))
               (map (λ '(a, b), (c :: a, b)) l) =
      map (cons c)
          (flat_map (λ '(a, rest), map (λ _, a) (Re.matches (Re.Lit (u ">")) rest)) l))
      as Hmap.
    { clear. induction l as [|[a b] l IH]; [done|]. cbn [map flat_map].
      rewrite IH, map_app, map_map. done. }
    cbn [lazy_runs].
    replace (Re.dot c) with true by (symmetry; by apply negb_true_iff, N.eqb_neq).
    cbn [flat_map]. rewrite Hmap, Hmore, close_match. subst tail. cbv iota.
    replace (62 =? d)%N with false
      by (symmetry; apply N.eqb_neq; intros <-; apply Hgt; by left).
    simpl. eauto.
Qed.

Lemma angle_search_skip (pre s : pystr) :
  60%N ∉ pre → angle_search (pre ++ s) = angle_search s.
Proof.
  induction pre as [|c pre IH]; [done|]. intros Hno.
  cbn [app angle_search]. unfold angle_matches at 1. rewrite open_match.
  replace (60 =? c)%N with false
    by (symmetry; apply N.eqb_neq; intros <-; apply Hno; by left).
  cbn [flat_map]. apply IH. intros Hin. apply Hno. by right.
Qed.

Lemma get_sender_email_bracketed (pre address post : pystr) :
  60%N ∉ pre → bare_address address →
  get_sender_email (pre ++ u "<" ++ address ++ u ">" ++ post) = address.
Proof.
  intros Hpre (Hne & Hnl & Hgt). unfold get_sender_email.
  rewrite angle_search_skip by done.
  change (u "<") with [60%N]. change (u ">") with [62%N].
  destruct address as [|c address]; [done|].
  destruct (lazy_until_close_hit c address post) as [more Hhit].
  { intros ->. apply Hnl. by left. }
  { intros Hin. apply Hnl. by right. }
  { intros Hin. apply Hgt. by right. }
  cbn [app angle_search]. unfold angle_matches. rewrite open_match.
  cbn [N.eqb Pos.eqb flat_map]. rewrite app_nil_r.
  cbn [app] in Hhit. by rewrite Hhit.
Qed.

(** X15: the two readers take a [From] field apart. For a display name
    (not empty, no ['<'], no whitespace or quote at its ends) and an
    address (not empty, one line, no ['>']), the field
    [name <address>] gives back the address and the name, and so does the
    field with the name in double quotes. *)
Theorem sender_round_trip (name address : pystr) :
  is_space 32%N = true → is_space 34%N = false →
  bare_name name → bare_address address →
  let plain := name ++ u " <" ++ address ++ u ">" in
  let dquoted := [34%N] ++ name ++ [34%N] ++ u " <" ++ address ++ u ">" in
  get_sender_email plain = address ∧ get_sender_name plain = name ∧
  get_sender_email dquoted = address ∧ get_sender_name dquoted = name.
Proof.
  intros Hsp Hq (Hne & Hlt & Hends) Haddr plain dquoted.
  assert (strip is_space name = name) as Hstrip.
  { apply strip_fixed. intros c Hc. by apply Hends. }
  assert (strip (λ c, (c =? 34)%N) name = name) as Hunquote.
  { apply strip_fixed. intros c Hc. apply N.eqb_neq. by apply Hends. }
  assert (lstrip is_space name ≠ []) as Hl.
  { destruct name as [|c t]; [done|]. simpl. by rewrite (proj1 (Hends c (or_introl eq_refl))). }
  split_and!.
  - subst plain. change (u " <") with ([32%N] ++ u "<").
    rewrite <- (app_nil_r (u ">")), <- !app_assoc, (app_assoc name).
    apply get_sender_email_bracketed; [|done].
    rewrite elem_of_app, list_elem_of_singleton. by intros [?|?].
  - subst plain. unfold get_sender_name. change (u " <") with ([32%N] ++ u "<").
    rewrite <- !app_assoc, (app_assoc name).
    destruct (name_match (name ++ [32%N]) (u "<" ++ address ++ u ">")) as [more ->].
    + by destruct name.
    + rewrite elem_of_app, list_elem_of_singleton. by intros [?|?].
    + intros c. change (u "<") with [60%N]. simpl. by intros [= <-].
    + cbn [default from_option id]. by rewrite strip_snoc_space, Hstrip.
  - subst dquoted. change (u " <") with ([32%N] ++ u "<").
    rewrite <- (app_nil_r (u ">")), <- !app_assoc.
    rewrite (app_assoc [34%N]), (app_assoc _ [34%N]), (app_assoc _ [32%N]).
    apply get_sender_email_bracketed; [|done].
    rewrite !elem_of_app, !list_elem_of_singleton. by intros [[[?|?]|?]|?].
  - subst dquoted. unfold get_sender_name. change (u " <") with ([32%N] ++ u "<").
    rewrite <- !app_assoc.
    rewrite (app_assoc [34%N]), (app_assoc _ [34%N]), (app_assoc _ [32%N]).
    destruct (name_match ((([34%N] ++ name) ++ [34%N]) ++ [32%N])
                (u "<" ++ address ++ u ">")) as [more ->].
    + done.
    + rewrite !elem_of_app, !list_elem_of_singleton. by intros [[[?|?]|?]|?].
    + intros c. change (u "<") with [60%N]. simpl. by intros [= <-].
    + cbn [default from_option id]. rewrite strip_snoc_space; [|done|by simpl; rewrite Hq].
      rewrite (strip_fixed is_space).
      2:{ intros c [Hc|Hc].
          - simpl in Hc. by injection Hc as <-.
          - rewrite last_snoc in Hc. by injection Hc as <-. }
      unfold strip, rstrip. cbn [app lstrip N.eqb Pos.eqb].
      rewrite lstrip_app_keep.
      2:{ destruct name as [|c t]; [done|]. simpl.
          destruct (Hends c (or_introl eq_refl)) as [_ Hc].
          apply N.eqb_neq in Hc. by rewrite Hc. }
      rewrite rev_app_distr. cbn [rev app lstrip N.eqb Pos.eqb].
      fold (rstrip (λ c, (c =? 34)%N) (lstrip (λ c, (c =? 34)%N) name)).
      apply Hunquote.
Qed.

Lemma lstrip_blank (p : N → bool) (s : pystr) :
  Forall (λ c, p c = true) s → lstrip p s = [].
Proof. induction 1 as [|c s Hc _ IH]; [done|]. simpl. by rewrite Hc. Qed.


(** ** Reading a message *)

Lemma get_header_loop_skips (name : pystr) (before rest : list pyval) :
  Forall (other_header name) before →
  _get_header_loop (before ++ rest) name = _get_header_loop rest name.
Proof.
  induction 1 as [|header before (d & n & -> & Hn & Hne) _ IH]; [done|].
  cbn [app _get_header_loop Py.subscript]. unfold Py.getitem. rewrite Hn.
  cbn [mbind result_bind lower]. by rewrite bool_decide_false.
Qed.

(** X17: [_get_header] returns the value of the first header whose name
    is the one asked for, case being ignored; the headers after it are
    not looked at, whatever they are, and the empty string is returned
    when no header has the name. Names that are equal once lowercased
    give the same result. *)
Theorem get_header_first_match (name : pystr) (before after : list pyval)
    (header value : pyval) :
  Forall (other_header name) before →
  (header_named name header value →
   _get_header (PList (before ++ header :: after)) name = Ok value) ∧
  _get_header (PList before) name = Ok (PStr []) ∧
  (∀ name' headers, str_lower name' = str_lower name →
                    _get_header headers name' = _get_header headers name).
Proof.
  intros Hbefore. split_and!.
  - intros (d & n & -> & Hn & Heq & Hv). unfold _get_header. cbn [Py.iterate mbind result_bind].
    rewrite get_header_loop_skips by done.
    cbn [_get_header_loop Py.subscript]. unfold Py.getitem. rewrite Hn, Hv.
    cbn [mbind result_bind lower]. by rewrite bool_decide_true.
  - unfold _get_header. cbn [Py.iterate mbind result_bind].
    rewrite <- (app_nil_r before). by rewrite get_header_loop_skips.
  - intros name' headers Heq. unfold _get_header.
    destruct (Py.iterate headers) as [items|e]; [|done]. cbn [mbind result_bind].
    induction items as [|item items IH]; [done|].
    cbn [_get_header_loop]. by rewrite Heq, IH.
Qed.

Lemma pair_induction {A} (P : list A → Prop) :
  P [] → (∀ c, P [c]) → (∀ c d s, P s → P (d :: s) → P (c :: d :: s)) → ∀ s, P s.
Proof.
  intros H0 H1 H2 s. assert (P s ∧ ∀ c, P (c :: s)) as [? _]; [|done].
  induction s as [|d s [IH1 IH2]]; [by split|].
  split; [apply IH2|]. intros c. apply H2; [done|apply IH2].
Qed.

Lemma splitlines_step (c d : N) (s : pystr) :
  splitlines (c :: d :: s) =
  if line_break c then
    [] :: (if ((c =? 13) && (d =? 10))%N then splitlines s else splitlines (d :: s))
  else match splitlines (d :: s) with
       | line :: lines => (c :: line) :: lines
       | [] => [[c]]
       end.
Proof. reflexivity. Qed.

Lemma splitlines_one (c : N) :
  splitlines [c] = if line_break c then [[]] else [[c]].
Proof. reflexivity. Qed.

Lemma split_on2_step (a b c d : N) (s : pystr) :
  split_on2 a b (c :: d :: s) =
  if ((c =? a) && (d =? b))%N then [] :: split_on2 a b s
  else match split_on2 a b (d :: s) with
       | w :: ws => (c :: w) :: ws
       | [] => [[c]]
       end.
Proof. reflexivity. Qed.

Lemma splitlines_Forall (P : N → Prop) (s : pystr) :
  Forall P s → Forall (Forall P) (splitlines s).
Proof.
  induction s as [| c | c d s IH1 IH2] using pair_induction; intros Hs.
  - constructor.
  - apply Forall_cons in Hs as [Hc _].
    rewrite splitlines_one. destruct (line_break c); by repeat constructor.
  - rewrite splitlines_step.
    apply Forall_cons in Hs as [Hc Hs]. pose proof Hs as [Hd Hs']%Forall_cons.
    destruct (line_break c).
    + constructor; [done|]. destruct (_ && _); auto.
    + specialize (IH2 Hs). destruct (splitlines (d :: s)) as [|line lines].
      * by repeat constructor.
      * apply Forall_cons in IH2 as [Hline Hlines]. by repeat constructor.
Qed.

Lemma splitlines_no_break (s : pystr) :
  Forall (Forall (λ c, line_break c = false)) (splitlines s).
Proof.
  induction s as [| c | c d s IH1 IH2] using pair_induction.
  - constructor.
  - rewrite splitlines_one. destruct (line_break c) eqn:Hc; by repeat constructor.
  - rewrite splitlines_step. destruct (line_break c) eqn:Hc.
    + constructor; [done|]. by destruct (_ && _).
    + destruct (splitlines (d :: s)) as [|line lines].
      * by repeat constructor.
      * apply Forall_cons in IH2 as [Hline Hlines]. by repeat constructor.
Qed.

Lemma split_on2_Forall (P : N → Prop) (a b : N) (s : pystr) :
  Forall P s → Forall (Forall P) (split_on2 a b s).
Proof.
  induction s as [| c | c d s IH1 IH2] using pair_induction; intros Hs.
  - by repeat constructor.
  - apply Forall_cons in Hs as [Hc _]. by repeat constructor.
  - rewrite split_on2_step.
    apply Forall_cons in Hs as [Hc Hs]. pose proof Hs as [Hd Hs']%Forall_cons.
    destruct (_ && _).
    + constructor; [done|]. auto.
    + specialize (IH2 Hs). destruct (split_on2 a b (d :: s)) as [|w ws].
      * by repeat constructor.
      * apply Forall_cons in IH2 as [Hw Hws]. by repeat constructor.
Qed.

Lemma split_on2_head (a b : N) (s w : pystr) (ws : list pystr) :
  split_on2 a b s = w :: ws → w = [] ∨ head w = head s.
Proof.
  destruct s as [|c [|d s]].
  - intros [= <- <-]. by left.
  - intros [= <- <-]. by right.
  - rewrite split_on2_step. destruct (_ && _).
    + intros [= <- <-]. by left.
    + destruct (split_on2 a b (d :: s)); intros [= <- <-]; by right.
Qed.

Lemma split_on2_no_pair (a b : N) (s : pystr) :
  Forall (λ w, has_pair a b w = false) (split_on2 a b s).
Proof.
  induction s as [| c | c d s IH1 IH2] using pair_induction.
  - by repeat constructor.
  - by repeat constructor.
  - rewrite split_on2_step. destruct (_ && _) eqn:Hsep.
    + by constructor.
    + destruct (split_on2 a b (d :: s)) as [|w ws] eqn:Hsplit.
      * by repeat constructor.
      * apply Forall_cons in IH2 as [Hw Hws]. constructor; [|done].
        destruct (split_on2_head _ _ _ _ _ Hsplit) as [->|Hhead]; [done|].
        destruct w as [|d' w]; [done|]. simpl in Hhead. injection Hhead as ->.
        cbn [has_pair]. cbn [has_pair] in Hw. by rewrite Hsep, Hw.
Qed.

Lemma has_pair_app_inv (a b : N) (x y : pystr) :
  has_pair a b (x ++ y) = false → has_pair a b x = false ∧ has_pair a b y = false.
Proof.
  induction x as [|c x IH]; [done|]. destruct x as [|d x].
  - simpl. destruct y as [|d y]; [done|]. intros [_ ?]%orb_false_iff. done.
  - change ((c :: d :: x) ++ y) with (c :: d :: (x ++ y)). cbn [has_pair].
    intros [Hcd Hrest]%orb_false_iff. destruct (IH Hrest) as [Hx Hy].
    split; [|done]. cbn [has_pair] in Hx. by rewrite Hcd, Hx.
Qed.

Lemma has_pair_app (a b : N) (x y : pystr) :
  has_pair a b x = false → has_pair a b y = false →
  (∀ c d, last x = Some c → head y = Some d → ((c =? a) && (d =? b))%N = false) →
  has_pair a b (x ++ y) = false.
Proof.
  intros Hx Hy Hjoin. induction x as [|c x IH]; [done|]. destruct x as [|d x].
  - simpl. destruct y as [|d y]; [done|]. simpl in Hy |- *.
    rewrite (Hjoin c d) by done. done.
  - change ((c :: d :: x) ++ y) with (c :: d :: (x ++ y)). cbn [has_pair].
    cbn [has_pair] in Hx. apply orb_false_iff in Hx as [Hcd Hx].
    rewrite Hcd. apply IH; [done|]. intros c' d' Hlast. apply Hjoin.
    by rewrite last_cons_cons.
Qed.

Lemma contains_pair (a b : N) (s : pystr) : contains [a; b] s = has_pair a b s.
Proof.
  induction s as [|c s IH]; [done|]. cbn [contains]. rewrite IH.
  destruct s as [|d s]; simpl.
  - by rewrite andb_false_r.
  - rewrite andb_true_r. by rewrite (N.eqb_sym a c), (N.eqb_sym b d).
Qed.

Lemma lstrip_decomp (p : N → bool) (s : pystr) :
  ∃ pre, s = pre ++ lstrip p s ∧ Forall (λ c, p c = true) pre.
Proof.
  induction s as [|c s (pre & Heq & Hpre)]; [by exists []|]. simpl.
  destruct (p c) eqn:Hc; [|by exists []].
  exists (c :: pre). split; [by rewrite <- app_comm_cons, <- Heq|by constructor].
Qed.

Lemma strip_decomp (p : N → bool) (s : pystr) :
  ∃ pre post, s = pre ++ strip p s ++ post ∧
              Forall (λ c, p c = true) pre ∧ Forall (λ c, p c = true) post.
Proof.
  unfold strip, rstrip.
  destruct (lstrip_decomp p s) as (pre & Heq & Hpre).
  destruct (lstrip_decomp p (rev (lstrip p s))) as (post & Heq' & Hpost).
  exists pre, (rev post). split_and!; [|done|].
  - rewrite Heq at 1. f_equal.
    rewrite <- (rev_involutive (lstrip p s)) at 1. rewrite Heq' at 1.
    by rewrite rev_app_distr.
  - apply Forall_forall. intros c Hc. rewrite Forall_forall in Hpost. apply Hpost.
    by apply list_elem_of_In, in_rev, list_elem_of_In.
Qed.

Lemma last_rev_head {A} (l : list A) : last (rev l) = head l.
Proof. destruct l as [|x l]; [done|]. simpl. by rewrite last_snoc. Qed.

Lemma strip_ends (s : pystr) (c : N) :
  head (strip is_space s) = Some c ∨ last (strip is_space s) = Some c →
  is_space c = false.
Proof.
  unfold strip, rstrip.
  destruct (lstrip_shape s) as [->|(x & t & -> & Hx)]; [by intros [?|?]|].
  change (rev (x :: t)) with (rev t ++ [x]).
  destruct (lstrip_snoc (rev t) x Hx) as [w Hw]. intros [Hhead|Hlast].
  - rewrite Hw, rev_app_distr in Hhead. simpl in Hhead. by injection Hhead as <-.
  - rewrite last_rev_head in Hlast.
    destruct (lstrip_shape (rev t ++ [x])) as [Hnil|(y & t' & Hy & Hsp)].
    + by rewrite Hnil in Hlast.
    + rewrite Hy in Hlast. simpl in Hlast. by injection Hlast as <-.
Qed.

Lemma ink_app (x y : pystr) : ink (x ++ y) = ink x ++ ink y.
Proof. apply filter_app. Qed.

Lemma ink_blank (s : pystr) : Forall (λ c, is_space c = true) s → ink s = [].
Proof.
  induction 1 as [|c s Hc _ IH]; [done|]. unfold ink in *.
  rewrite filter_cons_False; [done|]. by rewrite Hc.
Qed.

Lemma ink_space (c : N) (s : pystr) : is_space c = true → ink (c :: s) = ink s.
Proof. intros Hc. unfold ink. rewrite filter_cons_False; [done|]. by rewrite Hc. Qed.

Lemma ink_cons (c : N) (x y : pystr) : ink x = ink y → ink (c :: x) = ink (c :: y).
Proof. intros Heq. unfold ink in *. rewrite !filter_cons. by rewrite Heq. Qed.

Lemma ink_strip (s : pystr) : ink (strip is_space s) = ink s.
Proof.
  destruct (strip_decomp is_space s) as (pre & post & Heq & Hpre & Hpost).
  rewrite Heq at 2. rewrite !ink_app, (ink_blank pre), (ink_blank post) by done.
  by rewrite app_nil_r.
Qed.

Lemma ink_splitlines (s : pystr) :
  (∀ c, line_break c = true → is_space c = true) →
  ink (concat (splitlines s)) = ink s.
Proof.
  intros Hbreak.
  induction s as [| c | c d s IH1 IH2] using pair_induction.
  - done.
  - rewrite splitlines_one. destruct (line_break c) eqn:Hc; [|done].
    simpl. by rewrite ink_space by auto.
  - rewrite splitlines_step. destruct (line_break c) eqn:Hc.
    + rewrite (ink_space c) by auto. cbn [concat app].
      destruct (_ && _) eqn:Hcrlf; [|done].
      apply andb_true_iff in Hcrlf as [_ ->%N.eqb_eq].
      rewrite IH1. symmetry. by apply ink_space, Hbreak.
    + destruct (splitlines (d :: s)) as [|line lines].
      * simpl in IH2 |- *. by apply ink_cons.
      * cbn [concat] in *. rewrite <- app_comm_cons. by apply ink_cons.
Qed.

Lemma ink_split_on2 (s : pystr) :
  is_space 32%N = true → ink (concat (split_on2 32 32 s)) = ink s.
Proof.
  intros Hsp.
  induction s as [| c | c d s IH1 IH2] using pair_induction.
  - done.
  - done.
  - rewrite split_on2_step. destruct (_ && _) eqn:Hsep.
    + apply andb_true_iff in Hsep as [->%N.eqb_eq ->%N.eqb_eq].
      cbn [concat app]. by rewrite IH1, !ink_space.
    + destruct (split_on2 32 32 (d :: s)) as [|w ws].
      * simpl in IH2 |- *. by apply ink_cons.
      * cbn [concat] in *. rewrite <- app_comm_cons. by apply ink_cons.
Qed.

Lemma ink_concat_map (f : pystr → pystr) (l : list pystr) :
  (∀ x, ink (f x) = ink x) → ink (concat (f <$> l)) = ink (concat l).
Proof.
  intros Hf. induction l as [|x l IH]; [done|].
  rewrite fmap_cons. cbn [concat]. by rewrite !ink_app, Hf, IH.
Qed.

Lemma join_cons (sep x y : pystr) (rest : list pystr) :
  join sep (x :: y :: rest) = x ++ sep ++ join sep (y :: rest).
Proof. reflexivity. Qed.

Lemma ink_join (l : list pystr) :
  is_space 32%N = true → ink (join [32%N] l) = ink (concat l).
Proof.
  intros Hsp. induction l as [|x l IH]; [done|]. destruct l as [|y l].
  - simpl. by rewrite app_nil_r.
  - rewrite join_cons. cbn [concat] in *. rewrite !ink_app, IH.
    assert (ink [32%N] = []) as -> by (apply ink_blank; by constructor).
    by rewrite ink_app.
Qed.

Lemma concat_nonempty (l : list pystr) :
  concat (filter (λ chunk, Py.truthy (PStr chunk) = true) l) = concat l.
Proof.
  induction l as [|x l IH]; [done|]. rewrite filter_cons.
  destruct (decide _) as [Hx|Hx]; cbn [concat]; rewrite IH; [done|].
  by destruct x.
Qed.

(** What [_html_to_text] joins: chunks that are not empty, have no
    whitespace at their ends and no two spaces in a row. *)
Lemma join_chunks (l : list pystr) :
  is_space 32%N = true →
  Forall (λ w, w ≠ [] ∧ has_pair 32 32 w = false ∧
               ∀ c, head w = Some c ∨ last w = Some c → is_space c = false) l →
  has_pair 32 32 (join [32%N] l) = false ∧
  (∀ c, head (join [32%N] l) = Some c ∨ last (join [32%N] l) = Some c →
        is_space c = false) ∧
  (l ≠ [] → join [32%N] l ≠ []).
Proof.
  intros Hsp. induction 1 as [|x l (Hne & Hpair & Hends) Hl (IHpair & IHends & IHne)].
  - split; [done|]. split; [by intros c [?|?]|done].
  - destruct l as [|y l].
    { cbn [join]. split; [done|]. split; [done|done]. }
    rewrite join_cons.
    assert (join [32%N] (y :: l) ≠ []) as Hrest by by apply IHne.
    destruct (join [32%N] (y :: l)) as [|d rest] eqn:Hj; [done|].
    assert (is_space d = false) as Hd by (apply IHends; by left).
    split_and!.
    + apply has_pair_app; [done| |].
      * change (has_pair 32 32 ([32%N] ++ d :: rest))
          with (((32 =? 32) && (d =? 32))%N || has_pair 32 32 (d :: rest)).
        rewrite IHpair.
        replace (d =? 32)%N with false; [by rewrite andb_false_r|].
        symmetry. apply N.eqb_neq. intros ->. congruence.
      * intros c d' Hlast [= <-]. simpl.
        replace (c =? 32)%N with false; [done|].
        symmetry. apply N.eqb_neq. intros ->.
        specialize (Hends 32%N (or_intror Hlast)). congruence.
    + intros c [Hhead|Hlast].
      * apply Hends. left. destruct x; [done|]. by simpl in *.
      * apply IHends. right. rewrite last_app in Hlast. cbn [app] in Hlast.
        rewrite last_cons_cons in Hlast.
        destruct (last (d :: rest)) eqn:Hnone; [done|]. by apply last_None in Hnone.
    + by destruct x.
Qed.

(** X18: what [_html_to_text] does to the text of the document. When the
    parser gives a text, the result has no two spaces in a row and no
    line break, carries no whitespace at its ends, and has the
    characters of the text that are not whitespace, all of them and in
    the same order; when the parser raises, the document is returned as
    it is. *)
Theorem html_to_text_normalizes (html : pystr) :
  is_space 32%N = true →
  (∀ c, line_break c = true → is_space c = true) →
  (∀ text, soup_text html = Ok text →
     contains (u "  ") (_html_to_text html) = false ∧
     Forall (λ c, line_break c = false) (_html_to_text html) ∧
     strip is_space (_html_to_text html) = _html_to_text html ∧
     ink (_html_to_text html) = ink text) ∧
  (∀ e, soup_text html = Raise e → _html_to_text html = html).
Proof.
  intros Hsp Hbreak. split; [|by intros e; unfold _html_to_text; intros ->].
  intros text Htext. unfold _html_to_text. rewrite Htext. cbv zeta.
  change (u " ") with [32%N]. change (u "  ") with [32%N; 32%N].
  set (lines := strip is_space <$> splitlines text).
  set (chunks := flat_map (λ line, strip is_space <$> split_on2 32 32 line) lines).
  assert (Forall (Forall (λ c, line_break c = false)) lines) as Hlines.
  { subst lines. apply Forall_fmap. eapply Forall_impl; [apply splitlines_no_break|].
    intros line Hline. apply Forall_forall. intros c Hc%strip_sublist.
    rewrite Forall_forall in Hline. by apply Hline. }
  assert (Forall (λ w, Forall (λ c, line_break c = false) w ∧ has_pair 32 32 w = false ∧
                       ∀ c, head w = Some c ∨ last w = Some c → is_space c = false)
                 chunks) as Hchunks.
  { subst chunks. induction Hlines as [|line lines' Hline _ IH]; [constructor|].
    cbn [flat_map]. apply Forall_app. split; [|done].
    apply Forall_fmap, Forall_forall. intros piece Hpiece. cbn [compose].
    split_and!.
    - pose proof (split_on2_Forall _ 32 32 line Hline) as Hall.
      rewrite Forall_forall in Hall. specialize (Hall _ Hpiece).
      apply Forall_forall. intros c Hc%strip_sublist.
      rewrite Forall_forall in Hall. by apply Hall.
    - pose proof (split_on2_no_pair 32 32 line) as Hall.
      rewrite Forall_forall in Hall. specialize (Hall _ Hpiece).
      destruct (strip_decomp is_space piece) as (pre & post & Heq & _).
      rewrite Heq in Hall. apply has_pair_app_inv in Hall as [_ Hall].
      by apply has_pair_app_inv in Hall as [Hall _].
    - apply strip_ends. }
  set (kept := filter (λ chunk, Py.truthy (PStr chunk) = true) chunks).
  assert (Forall (λ w, w ≠ [] ∧ has_pair 32 32 w = false ∧
                       ∀ c, head w = Some c ∨ last w = Some c → is_space c = false)
                 kept) as Hkept.
  { subst kept. apply Forall_forall. intros w [Hw Hin]%list_elem_of_filter.
    rewrite Forall_forall in Hchunks. destruct (Hchunks _ Hin) as (_ & ? & ?).
    split; [by destruct w|done]. }
  destruct (join_chunks kept Hsp Hkept) as (Hpair & Hends & _).
  split_and!.
  - by rewrite contains_pair.
  - assert (∀ l, Forall (Forall (λ c, line_break c = false)) l →
                 Forall (λ c, line_break c = false) (join [32%N] l)) as Hjoin.
    { clear. induction 1 as [|x l Hx Hl IH]; [constructor|]. destruct l as [|y l]; [done|].
      rewrite join_cons. apply Forall_app. split; [done|].
      apply Forall_app. split; [by repeat constructor|done]. }
    apply Hjoin. subst kept. apply Forall_forall.
    intros w [_ Hin]%list_elem_of_filter.
    rewrite Forall_forall in Hchunks. by destruct (Hchunks _ Hin) as (? & _).
  - by apply strip_fixed.
  - rewrite ink_join by done. subst kept. rewrite concat_nonempty.
    rewrite <- (ink_splitlines text) by done.
    rewrite <- (ink_concat_map (strip is_space) (splitlines text)) by apply ink_strip.
    fold lines. subst chunks. clear -Hsp. induction lines as [|line lines IH]; [done|].
    cbn [flat_map concat]. rewrite concat_app, !ink_app, IH. f_equal.
    rewrite ink_concat_map by apply ink_strip. by apply ink_split_on2.
Qed.

Lemma body_of_parts_skips (before rest : list pyval) :
  Forall passed_over before → body_of_parts (before ++ rest) = body_of_parts rest.
Proof.
  induction 1 as [|part before (d & mime & -> & Hm & Hwhy) _ IH]; [done|].
  cbn [app body_of_parts Py.subscript]. unfold Py.getitem. rewrite Hm.
  cbn [mbind result_bind].
  destruct Hwhy as [[-> ->]|(b & Hb & Hdata)]; [done|]. rewrite Hb.
  cbn [mbind result_bind Py.contains_str]. rewrite Hdata.
  rewrite bool_decide_false by (by intros [? ?]).
  by destruct (Py.eq_str mime (u "text/plain")), (Py.eq_str mime (u "text/html")).
Qed.

Lemma body_of_parts_text (mime : pystr) (data part : pyval) (rest : list pyval) :
  text_part mime data part →
  body_of_parts (part :: rest) =
  if bool_decide (mime = u "text/plain") then text ← decode_data data; Ok (Some text)
  else if bool_decide (mime = u "text/html")
       then html ← decode_data data; Ok (Some (_html_to_text html))
       else body_of_parts rest.
Proof.
  intros (d & b & -> & Hm & Hb & Hdata).
  cbn [body_of_parts Py.subscript]. unfold Py.getitem. rewrite Hm, Hb.
  cbn [mbind result_bind Py.contains_str Py.subscript Py.eq_str]. unfold Py.getitem.
  rewrite Hdata. rewrite (bool_decide_true (is_Some _)) by done.
  cbn [mbind result_bind]. by repeat case_bool_decide.
Qed.

(** X19: in a message with parts, the first part that is [text/plain]
    or [text/html] and carries data gives the body: its decoded data,
    through [_html_to_text] for HTML, stripped. The parts before it (of
    other types, or text parts without data) are passed over, and the
    parts after it are not read at all, so a plain part is not preferred
    to an HTML part that comes first. When every part is passed over the
    body is empty. *)
Theorem email_body_first_text_part (payload : pydict) (before after : list pyval)
    (part data : pyval) (text : pystr) :
  Forall passed_over before →
  decode_data data = Ok text →
  (payload !! u "parts" = Some (PList (before ++ part :: after)) →
   (text_part (u "text/plain") data part →
    _get_email_body (PDict payload) = Ok (strip is_space text)) ∧
   (text_part (u "text/html") data part →
    _get_email_body (PDict payload) = Ok (strip is_space (_html_to_text text)))) ∧
  (payload !! u "parts" = Some (PList before) → _get_email_body (PDict payload) = Ok []).
Proof.
  intros Hbefore Hdata. split.
  - intros Hparts.
    assert (∀ mime, text_part mime data part →
              _get_email_body (PDict payload) =
              (body ← (found ← body_of_parts (part :: after); Ok (default [] found));
               Ok (strip is_space body))) as Hrun.
    { intros mime Hpart. unfold _get_email_body. cbn [Py.contains_str mbind result_bind].
      rewrite bool_decide_true by (by rewrite Hparts).
      cbn [Py.subscript]. unfold Py.getitem. rewrite Hparts.
      cbn [mbind result_bind Py.iterate]. by rewrite body_of_parts_skips. }
    split; intros Hpart; rewrite (Hrun _ Hpart), (body_of_parts_text _ _ _ _ Hpart).
    + rewrite bool_decide_true by done. by rewrite Hdata.
    + rewrite bool_decide_false by (by vm_compute).
      rewrite bool_decide_true by done. by rewrite Hdata.
  - intros Hparts. unfold _get_email_body. cbn [Py.contains_str mbind result_bind].
    rewrite bool_decide_true by (by rewrite Hparts).
    cbn [Py.subscript]. unfold Py.getitem. rewrite Hparts.
    cbn [mbind result_bind Py.iterate].
    rewrite <- (app_nil_r before). by rewrite body_of_parts_skips.
Qed.

Lemma email_body_stripped (payload : pyval) (text : pystr) :
  _get_email_body payload = Ok text → strip is_space text = text.
Proof.
  unfold _get_email_body.
  destruct (Py.contains_str (u "parts") payload) as [multipart|e]; [|done].
  cbn [mbind result_bind].
  match goal with |- (x ← ?m; _) = _ → _ => destruct m as [found|e] end; [|done].
  cbn [mbind result_bind]. intros [= <-]. apply strip_idemp.
Qed.

(** X20: the body of a message without parts, and of any message. With
    no ['parts'] key, a body without data gives the empty text, and a
    body with data gives the decoded data, through [_html_to_text] when
    the type is [text/html], stripped; an error of the decoder is
    raised. Whatever the payload, a body that is returned carries no
    whitespace at its ends. *)
Theorem email_body_single_part (payload body : pydict) :
  payload !! u "parts" = None →
  payload !! u "body" = Some (PDict body) →
  (body !! u "data" = None → _get_email_body (PDict payload) = Ok []) ∧
  (∀ data mime text,
     body !! u "data" = Some data → payload !! u "mimeType" = Some mime →
     decode_data data = Ok text →
     _get_email_body (PDict payload) =
       Ok (strip is_space (if Py.eq_str mime (u "text/html")
                           then _html_to_text text else text))) ∧
  (∀ data e, body !! u "data" = Some data → decode_data data = Raise e →
             _get_email_body (PDict payload) = Raise e) ∧
  (∀ any text, _get_email_body any = Ok text → strip is_space text = text).
Proof.
  intros Hparts Hbody.
  assert (∀ data, body !! u "data" = data →
            _get_email_body (PDict payload) =
            (body ←
               match data with
               | Some data =>
                 body ← decode_data data;
                 mime ← Py.getitem payload (u "mimeType");
                 if Py.eq_str mime (u "text/html") then Ok (_html_to_text body)
                 else Ok body
               | None => Ok []
               end;
             Ok (strip is_space body))) as Hrun.
  { intros data Hdata. unfold _get_email_body. cbn [Py.contains_str mbind result_bind].
    rewrite bool_decide_false by (rewrite Hparts; by intros [? ?]).
    cbn [Py.subscript]. unfold Py.getitem. rewrite Hbody.
    cbn [mbind result_bind Py.contains_str Py.subscript]. unfold Py.getitem.
    rewrite Hdata. destruct data as [data|].
    - by rewrite bool_decide_true by done.
    - by rewrite bool_decide_false by (by intros [? ?]). }
  split_and!.
  - intros Hdata. by rewrite (Hrun None).
  - intros data mime text Hdata Hmime Htext. rewrite (Hrun (Some data)) by done.
    rewrite Htext. unfold Py.getitem. rewrite Hmime. cbn [mbind result_bind].
    by destruct (Py.eq_str mime _).
  - intros data e Hdata Hfail. rewrite (Hrun (Some data)) by done. by rewrite Hfail.
  - apply email_body_stripped.
Qed.

Lemma email_detail_fetched (gmail : gmail_service) (msg_id : pyval) (email : pydict) :
  _get_email_detail gmail msg_id = Some email →
  is_fetched msg_id email ∧ Py.truthy (PDict email) = true.
Proof.
  unfold _get_email_detail.
  repeat match goal with
         | |- match (x ← ?m; _) with _ => _ end = _ → _ =>
           destruct m eqn:?; cbn [mbind result_bind]; [|done]
         end.
  intros [= <-]. split.
  - split; [|split].
    + rewrite dict_of_dom. cbn [fmap list_fmap fst list_to_set]. set_solver.
    + by dict_lookup.
    + eexists. split; [by dict_lookup|]. by eapply email_body_stripped.
  - cbn [Py.truthy]. apply negb_true_iff, bool_decide_eq_false. intros Hempty.
    apply (f_equal (λ d : pydict, d !! u "id")) in Hempty.
    revert Hempty. dict_lookup. by rewrite lookup_empty.
Qed.

Lemma get_emails_loop_spec (gmail : gmail_service) (messages ids : list pyval)
    (emails : list pydict) :
  lists_ids messages ids →
  get_emails_loop gmail messages emails = Ok (emails ++ omap (_get_email_detail gmail) ids).
Proof.
  intros Hids. revert emails.
  induction Hids as [|msg msg_id messages ids (d & -> & Hid) _ IH]; intros emails.
  - by rewrite app_nil_r.
  - cbn [get_emails_loop Py.subscript]. unfold Py.getitem. rewrite Hid.
    cbn [mbind result_bind].
    change (omap (_get_email_detail gmail) (msg_id :: ids))
      with (match _get_email_detail gmail msg_id with
            | Some email => email :: omap (_get_email_detail gmail) ids
            | None => omap (_get_email_detail gmail) ids
            end).
    destruct (_get_email_detail gmail msg_id) as [email|] eqn:Hdetail; [|apply IH].
    destruct (email_detail_fetched _ _ _ Hdetail) as [_ ->].
    by rewrite IH, <- app_assoc.
Qed.

(** X21: what [get_emails] returns for a listing. When the inbox
    listing names the ids [ids], the result is the records
    [_get_email_detail] builds for these ids, in the order of the
    listing, the ids for which it gives nothing being left out without
    failing the call; so there are at most as many records as ids, and
    each record has the six keys, the id it was fetched for, and a
    stripped string as body. *)
Theorem get_emails_fetches_the_listing (gmail : gmail_service) (max_results : Z)
    (listing : pydict) (messages ids : list pyval) :
  list_messages gmail (Z.min max_results 50) = Ok (PDict listing) →
  listing !! u "messages" = Some (PList messages) →
  lists_ids messages ids →
  get_emails (Some gmail) max_results = Ok (omap (_get_email_detail gmail) ids) ∧
  (length (omap (_get_email_detail gmail) ids) ≤ length messages)%nat ∧
  (∀ email, email ∈ omap (_get_email_detail gmail) ids →
            ∃ msg_id, msg_id ∈ ids ∧ _get_email_detail gmail msg_id = Some email ∧
                      is_fetched msg_id email) ∧
  (Forall (λ msg_id, is_Some (_get_email_detail gmail msg_id)) ids →
   length (omap (_get_email_detail gmail) ids) = length messages).
Proof.
  intros Hlist Hmessages Hids. pose proof (Forall2_length _ _ _ Hids) as Hlen.
  split_and!.
  - unfold get_emails. cbv zeta. unfold MAX_EMAILS. rewrite Hlist.
    cbn [mbind result_bind Py.get]. unfold Py.dict_get. rewrite Hmessages.
    cbn [default from_option id Py.truthy].
    destruct messages as [|msg messages].
    + apply Forall2_nil_inv_l in Hids as ->. done.
    + cbn [length Nat.eqb negb Py.iterate mbind result_bind].
      by rewrite (get_emails_loop_spec gmail _ ids).
  - rewrite Hlen. clear. induction ids as [|msg_id ids IH]; [done|].
    change (omap (_get_email_detail gmail) (msg_id :: ids))
      with (match _get_email_detail gmail msg_id with
            | Some email => email :: omap (_get_email_detail gmail) ids
            | None => omap (_get_email_detail gmail) ids
            end).
    destruct (_get_email_detail gmail msg_id); simpl in *; lia.
  - intros email (msg_id & Hin & Hdetail)%list_elem_of_omap.
    exists msg_id. split; [done|]. split; [done|].
    by apply (email_detail_fetched gmail).
  - intros Hall. rewrite Hlen. clear -Hall.
    induction Hall as [|msg_id ids [email Hemail] _ IH]; [done|].
    change (omap (_get_email_detail gmail) (msg_id :: ids))
      with (match _get_email_detail gmail msg_id with
            | Some email => email :: omap (_get_email_detail gmail) ids
            | None => omap (_get_email_detail gmail) ids
            end).
    rewrite Hemail. simpl. by rewrite <- IH.
Qed.

(** X22: the edges of [get_emails]. Without a service (before
    [authenticate]) it raises [ValueError]; it never asks the listing for
    more than [MAX_EMAILS] = 50 messages, whatever number is asked of it;
    an error of the listing call is raised as it is; and a listing
    without messages gives the empty list. *)
Theorem get_emails_edges (max_results : Z) :
  get_emails None max_results =
    Raise (Exn ValueError (u "먼저 authenticate()를 호출하세요.")) ∧
  (∀ gmail, (50 ≤ max_results)%Z →
            get_emails (Some gmail) max_results = get_emails (Some gmail) 50) ∧
  (∀ gmail e, list_messages gmail (Z.min max_results 50) = Raise e →
              get_emails (Some gmail) max_results = Raise e) ∧
  (∀ gmail listing,
     list_messages gmail (Z.min max_results 50) = Ok (PDict listing) →
     listing !! u "messages" = None ∨ listing !! u "messages" = Some (PList []) →
     get_emails (Some gmail) max_results = Ok []).
Proof.
  split; [done|]. split_and!.
  - intros gmail Hmax. unfold get_emails. cbv zeta. unfold MAX_EMAILS.
    by rewrite !Z.min_r by lia.
  - intros gmail e Hfail. unfold get_emails. cbv zeta. unfold MAX_EMAILS.
    by rewrite Hfail.
  - intros gmail listing Hlist Hnone. unfold get_emails. cbv zeta. unfold MAX_EMAILS.
    rewrite Hlist. cbn [mbind result_bind Py.get]. unfold Py.dict_get.
    by destruct Hnone as [->| ->].
Qed.

(** ** The pipeline of [app.py] *)

Lemma classify_returns (email c : pydict) (log log' : list request) :
  is_message email →
  classify email log = (Ok c, log') →
  ∃ category reason,
    c = Py.dict_of [(u "category", PStr category);
                    (u "confidence", PFloat (Float.literal 85 100));
                    (u "reason", PStr reason)] ∧
    category ∈ [u "urgent"; u "work"; u "marketing"; u "internal"; u "spam"].
Proof.
  intros Hmsg. destruct (classify_run email log Hmsg) as [req ->].
  destruct (completion _) as [text|e]; [|done].
  destruct (parse_classification_value text) as (v & reason & -> & _).
  destruct (rejected v _) as [[|]|e] eqn:Hrej; [done| |done].
  apply rejected_false in Hrej as (category & -> & Hin).
  intros [= <- _]. exists category, reason. split; [done|].
  revert Hin. by vm_compute (EMAIL_CATEGORIES.*1).
Qed.

Lemma classify_raises_ValueError (email : pydict) (e : exn) (log log' : list request) :
  is_message email → classify email log = (Raise e, log') → exn_cls e = ValueError.
Proof.
  intros Hmsg. destruct (classify_run email log Hmsg) as [req ->].
  destruct (completion _) as [text|e']; [|by intros [= <- _]].
  destruct (parse_classification_value text) as (v & reason & -> & Hv).
  destruct (rejected v _) as [[|]|e'] eqn:Hrej; [by intros [= <- _]|done|].
  exfalso. unfold rejected in Hrej.
  destruct Hv as [->|[s ->]]; simpl in Hrej; [done|]. by destruct (negb _).
Qed.

Lemma analyze_raises_ValueError (email classification : pydict) (e : exn)
    (log log' : list request) :
  is_message email →
  analyze email (PDict classification) log = (Raise e, log') → exn_cls e = ValueError.
Proof.
  intros Hmsg. destruct (analyze_run email classification log Hmsg) as [req ->].
  destruct (completion _) as [text|e']; [|by intros [= <- _]].
  destruct (rejected (parse_priority text).1 _) as [[|]|e'] eqn:Hrej.
  - by intros [= <- _].
  - apply rejected_false in Hrej as (s & Hs & _). rewrite Hs.
    destruct (urgency_score_bounds email s Hmsg) as (score & -> & _). done.
  - exfalso. unfold rejected in Hrej.
    destruct (parse_priority_value text) as [Hv|[s Hv]]; rewrite Hv in Hrej;
      simpl in Hrej; [done|].
    by destruct (negb _).
Qed.

Lemma draft_raises_ValueError (email classification priority_analysis : pydict)
    (e : exn) (log log' : list request) :
  is_message email →
  draft_response email (PDict classification) (PDict priority_analysis) log
    = (Raise e, log') →
  exn_cls e = ValueError.
Proof.
  intros Hmsg.
  destruct (Py.in_str_list (Py.dict_get classification (u "category") (PStr (u "work")))
              [u "spam"; u "marketing"]) eqn:Hcat.
  - destruct Hmsg as (subject & _ & _ & Hs & _).
    rewrite (draft_response_run email subject) by done. cbv zeta. by rewrite Hcat.
  - destruct (draft_response_run_message email classification priority_analysis log
                Hmsg Hcat) as (req & subject & _ & ->).
    destruct (completion _) as [text|e']; [|by intros [= <- _]].
    destruct (negb _); [by intros [= <- _]|done].
Qed.

Lemma stage_loop_outcome (key : pystr) (stage : pydict → M pydict)
    (P : pydict → Prop) (Q : pydict → pydict → Prop)
    (emails results : list pydict) (log : list request) :
  (∀ email log, P email →
     match stage email log with
     | (Ok v, _) => Q email (<[key := PDict v]> email)
     | (Raise e, _) => exn_cls e = ValueError
     end) →
  Forall P emails →
  match stage_loop key stage emails results log with
  | (Ok out, _) => ∃ added, out = results ++ added ∧ Forall2 Q emails added
  | (Raise e, _) => exn_cls e = ValueError
  end.
Proof.
  intros Hstage Hall. revert results log.
  induction Hall as [|email emails He _ IH]; intros results log.
  - simpl. exists []. by rewrite app_nil_r.
  - cbn [stage_loop]. rewrite run_bind. specialize (Hstage email log He).
    destruct (stage email log) as [[v|e] log1]; [|done].
    specialize (IH (results ++ [<[key := PDict v]> email]) log1).
    destruct (stage_loop _ _ _ _ _) as [[out|e] log2]; [|done].
    destruct IH as (added & -> & Hadded).
    exists (<[key := PDict v]> email :: added). split; [by rewrite <- app_assoc|].
    by constructor.
Qed.

Lemma Forall2_chain {A} (R1 R2 R3 : A → A → Prop) (l0 l1 l2 l3 : list A) :
  Forall2 R1 l0 l1 → Forall2 R2 l1 l2 → Forall2 R3 l2 l3 →
  Forall2 (λ a d, ∃ b c, R1 a b ∧ R2 b c ∧ R3 c d) l0 l3.
Proof.
  intros H1. revert l2 l3. induction H1 as [|a b l0 l1 Hab _ IH]; intros l2 l3 H2 H3.
  - apply Forall2_nil_inv_l in H2 as ->. apply Forall2_nil_inv_l in H3 as ->. constructor.
  - apply Forall2_cons_inv_l in H2 as (c & l2' & Hbc & H2 & ->).
    apply Forall2_cons_inv_l in H3 as (d & l3' & Hcd & H3 & ->).
    constructor; [by exists b, c|by apply (IH l2')].
Qed.

(** The records as the first, the second and the third stage leave them. *)
Lemma classified_record (email : pydict) (log : list request) :
  is_message email →
  match classify email log with
  | (Ok v, _) =>
    ∃ category,
      v !! u "category" = Some (PStr category) ∧
      category ∈ [u "urgent"; u "work"; u "marketing"; u "internal"; u "spam"]
  | (Raise e, _) => exn_cls e = ValueError
  end.
Proof.
  intros Hmsg. destruct (classify email log) as [[v|e] log'] eqn:Hrun.
  - destruct (classify_returns _ _ _ _ Hmsg Hrun) as (category & reason & -> & Hin).
    exists category. split; [by dict_lookup|done].
  - by eapply classify_raises_ValueError.
Qed.

Lemma analyzed_record (email c : pydict) (log : list request) :
  is_message email →
  match analyze email (PDict c) log with
  | (Ok v, _) =>
    ∃ priority score,
      v !! u "priority" = Some (PStr priority) ∧
      priority ∈ [u "high"; u "medium"; u "low"] ∧
      v !! u "urgency_score" = Some (PInt score) ∧ (0 ≤ score ≤ 10)%Z
  | (Raise e, _) => exn_cls e = ValueError
  end.
Proof.
  intros Hmsg. destruct (analyze email (PDict c) log) as [[v|e] log'] eqn:Hrun.
  - destruct (analyze_returns email c v log Hmsg) as
      (priority & score & factors & -> & Hin & _ & Hlo & Hhi); [by rewrite Hrun|].
    exists priority, score. split; [by dict_lookup|]. split; [done|].
    split; [by dict_lookup|]. split; [|done].
    assert (2 ≤ base_score (PStr priority))%Z
      by (unfold base_score; repeat destruct (Py.eq_str _ _); lia).
    lia.
  - by eapply analyze_raises_ValueError.
Qed.

Lemma drafted_record (email c p : pydict) (log : list request) :
  is_message email →
  match draft_response email (PDict c) (PDict p) log with
  | (Ok v, _) =>
    v !! u "should_respond" =
    Some (PBool (negb (Py.in_str_list (Py.dict_get c (u "category") (PStr (u "work")))
                                      [u "spam"; u "marketing"])))
  | (Raise e, _) => exn_cls e = ValueError
  end.
Proof.
  intros Hmsg.
  destruct (draft_response email (PDict c) (PDict p) log) as [[v|e] log'] eqn:Hrun;
    [|by eapply draft_raises_ValueError].
  destruct (Py.in_str_list _ _) eqn:Hcat.
  - destruct Hmsg as (subject & _ & _ & Hs & _).
    rewrite (draft_response_run email subject) in Hrun by done. cbv zeta in Hrun.
    rewrite Hcat in Hrun. injection Hrun as <- _. by dict_lookup.
  - destruct (draft_response_run_message email c p log Hmsg Hcat)
      as (req & subject & _ & Heq). rewrite Heq in Hrun.
    destruct (completion _) as [text|e]; [|done].
    destruct (negb _); [done|]. injection Hrun as <- _. by dict_lookup.
Qed.

Lemma Forall2_right {A B} (R : A → B → Prop) (Q : B → Prop) (l : list A) (k : list B) :
  Forall2 R l k → (∀ x y, R x y → Q y) → Forall Q k.
Proof. induction 1; intros HQ; constructor; eauto. Qed.

Lemma batch_classify_outcome (emails : list pydict) (log : list request) :
  Forall is_message emails →
  match batch_classify emails log with
  | (Ok out, _) => Forall2 classified_from emails out
  | (Raise e, _) => exn_cls e = ValueError
  end.
Proof.
  intros Hall. unfold batch_classify. rewrite batch_classify_loop_shared.
  pose proof (stage_loop_outcome (u "classification") classify is_message classified_from
                emails [] log) as Hloop.
  destruct (stage_loop _ _ _ _ _) as [[out|e] log'].
  - destruct Hloop as (added & -> & Hadded); [|done|done].
    intros email log1 Hmsg. pose proof (classified_record email log1 Hmsg) as Hrec.
    destruct (classify email log1) as [[v|e] log2]; [|done].
    destruct Hrec as (category & Hcat & Hin). split; [|by exists v, category].
    by apply is_message_insert.
  - apply Hloop; [|done].
    intros email log1 Hmsg. pose proof (classified_record email log1 Hmsg) as Hrec.
    destruct (classify email log1) as [[v|e'] log2]; [|done].
    destruct Hrec as (category & Hcat & Hin). split; [|by exists v, category].
    by apply is_message_insert.
Qed.

Lemma batch_analyze_outcome (emails : list pydict) (log : list request) :
  Forall (λ r, ∃ email, classified_from email r) emails →
  match batch_analyze emails log with
  | (Ok out, _) => Forall2 analyzed_from emails out
  | (Raise e, _) => exn_cls e = ValueError
  end.
Proof.
  intros Hall. unfold batch_analyze. rewrite batch_analyze_loop_shared.
  assert (∀ r log1, (∃ email, classified_from email r) →
            match analyze_record r log1 with
            | (Ok v, _) => analyzed_from r (<[u "priority_analysis" := PDict v]> r)
            | (Raise e, _) => exn_cls e = ValueError
            end) as Hstage.
  { intros r log1 (email & Hmsg & c & category & -> & _).
    unfold analyze_record, Py.dict_get. rewrite lookup_insert_eq. cbn [default from_option id].
    pose proof (analyzed_record _ c log1 Hmsg) as Hrec.
    destruct (analyze _ _ log1) as [[v|e] log2]; [|done].
    destruct Hrec as (priority & score & ?). split; [|by exists v, priority, score].
    by apply is_message_insert. }
  pose proof (stage_loop_outcome (u "priority_analysis") analyze_record _ analyzed_from
                emails [] log Hstage Hall) as Hloop.
  destruct (stage_loop _ _ _ _ _) as [[out|e] log']; [|done].
  by destruct Hloop as (added & -> & Hadded).
Qed.

Lemma analyzed_is_record (email r1 r2 : pydict) :
  classified_from email r1 → analyzed_from r1 r2 →
  is_record r2 ∧
  ∃ c category,
    Py.dict_get r2 (u "classification") (PDict ∅) = PDict c ∧
    c !! u "category" = Some (PStr category) ∧
    category ∈ [u "urgent"; u "work"; u "marketing"; u "internal"; u "spam"] ∧
    wants_reply r2 = negb (Py.in_str_list (PStr category) [u "spam"; u "marketing"]).
Proof.
  intros (_ & c & category & -> & Hc & Hin) (Hmsg & p & priority & score & -> & _).
  assert (Py.dict_get (<[u "priority_analysis" := PDict p]>
                         (<[u "classification" := PDict c]> email))
                      (u "classification") (PDict ∅) = PDict c) as Hget.
  { unfold Py.dict_get. rewrite lookup_insert_ne by (by vm_compute).
    by rewrite lookup_insert_eq. }
  split.
  - split; [done|]. split; [by exists c|]. exists p.
    unfold Py.dict_get. by rewrite lookup_insert_eq.
  - exists c, category. split; [done|]. split; [done|]. split; [done|].
    unfold wants_reply, category_of, field_value. rewrite Hget.
    cbn [Py.get]. unfold Py.dict_get. by rewrite Hc.
Qed.

Lemma batch_draft_outcome (emails : list pydict) (log : list request) :
  Forall (λ r2, ∃ email r1, classified_from email r1 ∧ analyzed_from r1 r2) emails →
  match batch_draft emails log with
  | (Ok out, _) => Forall2 drafted_from emails out
  | (Raise e, _) => exn_cls e = ValueError
  end.
Proof.
  intros Hall. unfold batch_draft. rewrite batch_draft_loop_shared.
  assert (∀ r log1, (∃ email r1, classified_from email r1 ∧ analyzed_from r1 r) →
            match draft_record r log1 with
            | (Ok v, _) => drafted_from r (<[u "response_draft" := PDict v]> r)
            | (Raise e, _) => exn_cls e = ValueError
            end) as Hstage.
  { intros r log1 (email & r1 & H1 & H2).
    destruct (analyzed_is_record _ _ _ H1 H2) as (Hrec & _).
    destruct (draft_record r log1) as [[v|e] log2] eqn:Hrun.
    - exists v. split; [done|]. by eapply draft_record_flag.
    - destruct Hrec as (Hmsg & [c Hc] & [p Hp]). unfold draft_record in Hrun.
      rewrite Hc, Hp in Hrun. by eapply draft_raises_ValueError. }
  pose proof (stage_loop_outcome (u "response_draft") draft_record _ drafted_from
                emails [] log Hstage Hall) as Hloop.
  destruct (stage_loop _ _ _ _ _) as [[out|e] log']; [|done].
  by destruct Hloop as (added & -> & Hadded).
Qed.

Lemma processed_of_stages (email r1 r2 r3 : pydict) :
  classified_from email r1 → analyzed_from r1 r2 → drafted_from r2 r3 →
  processed email r3.
Proof.
  intros H1 H2 (d & -> & Hd).
  destruct (analyzed_is_record _ _ _ H1 H2) as (_ & c' & category' & Hget & Hc' & _ & Hwants).
  destruct H1 as (_ & c & category & -> & Hc & Hin).
  destruct H2 as (_ & p & priority & score & -> & Hp & Hpin & Hs & Hscore).
  unfold Py.dict_get in Hget. rewrite lookup_insert_ne in Hget by (by vm_compute).
  rewrite lookup_insert_eq in Hget. injection Hget as <-.
  rewrite Hc in Hc'. injection Hc' as <-.
  exists c, p, d, category, priority, score.
  do 7 (split; [done|]). split.
  - by rewrite Hd, Hwants.
  - apply sort_key_analyzed. exists p. split; [|done].
    rewrite lookup_insert_ne by (by vm_compute). by rewrite lookup_insert_eq.
Qed.

Lemma run_stages_outcome (emails : list pydict) (log : list request) :
  Forall is_message emails →
  match run_stages emails log with
  | (Ok out, log') =>
    ∃ classified analyzed final log1 log2,
      batch_classify emails log = (Ok classified, log1) ∧
      batch_analyze classified log1 = (Ok analyzed, log2) ∧
      batch_draft analyzed log2 = (Ok final, log') ∧
      Forall (λ r, ∃ email, classified_from email r) classified ∧
      Forall is_record analyzed ∧
      Forall2 processed emails final ∧
      sort_by_priority final = Ok out
  | (Raise e, _) => exn_cls e = ValueError
  end.
Proof.
  intros Hall. unfold run_stages. rewrite run_bind.
  pose proof (batch_classify_outcome emails log Hall) as H1.
  destruct (batch_classify emails log) as [[classified|e] log1] eqn:Hrun1; [|done].
  rewrite run_bind.
  assert (Forall (λ r, ∃ email, classified_from email r) classified) as Hcl.
  { eapply Forall2_right; [exact H1|]. eauto. }
  pose proof (batch_analyze_outcome classified log1 Hcl) as H2.
  destruct (batch_analyze classified log1) as [[analyzed|e] log2] eqn:Hrun2; [|done].
  rewrite run_bind.
  assert (Forall (λ r2, ∃ email r1, classified_from email r1 ∧ analyzed_from r1 r2) analyzed)
    as Han.
  { clear -H1 H2. revert analyzed H2.
    induction H1 as [|email r1 emails classified Hr1 _ IH]; intros analyzed H2.
    - apply Forall2_nil_inv_l in H2 as ->. constructor.
    - apply Forall2_cons_inv_l in H2 as (r2 & analyzed' & Hr2 & H2 & ->).
      constructor; [by exists email, r1|by apply IH]. }
  pose proof (batch_draft_outcome analyzed log2 Han) as H3.
  destruct (batch_draft analyzed log2) as [[final|e] log3] eqn:Hrun3; [|done].
  assert (Forall2 processed emails final) as Hfinal.
  { eapply Forall2_impl; [exact (Forall2_chain _ _ _ _ _ _ _ H1 H2 H3)|].
    intros email r3 (r1 & r2 & ? & ? & ?). by eapply processed_of_stages. }
  destruct (with_keys_ok final) as [keyed Hkeyed].
  { eapply Forall2_right; [exact Hfinal|].
    intros email r (c & p & d & category & priority & score & _ & _ & _ & _ & _ & _ & _ & _ & ->).
    done. }
  unfold lift, sort_by_priority. rewrite Hkeyed. cbn [mbind result_bind].
  exists classified, analyzed, final, log1, log2.
  do 4 (split; [done|]). split; [|split; [done|]].
  - eapply Forall_impl; [exact Han|]. intros r2 (email & r1 & Hr1 & Hr2).
    by destruct (analyzed_is_record _ _ _ Hr1 Hr2).
  - by rewrite Hkeyed.
Qed.

Lemma stage_loop_sent (key : pystr) (stage : pydict → M pydict) (cost : pydict → nat)
    (emails out : list pydict) (log log' : list request) :
  (∀ email log, email ∈ emails →
                ∃ reqs, (stage email log).2 = log ++ reqs ∧ length reqs = cost email) →
  stage_loop key stage emails [] log = (Ok out, log') →
  ∃ reqs, log' = log ++ reqs ∧ length reqs = sum_list (cost <$> emails).
Proof.
  intros Hcost Hrun.
  destruct (stage_loop_requests key stage cost emails [] log Hcost) as (reqs & Hlog & _ & Hlen).
  rewrite Hrun in Hlog, Hlen. exists reqs. split; [done|]. by apply Hlen.
Qed.

(** X23: what the pipeline returns. When the three stages and the sort
    of [analyze_emails] succeed on messages, the result is a rearrangement
    of the messages, each with the results of the three stages attached
    (category and priority in their fixed sets, score between 0 and 10,
    a reply wanted exactly outside spam and marketing), in descending
    order of (priority weight, urgency score); and the requests sent are
    two per message and one more per record that gets a reply. *)
Theorem pipeline_returns_sorted_records (emails out : list pydict)
    (log log' : list request) :
  Forall is_message emails →
  run_stages emails log = (Ok out, log') →
  ∃ final reqs,
    Forall2 processed emails final ∧ out ≡ₚ final ∧
    (∀ i j a b,
       (i < j)%nat → out !! i = Some a → out !! j = Some b →
       ∃ ka kb, sort_key a = Ok ka ∧ sort_key b = Ok kb ∧
                (kb.1 < ka.1 ∨ (ka.1 = kb.1 ∧ kb.2 ≤ ka.2))%Z) ∧
    log' = log ++ reqs ∧
    length reqs =
      (2 * length emails + length (filter (λ r, responds r = true) out))%nat.
Proof.
  intros Hall Hrun. pose proof (run_stages_outcome emails log Hall) as Hout.
  rewrite Hrun in Hout.
  destruct Hout as (classified & analyzed & final & log1 & log2 &
                    Hrun1 & Hrun2 & Hrun3 & Hcl & Hrec & Hfinal & Hsort).
  destruct (sort_by_priority_keyed final out Hsort) as (keyed & _ & Hout & Hkeys & Hperm).
  assert (length classified = length emails) as Hlen1.
  { unfold batch_classify in Hrun1.
    apply batch_classify_loop_spec in Hrun1 as (added & -> & Hadded).
    by rewrite (Forall2_length _ _ _ Hadded). }
  assert (∃ reqs1, log1 = log ++ reqs1 ∧ length reqs1 = length emails)
    as (reqs1 & -> & Hreqs1).
  { unfold batch_classify in Hrun1. rewrite batch_classify_loop_shared in Hrun1.
    rewrite <- (sum_list_ones emails). eapply stage_loop_sent; [|exact Hrun1].
    intros email log0 Hin. rewrite Forall_forall in Hall.
    destruct (classify_run email log0 (Hall _ Hin)) as [req ->]. by exists [req]. }
  assert (∃ reqs2, log2 = (log ++ reqs1) ++ reqs2 ∧ length reqs2 = length emails)
    as (reqs2 & -> & Hreqs2).
  { unfold batch_analyze in Hrun2. rewrite batch_analyze_loop_shared in Hrun2.
    rewrite <- Hlen1, <- (sum_list_ones classified).
    eapply stage_loop_sent; [|exact Hrun2].
    intros r log0 Hin. rewrite Forall_forall in Hcl.
    destruct (Hcl _ Hin) as (email & Hmsg & c & category & -> & _).
    unfold analyze_record, Py.dict_get. rewrite lookup_insert_eq.
    cbn [default from_option id].
    destruct (analyze_run _ c log0 Hmsg) as [req ->]. by exists [req]. }
  assert (∃ reqs3, log' = ((log ++ reqs1) ++ reqs2) ++ reqs3 ∧
                   length reqs3 = length (filter (λ r, wants_reply r = true) analyzed))
    as (reqs3 & -> & Hreqs3).
  { pose proof Hrun3 as Hrun3'.
    unfold batch_draft in Hrun3'. rewrite batch_draft_loop_shared in Hrun3'.
    rewrite <- sum_list_flags. eapply stage_loop_sent; [|exact Hrun3'].
    intros r log0 Hin. apply draft_record_requests.
    rewrite Forall_forall in Hrec. by apply Hrec. }
  assert (length (filter (λ r, responds r = true) out) =
          length (filter (λ r, wants_reply r = true) analyzed)) as Hreplies.
  { unfold batch_draft in Hrun3.
    apply batch_draft_loop_spec in Hrun3 as (added & -> & Hadded).
    destruct (drafted_records analyzed added Hrec Hadded) as [_ <-].
    rewrite app_nil_l in Hperm. by rewrite Hperm. }
  exists final, (reqs1 ++ reqs2 ++ reqs3). split; [done|]. split; [done|]. split.
  - intros i j a b Hij Ha Hb. rewrite Hout in Ha, Hb.
    rewrite list_lookup_fmap in Ha, Hb.
    destruct (sorted_desc keyed !! i) as [x|] eqn:Hx; [|done].
    destruct (sorted_desc keyed !! j) as [y|] eqn:Hy; [|done].
    injection Ha as <-. injection Hb as <-.
    exists x.1, y.1. rewrite Forall_forall in Hkeys.
    split; [by apply Hkeys, (list_elem_of_lookup_2 _ i)|].
    split; [by apply Hkeys, (list_elem_of_lookup_2 _ j)|].
    apply key_lt_false.
    exact (sorted_lookup_lt not_below _ i j x y (sorted_desc_sorted keyed) Hij Hx Hy).
  - split; [by rewrite <- !app_assoc|].
    rewrite !length_app, Hreplies. lia.
Qed.

(** X24: how a run of [analyze_emails] ends. Without an API key (unset
    or empty) it shows the configuration error and neither fetches nor
    asks the model; an error of the fetch is shown and an empty inbox
    gives the warning, the session staying as it was. With messages
    fetched, the session's [emails] is the fetched list whether the
    analysis succeeds or not; on success [analyzed_emails] is the sorted
    result, one record per message, and the page is rerun; otherwise
    [analyzed_emails] keeps its old value and the error shown is the
    configuration error, since on messages every failure of a stage is
    a [ValueError] and the sort does not fail. *)
Theorem analyze_emails_outcomes (api_key : option pystr) (gmail : option gmail_service)
    (num_emails : Z) (state : session) (log : list request) (key : pystr) :
  api_key = Some key → key ≠ [] →
  (∀ unset, unset = None ∨ unset = Some [] →
     analyze_emails unset gmail num_emails state log =
     (state,
      Error (u "❌ 설정 오류: " ++
             (u "OPENAI_API_KEY가 설정되지 않았습니다. " ++ u ".env 파일을 확인하세요.")),
      log)) ∧
  (∀ e, get_emails gmail num_emails = Raise e →
        analyze_emails api_key gmail num_emails state log = (state, report e, log)) ∧
  (get_emails gmail num_emails = Ok [] →
   analyze_emails api_key gmail num_emails state log =
   (state, Warning (u "받은메일함에 이메일이 없습니다."), log)) ∧
  (∀ emails,
     get_emails gmail num_emails = Ok emails → emails ≠ [] → Forall is_message emails →
     ∃ state' shown log',
       analyze_emails api_key gmail num_emails state log = (state', shown, log') ∧
       st_emails state' = emails ∧
       ((∃ out, run_stages emails log = (Ok out, log') ∧ shown = Rerun ∧
                st_analyzed_emails state' = out ∧ length out = length emails) ∨
        (∃ e, run_stages emails log = (Raise e, log') ∧
              shown = Error (u "❌ 설정 오류: " ++ exn_msg e) ∧
              st_analyzed_emails state' = st_analyzed_emails state))).
Proof.
  intros -> Hkey.
  assert (LLMHandler_init (Some key) = Ok tt) as Hinit.
  { unfold LLMHandler_init. cbv zeta. by destruct key. }
  split_and!.
  - intros unset Hunset.
    assert (LLMHandler_init unset =
            Raise (Exn ValueError
                     (u "OPENAI_API_KEY가 설정되지 않았습니다. " ++
                      u ".env 파일을 확인하세요."))) as Hmissing
      by (destruct Hunset as [-> | ->]; reflexivity).
    unfold analyze_emails. rewrite Hmissing. unfold report. cbn [exn_cls exn_msg].
    reflexivity.
  - intros e Hfetch. unfold analyze_emails. by rewrite Hinit, Hfetch.
  - intros Hfetch. unfold analyze_emails. by rewrite Hinit, Hfetch.
  - intros emails Hfetch Hne Hall. unfold analyze_emails. rewrite Hinit, Hfetch.
    replace (negb (Py.truthy (PList (PDict <$> emails)))) with false
      by (by destruct emails).
    cbv zeta. pose proof (run_stages_outcome emails log Hall) as Hout.
    destruct (run_stages emails log) as [[out|e] log'].
    + eexists _, _, _. split; [done|]. split; [done|]. left. exists out.
      split; [done|]. split; [done|]. split; [done|].
      destruct Hout as (classified & analyzed & final & log1 & log2 &
                        _ & _ & _ & _ & _ & Hfinal & Hsort).
      destruct (sort_by_priority_keyed final out Hsort) as (_ & _ & _ & _ & Hperm).
      by rewrite Hperm, (Forall2_length _ _ _ Hfinal).
    + eexists _, _, _. split; [done|]. split; [done|]. right. exists e.
      split; [done|]. split; [|done]. unfold report. by rewrite Hout.
Qed.

Lemma factors_search_needs_label (s : pystr) :
  contains (u "요인") s = false →
  Re.search (Re.labelled is_space
               (Re.Seq (Re.Lit (u "주요")) (Re.Seq (Re.Star is_space) (Re.Lit (u "요인"))))
               Re.dot) s = None.
Proof.
  intros Hno. destruct (Re.search _ s) as [g|] eqn:Hs; [|done].
  apply search_sound in Hs as (pre & a & rest & g' & -> & Hp & _).
  destruct Hp as (a1 & g1 & a2 & g2 & -> & Hlabel & _).
  destruct Hlabel as (b1 & h1 & b2 & h2 & -> & _ & Hrest & _).
  destruct Hrest as (b3 & h3 & b4 & h4 & -> & _ & [-> _] & _).
  apply not_true_iff_false in Hno. destruct Hno. apply contains_spec.
  exists (pre ++ b1 ++ b3), (a2 ++ rest). rewrite <- !app_assoc. done.
Qed.

(** X25: what [analyze] makes of an answer. An answer without the label
    ['우선순위'] is refused with a [ValueError]; in a result that is
    returned the priority is the lowercased word that follows the label,
    optional whitespace, a colon and optional whitespace in the answer,
    and the factors are an empty list when the answer does not have the
    word ['요인']. When a space is neither a word character nor a colon,
    the word is the one at the first place of the answer where the label,
    optional spaces, a colon, optional spaces and a word stand, taken
    whole; it is the only such word, and it decides the outcome:
    [analyze] returns a result with its lowercase as priority when that
    is a key of [PRIORITY_LEVELS], and raises a [ValueError] when it is
    not, or when the answer has no such place. *)
Theorem analyze_reads_the_labelled_priority (email classification : pydict)
    (log : list request) (text : pystr) :
  is_message email →
  (∀ req, service log req = Content (Some text)) →
  (contains (u "우선순위") (strip is_space text) = false →
   ∃ msg, (analyze email (PDict classification) log).1 = Raise (Exn ValueError msg)) ∧
  (∀ p, (analyze email (PDict classification) log).1 = Ok p →
        ∃ word,
          labelled_value (u "우선순위") is_word (strip is_space text) word ∧
          p !! u "priority" = Some (PStr (str_lower word)) ∧
          str_lower word ∈ [u "high"; u "medium"; u "low"] ∧
          (contains (u "요인") (strip is_space text) = false →
           p !! u "factors" = Some (PList []))) ∧
  (spaces_apart is_word →
   (∀ p, (analyze email (PDict classification) log).1 = Ok p →
         ∃ word,
           first_labelled_value (u "우선순위") is_word (strip is_space text) word ∧
           str_lower word ∈ PRIORITY_LEVELS.*1 ∧
           p !! u "priority" = Some (PStr (str_lower word))) ∧
   (∀ word,
      first_labelled_value (u "우선순위") is_word (strip is_space text) word →
      (∀ other,
         first_labelled_value (u "우선순위") is_word (strip is_space text) other →
         other = word) ∧
      (str_lower word ∈ PRIORITY_LEVELS.*1 →
       ∃ p, (analyze email (PDict classification) log).1 = Ok p ∧
            p !! u "priority" = Some (PStr (str_lower word))) ∧
      (str_lower word ∉ PRIORITY_LEVELS.*1 →
       ∃ msg, (analyze email (PDict classification) log).1 =
              Raise (Exn ValueError msg))) ∧
   ((∀ word, ¬ first_labelled_value (u "우선순위") is_word (strip is_space text) word) →
    ∃ msg, (analyze email (PDict classification) log).1 = Raise (Exn ValueError msg))).
Proof.
  intros Hmsg Htext. destruct (analyze_run email classification log Hmsg) as [req ->].
  rewrite Htext. cbn [completion fst]. set (answer := strip is_space text).
  split; [|split].
  - intros Hno. unfold parse_priority. cbv zeta.
    rewrite labelled_search_needs_label by done. cbn [fst rejected Py.truthy negb].
    by eexists.
  - intros p.
    destruct (rejected (parse_priority answer).1 _) as [[|]|e'] eqn:Hrej; try done.
    apply rejected_false in Hrej as (s & Hs & Hin).
    destruct (_calculate_urgency_score email _) as [score|e']; [|done].
    intros [= <-]. unfold parse_priority in *. cbv zeta in *. cbn [fst snd] in *.
    destruct (Re.search (Re.labelled is_space (Re.Lit (u "우선순위")) is_word) answer)
      as [word|] eqn:Hword; [|done].
    injection Hs as <-.
    exists word. split; [by apply labelled_search_sound|]. split; [by dict_lookup|].
    split; [revert Hin; by vm_compute (PRIORITY_LEVELS.*1)|].
    intros Hno. rewrite factors_search_needs_label by done. by dict_lookup.
  - intros Hapart.
    pose proof (λ g, labelled_search_first (u "우선순위") is_word answer g Hapart) as Hfirst.
    assert (∀ word,
              Re.search (Re.labelled is_space (Re.Lit (u "우선순위")) is_word) answer =
                Some word →
              (parse_priority answer).1 = PStr (str_lower word)) as Hsome.
    { intros word Hword. unfold parse_priority. cbv zeta. by rewrite Hword. }
    split; [|split].
    + intros p.
      destruct (rejected (parse_priority answer).1 _) as [[|]|e'] eqn:Hrej; try done.
      apply rejected_false in Hrej as (s & Hs & Hin).
      destruct (_calculate_urgency_score email _) as [score|e']; [|done].
      intros [= <-].
      destruct (Re.search (Re.labelled is_space (Re.Lit (u "우선순위")) is_word) answer)
        as [word|] eqn:Hword.
      * rewrite (Hsome word eq_refl) in Hs. injection Hs as <-.
        exists word. split; [by apply Hfirst|]. split; [done|]. by dict_lookup.
      * unfold parse_priority in Hs. cbv zeta in Hs. by rewrite Hword in Hs.
    + intros word Hw. pose proof (Hsome word (proj2 (Hfirst word) Hw)) as ->.
      split; [|split].
      * intros other Ho. by apply (first_labelled_value_unique _ _ _ _ _ Hapart Ho Hw).
      * intros Hin.
        rewrite rejected_in by (by try apply priority_key_nonempty).
        destruct (urgency_score_bounds email (str_lower word) Hmsg) as (score & -> & _).
        eexists. split; [done|]. by dict_lookup.
      * intros Hout. rewrite rejected_true; [by eexists|by eauto|].
        intros s Hs [= Heq]. by subst s.
    + intros Hnone. unfold parse_priority. cbv zeta.
      destruct (Re.search (Re.labelled is_space (Re.Lit (u "우선순위")) is_word) answer)
        as [word|] eqn:Hword.
      * destruct (Hnone word). by apply Hfirst.
      * cbn [fst rejected Py.truthy negb]. by eexists.
Qed.

(** ** The page of results *)

Lemma count_where_spec (test : pydict → result bool) (b : pydict → bool)
    (l : list pydict) (total : Z) :
  Forall (λ email, test email = Ok (b email)) l →
  count_where test l total =
  Ok (total + Z.of_nat (length (filter (λ email, b email = true) l)))%Z.
Proof.
  intros Hl. revert total. induction Hl as [|email l He _ IH]; intros total.
  - simpl. f_equal. lia.
  - cbn [count_where]. rewrite He. cbn [mbind result_bind]. rewrite IH, filter_cons.
    destruct (b email); simpl; f_equal; lia.
Qed.

Lemma filtered_emails_spec (category_filter priority_filter : list pystr)
    (l : list pydict) :
  Forall (λ email, is_ok (category_of email) = true ∧ is_ok (priority_of email) = true) l →
  filtered_emails category_filter priority_filter l =
  Ok (filter (λ email, reads_one_of category_of category_filter email = true ∧
                       reads_one_of priority_of priority_filter email = true) l).
Proof.
  induction 1 as [|email l [Hc Hp] _ IH]; [done|].
  cbn [filtered_emails]. rewrite IH, filter_cons.
  unfold reads_one_of, reads. unfold category_of, priority_of, field_value in *.
  destruct (Py.get (Py.dict_get email (u "classification") (PDict ∅)) _ _)
    as [category|] eqn:Hcat; [|done].
  destruct (Py.get (Py.dict_get email (u "priority_analysis") (PDict ∅)) _ _)
    as [priority|] eqn:Hpri; [|done].
  cbn [mbind result_bind]. unfold Py.in_str_list.
  destruct (existsb (λ k, Py.eq_str category k) category_filter) eqn:Hin1;
    cbn [mbind result_bind].
  - destruct (existsb (λ k, Py.eq_str priority k) priority_filter) eqn:Hin2.
    + by rewrite decide_True by done.
    + rewrite decide_False; [done|]. by intros [_ ?].
  - rewrite decide_False; [done|]. by intros [? _].
Qed.

Lemma filter_all {A} (P : A → Prop) `{∀ x, Decision (P x)} (l : list A) :
  Forall P l → filter P l = l.
Proof.
  induction 1 as [|x l Hx _ IH]; [done|]. by rewrite filter_cons, decide_True, IH.
Qed.

Lemma processed_reads (email r : pydict) :
  processed email r →
  ∃ category priority,
    category ∈ [u "urgent"; u "work"; u "marketing"; u "internal"; u "spam"] ∧
    priority ∈ [u "high"; u "medium"; u "low"] ∧
    (∀ dflt, Py.get (Py.dict_get r (u "classification") (PDict ∅)) (u "category") dflt
             = Ok (PStr category)) ∧
    (∀ dflt, Py.get (Py.dict_get r (u "priority_analysis") (PDict ∅)) (u "priority") dflt
             = Ok (PStr priority)) ∧
    is_drafted r.
Proof.
  intros (c & p & d & category & priority & score & -> & Hc & Hin & Hp & Hpin & _).
  exists category, priority. split; [done|]. split; [done|]. split_and!.
  - intros dflt. unfold Py.dict_get.
    rewrite !lookup_insert_ne by (by vm_compute). rewrite lookup_insert_eq.
    cbn [default from_option id Py.get]. unfold Py.dict_get. by rewrite Hc.
  - intros dflt. unfold Py.dict_get.
    rewrite lookup_insert_ne by (by vm_compute). rewrite lookup_insert_eq.
    cbn [default from_option id Py.get]. unfold Py.dict_get. by rewrite Hp.
  - unfold is_drafted. by rewrite lookup_insert_eq.
Qed.

(** X26: the page agrees with the statistics. For records the pipeline
    has processed, the metrics [display_results] shows are the number of
    records, the count [get_priority_stats] gives for high, the
    [need_response] of [get_response_stats] and the count
    [get_category_stats] gives for spam; the cards shown are, in order,
    the records whose category and priority are both selected, and with
    every option selected, as the filters are at first, they are all the
    records. *)
Theorem display_results_agrees_with_statistics (state : session) :
  Forall (λ r, ∃ email, processed email r) (st_analyzed_emails state) →
  let records := st_analyzed_emails state in
  ∃ by_category by_priority responses high need spam,
    get_category_stats records = Ok by_category ∧
    by_category !! u "spam" = Some spam ∧
    get_priority_stats records = Ok by_priority ∧
    by_priority !! u "high" = Some high ∧
    get_response_stats records = Ok responses ∧
    responses !! u "need_response" = Some (PInt need) ∧
    (∀ category_filter priority_filter,
       display_results category_filter priority_filter state =
       Ok (Z.of_nat (length records), high, need, spam,
           filter (λ email, reads_one_of category_of category_filter email = true ∧
                            reads_one_of priority_of priority_filter email = true)
                  records)) ∧
    display_results EMAIL_CATEGORIES.*1 PRIORITY_LEVELS.*1 state =
      Ok (Z.of_nat (length records), high, need, spam, records).
Proof.
  intros Hall records. fold records in Hall.
  assert (Forall (λ r, ∃ category priority,
                    category ∈ [u "urgent"; u "work"; u "marketing"; u "internal"; u "spam"] ∧
                    priority ∈ [u "high"; u "medium"; u "low"] ∧
                    (∀ dflt, Py.get (Py.dict_get r (u "classification") (PDict ∅))
                                    (u "category") dflt = Ok (PStr category)) ∧
                    (∀ dflt, Py.get (Py.dict_get r (u "priority_analysis") (PDict ∅))
                                    (u "priority") dflt = Ok (PStr priority)) ∧
                    is_drafted r) records) as Hreads.
  { eapply Forall_impl; [exact Hall|]. intros r [email Hr]. by eapply processed_reads. }
  clear Hall.
  assert (Forall (countable_by category_of) records) as Hc.
  { eapply Forall_impl; [exact Hreads|]. intros r (category & _ & _ & _ & Hcat & _).
    exists (PStr category). split; [apply Hcat|done]. }
  assert (Forall (countable_by priority_of) records) as Hp.
  { eapply Forall_impl; [exact Hreads|]. intros r (_ & priority & _ & _ & _ & Hpri & _).
    exists (PStr priority). split; [apply Hpri|done]. }
  assert (Forall is_drafted records) as Hd.
  { eapply Forall_impl; [exact Hreads|]. by intros r (_ & _ & _ & _ & _ & _ & ?). }
  destruct (category_stats_tally records Hc) as (by_category & Hbycat & Hcounts).
  destruct (priority_stats_tally records Hp) as (by_priority & Hbypri & Hpcounts).
  exists by_category, by_priority.
  eexists _, (tally priority_of (u "high") records),
          (Z.of_nat (length (filter (λ email, responds email = true) records))),
          (tally category_of (u "spam") records).
  split; [done|]. split; [apply Hcounts; set_solver|].
  split; [done|]. split; [apply Hpcounts; set_solver|].
  unfold get_response_stats. rewrite count_need_response_spec by done.
  cbn [mbind result_bind]. rewrite Z.add_0_l.
  split; [done|]. split; [by dict_lookup|].
  assert (∀ category_filter priority_filter,
            display_results category_filter priority_filter state =
            Ok (Z.of_nat (length records), tally priority_of (u "high") records,
                Z.of_nat (length (filter (λ email, responds email = true) records)),
                tally category_of (u "spam") records,
                filter (λ email, reads_one_of category_of category_filter email = true ∧
                                 reads_one_of priority_of priority_filter email = true)
                       records)) as Hshow.
  { intros category_filter priority_filter. unfold display_results. cbv zeta.
    fold records.
    assert (count_where
              (λ email,
                 priority ← Py.get (Py.dict_get email (u "priority_analysis") (PDict ∅))
                                   (u "priority") PNone;
                 Ok (Py.eq_str priority (u "high"))) records 0%Z =
            Ok (tally priority_of (u "high") records)) as ->.
    { rewrite (count_where_spec _ (λ email, reads priority_of (u "high") email));
        [by rewrite Z.add_0_l|].
      eapply Forall_impl; [exact Hreads|].
      intros r (_ & priority & _ & _ & _ & Hpri & _).
      unfold reads, priority_of, field_value.
      by rewrite (Hpri PNone), (Hpri (PStr (u "medium"))). }
    cbn [mbind result_bind].
    assert (count_where
              (λ email,
                 flag ← Py.get (Py.dict_get email (u "response_draft") (PDict ∅))
                               (u "should_respond") (PBool false);
                 Ok (Py.truthy flag)) records 0%Z =
            Ok (Z.of_nat (length (filter (λ email, responds email = true) records)))) as ->.
    { rewrite (count_where_spec _ responds); [by rewrite Z.add_0_l|].
      eapply Forall_impl; [exact Hd|]. intros r Hr.
      by destruct (drafted_flag r Hr) as (flag & -> & ->). }
    cbn [mbind result_bind].
    assert (count_where
              (λ email,
                 category ← Py.get (Py.dict_get email (u "classification") (PDict ∅))
                                   (u "category") PNone;
                 Ok (Py.eq_str category (u "spam"))) records 0%Z =
            Ok (tally category_of (u "spam") records)) as ->.
    { rewrite (count_where_spec _ (λ email, reads category_of (u "spam") email));
        [by rewrite Z.add_0_l|].
      eapply Forall_impl; [exact Hreads|].
      intros r (category & _ & _ & _ & Hcat & _).
      unfold reads, category_of, field_value.
      by rewrite (Hcat PNone), (Hcat (PStr (u "work"))). }
    cbn [mbind result_bind]. rewrite filtered_emails_spec; [done|].
    eapply Forall_impl; [exact Hreads|].
    intros r (category & priority & _ & _ & Hcat & Hpri & _).
    unfold category_of, priority_of, field_value. by rewrite Hcat, Hpri. }
  split; [exact Hshow|]. rewrite Hshow. do 2 f_equal.
  apply filter_all. eapply Forall_impl; [exact Hreads|].
  intros r (category & priority & Hin1 & Hin2 & Hcat & Hpri & _).
  unfold reads_one_of, reads, category_of, priority_of, field_value.
  rewrite Hcat, Hpri. split; apply existsb_exists.
  - exists category. split; [|by apply eq_str_true].
    apply list_elem_of_In. revert Hin1. by vm_compute (EMAIL_CATEGORIES.*1).
  - exists priority. split; [|by apply eq_str_true].
    apply list_elem_of_In. revert Hin2. by vm_compute (PRIORITY_LEVELS.*1).
Qed.

Lemma message_is_message (subject sender body : string) :
  is_message (Sample.message subject sender body).
Proof.
  exists (u subject), (u sender), (u body). unfold Sample.message.
  split_and!; by dict_lookup.
Qed.

Lemma pair_of_fst {A B} (p : A * B) (a : A) : p.1 = a → p = (a, p.2).
Proof. intros <-. by destruct p. Qed.

End Agents.

(** * Examples

    The theorems above, applied to the sample instances. *)

Import Sample.


Local Abbreviation invoice :=
  (message "Invoice 42" "Ann <ann@example.com>" "Please see the attached invoice.").
Local Abbreviation outage :=
  (message "URGENT: login error" "Bob <bob@example.com>" "Fix the bug asap, please.").
Local Abbreviation classify_with text :=
  (classify lower_ascii space_ascii word_ascii repr_opaque (answers text) model).
Local Abbreviation analyze_with text :=
  (analyze lower_ascii space_ascii word_ascii repr_opaque (answers text) model).
Local Abbreviation draft_with svc :=
  (draft_response space_ascii repr_opaque svc model).

Lemma stage_results_in_fixed_sets_witness :
  is_message invoice ∧
  (∃ category,
     (classify_with "카테고리: Work
이유: routine question" invoice []).1 =
       Ok (Py.dict_of [(u "category", PStr category);
                       (u "confidence", PFloat (Float.literal 85 100));
                       (u "reason", PStr (u "routine question"))]) ∧
     category ∈ [u "urgent"; u "work"; u "marketing"; u "internal"; u "spam"]) ∧
  (∃ msg, (classify_with "카테고리: newsletter" invoice []).1 =
          Raise (Exn ValueError msg)) ∧
  (∃ msg, (analyze_with "no label here" invoice (PDict ∅) []).1 =
          Raise (Exn ValueError msg)).
Proof.
  split; [apply message_is_message|]. split_and!.
  - assert ((classify_with "카테고리: Work
이유: routine question" invoice []).1 =
            Ok (Py.dict_of [(u "category", PStr (u "work"));
                            (u "confidence", PFloat (Float.literal 85 100));
                            (u "reason", PStr (u "routine question"))])) as Hrun
      by by_evaluation.
    destruct (stage_results_in_fixed_sets lower_ascii space_ascii word_ascii repr_opaque
                (answers "카테고리: Work
이유: routine question") model invoice ∅ [] (message_is_message _ _ _))
      as (Hok & _).
    destruct (Hok _ _ (pair_of_fst _ _ Hrun)) as (category & Hcat & Hin).
    exists category. split; [|done].
    vm_compute in Hcat. injection Hcat as <-. exact Hrun.
  - assert ((_classify_with_llm lower_ascii space_ascii word_ascii repr_opaque
               (answers "카테고리: newsletter") model invoice []).1 = Ok (PStr (u "newsletter"), u "LLM 분류 결과")) as Hrun
      by by_evaluation.
    destruct (stage_results_in_fixed_sets lower_ascii space_ascii word_ascii repr_opaque
                (answers "카테고리: newsletter") model invoice ∅ [] (message_is_message _ _ _))
      as (_ & _ & Hbad & _).
    destruct (Hbad _ _ _ (pair_of_fst _ _ Hrun)) as [msg Hmsg].
    { intros category Hin Heq. injection Heq as <-. vm_compute in Hin.
      repeat (apply elem_of_cons in Hin as [Hin|Hin]; [discriminate|]).
      by apply elem_of_nil in Hin. }
    exists msg. by rewrite Hmsg.
  - assert ((_analyze_with_llm lower_ascii space_ascii word_ascii repr_opaque (answers "no label here")
               model invoice (PDict ∅) []).1 = Ok (PNone, [])) as Hrun
      by by_evaluation.
    destruct (stage_results_in_fixed_sets lower_ascii space_ascii word_ascii repr_opaque
                (answers "no label here") model invoice ∅ [] (message_is_message _ _ _))
      as (_ & _ & _ & Hbad).
    destruct (Hbad _ _ _ (pair_of_fst _ _ Hrun)) as [msg Hmsg]; [done|].
    exists msg. by rewrite Hmsg.
Defined.

Lemma urgency_score_formula_witness :
  outage !! u "subject" = Some (PStr (u "URGENT: login error")) ∧
  outage !! u "body" = Some (PStr (u "Fix the bug asap, please.")) ∧
  Py.hashable (PStr (u "low")) = true ∧
  _calculate_urgency_score lower_ascii outage (PStr (u "low")) = Ok 8%Z ∧
  _calculate_urgency_score lower_ascii outage (PStr (u "high")) = Ok 10%Z.
Proof.
  assert (outage !! u "subject" = Some (PStr (u "URGENT: login error"))) as Hs
    by by_evaluation.
  assert (outage !! u "body" = Some (PStr (u "Fix the bug asap, please."))) as Hb
    by by_evaluation.
  split_and!; [done..| |].
  - destruct (urgency_score_formula lower_ascii outage _ _ (PStr (u "low")) Hs Hb eq_refl)
      as [-> _]. by_evaluation.
  - destruct (urgency_score_formula lower_ascii outage _ _ (PStr (u "high")) Hs Hb eq_refl)
      as [-> _]. by_evaluation.
Defined.

Lemma urgency_score_range_witness :
  outage !! u "subject" = Some (PStr (u "URGENT: login error")) ∧
  outage !! u "body" = Some (PStr (u "Fix the bug asap, please.")) ∧
  Py.hashable (PStr (u "medium")) = true ∧
  ∃ score : Z,
    _calculate_urgency_score lower_ascii outage (PStr (u "medium")) = Ok score ∧
    (0 ≤ score ≤ 10)%Z.
Proof.
  assert (outage !! u "subject" = Some (PStr (u "URGENT: login error"))) as Hs
    by by_evaluation.
  assert (outage !! u "body" = Some (PStr (u "Fix the bug asap, please."))) as Hb
    by by_evaluation.
  split_and!; [done..|].
  exact (urgency_score_range lower_ascii outage _ _ (PStr (u "medium")) Hs Hb eq_refl).
Defined.

Lemma select_tone_cases_witness :
  _select_tone (PStr (u "urgent")) (PStr (u "low")) = u "formal" ∧
  _select_tone (PStr (u "internal")) (PStr (u "medium")) = u "friendly" ∧
  _select_tone (PStr (u "work")) (PStr (u "high")) = u "formal" ∧
  _select_tone (PStr (u "work")) (PStr (u "medium")) = u "formal".
Proof.
  split_and!.
  - destruct (select_tone_cases (PStr (u "urgent")) (PStr (u "low"))) as (H & _).
    apply H. by left.
  - destruct (select_tone_cases (PStr (u "internal")) (PStr (u "medium"))) as (_ & H & _).
    by apply H.
  - destruct (select_tone_cases (PStr (u "work")) (PStr (u "high"))) as (H & _).
    apply H. by right.
  - destruct (select_tone_cases (PStr (u "work")) (PStr (u "medium"))) as (_ & _ & H).
    apply H; intros [= Heq]; vm_compute in Heq; discriminate Heq.
Defined.

Local Abbreviation inbox :=
  [analyzed "medium" 9; analyzed "high" 5; analyzed "low" 3; analyzed "high" 7;
   analyzed "medium" 9; (∅ : pydict)].

Lemma sort_by_priority_stable_descending_witness :
  Forall (λ x, is_ok (sort_key x) = true) inbox ∧
  ∃ out, sort_by_priority inbox = Ok out ∧ out ≡ₚ inbox ∧
         out = [analyzed "high" 7; analyzed "high" 5; analyzed "medium" 9;
                analyzed "medium" 9; ∅; analyzed "low" 3].
Proof.
  assert (Forall (λ x, is_ok (sort_key x) = true) inbox) as Hl.
  { repeat constructor; by_evaluation. }
  split; [done|].
  destruct (sort_by_priority_stable_descending inbox Hl)
    as [(out & Hout & Hperm & _) _].
  exists out. split; [done|]. split; [done|].
  assert (sort_by_priority inbox =
          Ok [analyzed "high" 7; analyzed "high" 5; analyzed "medium" 9;
              analyzed "medium" 9; ∅; analyzed "low" 3]) as Hrun by by_evaluation.
  rewrite Hrun in Hout. by injection Hout.
Defined.

Local Abbreviation labelled_as category :=
  (Py.dict_of [(u "category", PStr (u category))]).

Lemma draft_response_short_circuit_witness :
  invoice !! u "subject" = Some (PStr (u "Invoice 42")) ∧
  draft_with down invoice (PDict (labelled_as "spam")) (PDict ∅) [] =
    (Ok (Py.dict_of [(u "draft", PNone); (u "tone", PNone);
                     (u "suggested_subject", PNone);
                     (u "should_respond", PBool false);
                     (u "reason", PStr (u "답변이 필요하지 않은 이메일입니다."))]), []) ∧
  ∃ draft,
    draft ≠ [] ∧
    (draft_with (answers "  Thank you, the invoice is paid. ") invoice
                (PDict (labelled_as "internal")) (PDict ∅) []).1 =
    Ok (Py.dict_of [(u "draft", PStr draft); (u "tone", PStr (u "friendly"));
                    (u "suggested_subject", PStr (u "Re: Invoice 42"));
                    (u "should_respond", PBool true);
                    (u "reason", PStr (u "답변 초안이 생성되었습니다."))]).
Proof.
  assert (invoice !! u "subject" = Some (PStr (u "Invoice 42"))) as Hs by by_evaluation.
  split; [done|]. split.
  - apply (draft_response_short_circuit space_ascii repr_opaque down model
             invoice _ (labelled_as "spam") ∅ [] Hs).
    left. by_evaluation.
  - assert ((draft_with (answers "  Thank you, the invoice is paid. ") invoice
                        (PDict (labelled_as "internal")) (PDict ∅) []).1 =
            Ok (Py.dict_of [(u "draft", PStr (u "Thank you, the invoice is paid."));
                            (u "tone", PStr (u "friendly"));
                            (u "suggested_subject", PStr (u "Re: Invoice 42"));
                            (u "should_respond", PBool true);
                            (u "reason", PStr (u "답변 초안이 생성되었습니다."))])) as Hrun
      by by_evaluation.
    destruct (draft_response_short_circuit space_ascii repr_opaque
                (answers "  Thank you, the invoice is paid. ") model
                invoice _ (labelled_as "internal") ∅ [] Hs) as [_ Hother].
    destruct (Hother ltac:(by vm_compute) ltac:(by vm_compute) _ _ (pair_of_fst _ _ Hrun))
      as (draft & Hdraft & Hd).
    exists draft. split; [done|]. rewrite Hrun, Hd. reflexivity.
Defined.

Local Abbreviation work_result :=
  (Py.dict_of [(u "category", PStr (u "work"));
               (u "confidence", PFloat (Float.literal 85 100));
               (u "reason", PStr (u "LLM 분류 결과"))]).
Local Abbreviation batch_classify_with text :=
  (batch_classify lower_ascii space_ascii word_ascii repr_opaque (answers text) model).

Local Abbreviation high_result :=
  (Py.dict_of [(u "priority", PStr (u "high"));
               (u "urgency_score", PInt 8);
               (u "factors", PList [PStr (u "deadline"); PStr (u "customer")])]).
Local Abbreviation reply_result :=
  (Py.dict_of [(u "draft", PStr (u "Thank you, the invoice is paid."));
               (u "tone", PStr (u "formal"));
               (u "suggested_subject", PStr (u "Re: Invoice 42"));
               (u "should_respond", PBool true);
               (u "reason", PStr (u "답변 초안이 생성되었습니다."))]).
Local Abbreviation classified := (<[u "classification" := PDict work_result]> invoice).
Local Abbreviation prioritized := (<[u "priority_analysis" := PDict high_result]> classified).
Local Abbreviation batch_analyze_with text :=
  (batch_analyze lower_ascii space_ascii word_ascii repr_opaque (answers text) model).
Local Abbreviation batch_draft_with text :=
  (batch_draft space_ascii repr_opaque (answers text) model).

Lemma batch_stages_extend_records_witness :
  (∃ out,
     (batch_classify_with "카테고리: work" [invoice; outage] []).1 = Ok out ∧
     batch_extended (u "classification") (classify_with "카테고리: work")
                    [invoice; outage] out) ∧
  (∃ out,
     (batch_analyze_with "우선순위: HIGH
주요 요인: deadline, customer" [classified] []).1 = Ok out ∧
     out = [prioritized] ∧
     prioritized !! u "classification" = classified !! u "classification") ∧
  (∃ out,
     (batch_draft_with "  Thank you, the invoice is paid. " [prioritized] []).1 = Ok out ∧
     out = [<[u "response_draft" := PDict reply_result]> prioritized] ∧
     (<[u "response_draft" := PDict reply_result]> prioritized) !! u "priority_analysis" =
       prioritized !! u "priority_analysis").
Proof.
  split_and!.
  - exists [classified; <[u "classification" := PDict work_result]> outage].
    assert ((batch_classify_with "카테고리: work" [invoice; outage] []).1 =
            Ok [classified; <[u "classification" := PDict work_result]> outage]) as Hrun
      by by_evaluation.
    split; [done|].
    exact (proj1 (batch_stages_extend_records lower_ascii space_ascii word_ascii repr_opaque
                    (answers "카테고리: work") model _ _ _ _) (pair_of_fst _ _ Hrun)).
  - exists [prioritized].
    assert ((batch_analyze_with "우선순위: HIGH
주요 요인: deadline, customer" [classified] []).1 = Ok [prioritized]) as Hrun
      by by_evaluation.
    split; [done|]. split; [done|].
    destruct (proj1 (proj2 (batch_stages_extend_records lower_ascii space_ascii word_ascii
                              repr_opaque (answers "우선순위: HIGH
주요 요인: deadline, customer") model _ _ _ _)) (pair_of_fst _ _ Hrun)) as [_ Hkept].
    by apply (Hkept 0%nat).
  - exists [<[u "response_draft" := PDict reply_result]> prioritized].
    assert ((batch_draft_with "  Thank you, the invoice is paid. " [prioritized] []).1 =
            Ok [<[u "response_draft" := PDict reply_result]> prioritized]) as Hrun
      by by_evaluation.
    split; [done|]. split; [done|].
    destruct (proj2 (proj2 (batch_stages_extend_records lower_ascii space_ascii word_ascii
                              repr_opaque (answers "  Thank you, the invoice is paid. ")
                              model _ _ _ _)) (pair_of_fst _ _ Hrun)) as [_ Hkept].
    by apply (Hkept 0%nat).
Defined.

(** A record that already carries a classification is classified again:
    the old classification is replaced, so the result neither contains
    every key-value pair of the input nor has a new key. *)
Lemma batch_classify_replaces_existing_key :
  ∃ email out,
    (batch_classify_with "카테고리: work" [email] []).1 = Ok [out] ∧
    email !! u "classification" = Some (PDict (labelled_as "spam")) ∧
    out !! u "classification" = Some (PDict work_result) ∧
    ¬ (email ⊆ out) ∧
    dom out = dom email.
Proof.
  exists (<[u "classification" := PDict (labelled_as "spam")]> invoice),
         (<[u "classification" := PDict work_result]>
            (<[u "classification" := PDict (labelled_as "spam")]> invoice)).
  split; [by_evaluation|]. split; [by apply lookup_insert_eq|].
  split; [by apply lookup_insert_eq|]. split.
  - intros Hsub.
    pose proof (lookup_weaken _ _ (u "classification") _ (lookup_insert_eq _ _ _) Hsub) as Hold.
    rewrite lookup_insert_eq in Hold.
    apply (f_equal (λ o : option pyval,
                      match o with
                      | Some (PDict d) => d !! u "category"
                      | _ => None
                      end)) in Hold.
    vm_compute in Hold. discriminate Hold.
  - rewrite !dom_insert_L. set_solver.
Qed.

Local Abbreviation replies := [drafted true; drafted true; drafted false; drafted true].

Local Abbreviation one_in_three := [drafted true; drafted false; drafted false].

Lemma response_stats_counts_witness :
  Forall is_drafted replies ∧
  (∃ stats,
     get_response_stats replies = Ok stats ∧
     stats !! u "total" = Some (PInt 4) ∧
     stats !! u "need_response" = Some (PInt 3) ∧
     stats !! u "no_response" = Some (PInt 1) ∧
     stats !! u "response_rate" = Some (PFloat (Float.of_Z 75))) ∧
  Forall is_drafted one_in_three ∧
  ∃ stats,
    get_response_stats one_in_three = Ok stats ∧
    stats !! u "need_response" = Some (PInt 1) ∧
    stats !! u "response_rate" = Some (PFloat (Float.literal 333 10)).
Proof.
  assert (Forall is_drafted replies) as Hl by (repeat constructor).
  assert (Forall is_drafted one_in_three) as Hl3 by (repeat constructor).
  split; [done|]. split; [|split; [done|]].
  - destruct (response_stats_counts replies Hl)
      as (stats & need & Hrun & Hneed & _ & Htotal & Hyes & Hno & _ & _ & Hrate & _).
    assert (need = 3%Z) as -> by (rewrite Hneed; by_evaluation).
    exists stats. split_and!; [done..|]. by apply Hrate.
  - destruct (response_stats_counts one_in_three Hl3)
      as (stats & need & Hrun & Hneed & _ & _ & Hyes & _ & _ & _ & _ & _ & Hexact).
    assert (need = 1%Z) as -> by (rewrite Hneed; by_evaluation).
    destruct Hexact as (tenths & [Hnear _] & _ & Hrate); [done|simpl; lia|].
    change (Z.of_nat (length one_in_three)) with 3%Z in Hnear.
    assert (tenths = 333%Z) as -> by lia.
    exists stats. split; [exact Hrun|]. split; [exact Hyes|exact Hrate].
Defined.

Lemma refine_draft_falls_back_witness :
  unavailable space_ascii down [] ∧
  (refine_draft space_ascii down model (u "Dear Ann,") (u "shorter") []).1 =
    Ok (u "Dear Ann,") ∧
  (refine_draft space_ascii (answers "  Hi Ann,
") model (u "Dear Ann,") (u "shorter") []).1 = Ok (u "Hi Ann,") ∧
  ∃ msg, (classify lower_ascii space_ascii word_ascii repr_opaque down model invoice []).1 =
         Raise (Exn ValueError msg).
Proof.
  assert (unavailable space_ascii down []) as Hdown by (by intros req).
  split; [done|]. split_and!.
  - destruct (refine_draft_falls_back lower_ascii space_ascii word_ascii repr_opaque
                down model (u "Dear Ann,") (u "shorter") []) as [-> _]. reflexivity.
  - destruct (refine_draft_falls_back lower_ascii space_ascii word_ascii repr_opaque
                (answers "  Hi Ann,
") model (u "Dear Ann,") (u "shorter") []) as [-> _]. by_evaluation.
  - destruct (refine_draft_falls_back lower_ascii space_ascii word_ascii repr_opaque
                down model (u "Dear Ann,") (u "shorter") []) as [_ Hfatal].
    destruct (Hfatal Hdown) as (_ & _ & Hclassify & _).
    apply Hclassify, message_is_message.
Defined.

Local Abbreviation mixed :=
  [(∅ : pydict);
   <[u "classification" := PDict (labelled_as "spam")]> invoice;
   <[u "classification" := PDict (labelled_as "newsletter")]> outage].

Lemma stats_count_fixed_values_only_witness :
  Forall (countable_by category_of) mixed ∧
  Forall (countable_by priority_of) mixed ∧
  ∃ stats,
    get_category_stats mixed = Ok stats ∧
    stats !! u "urgent" = Some 0%Z ∧ stats !! u "work" = Some 1%Z ∧
    stats !! u "marketing" = Some 0%Z ∧ stats !! u "internal" = Some 0%Z ∧
    stats !! u "spam" = Some 1%Z.
Proof.
  assert (Forall (countable_by category_of) mixed) as Hc.
  { repeat constructor.
    - exists (PStr (u "work")). split; by_evaluation.
    - exists (PStr (u "spam")). split; by_evaluation.
    - exists (PStr (u "newsletter")). split; by_evaluation. }
  assert (Forall (countable_by priority_of) mixed) as Hp.
  { repeat constructor; exists (PStr (u "medium")); split; by_evaluation. }
  split; [done|]. split; [done|].
  destruct (stats_count_fixed_values_only mixed Hc Hp)
    as ((stats & Hrun & Hdom & Hcount) & _).
  exists stats. split; [done|].
  split_and!; rewrite Hcount by (rewrite Hdom; set_solver); f_equal; by_evaluation.
Defined.

Lemma message_is_record (subject sender body : string) :
  is_record (message subject sender body).
Proof.
  split; [apply message_is_message|]. split; exists ∅; by_evaluation.
Qed.

Lemma stages_send_one_request_witness :
  is_message invoice ∧
  (∃ req, (classify_with "카테고리: work" invoice []).2 = [req]) ∧
  (∃ req, (analyze_with "카테고리: work" invoice (PDict (labelled_as "spam")) []).2 = [req]) ∧
  (draft_with (answers "카테고리: work") invoice (PDict (labelled_as "spam")) (PDict ∅) []).2
    = [].
Proof.
  split; [apply message_is_message|].
  destruct (stages_send_one_request lower_ascii space_ascii word_ascii repr_opaque
              (answers "카테고리: work") model invoice (labelled_as "spam") ∅ []
              (message_is_message _ _ _)) as (Hclassify & Hanalyze & Hdraft).
  split; [exact Hclassify|]. split; [exact Hanalyze|].
  exact (Hdraft <:
    (draft_with (answers "카테고리: work") invoice (PDict (labelled_as "spam")) (PDict ∅) []).2
    = []).
Defined.

Local Abbreviation long_mail tail :=
  (<[u "body" := PStr (repeat 120%N 600 ++ u tail)]> invoice).

Lemma stages_read_a_prefix_of_the_body_witness :
  is_message (long_mail "first ending") ∧
  long_mail "first ending" !! u "body" = Some (PStr (repeat 120%N 600 ++ u "first ending")) ∧
  take 500 (repeat 120%N 600 ++ u "first ending") =
    take 500 (repeat 120%N 600 ++ u "second ending") ∧
  classify_with "카테고리: work"
    (<[u "body" := PStr (repeat 120%N 600 ++ u "second ending")]> (long_mail "first ending")) [] =
  classify_with "카테고리: work" (long_mail "first ending") [].
Proof.
  assert (is_message (long_mail "first ending")) as Hmsg.
  { exists (u "Invoice 42"), (u "Ann <ann@example.com>"),
           (repeat 120%N 600 ++ u "first ending").
    split_and!; by_evaluation. }
  assert (long_mail "first ending" !! u "body" =
          Some (PStr (repeat 120%N 600 ++ u "first ending"))) as Hbody by by_evaluation.
  assert (take 500 (repeat 120%N 600 ++ u "first ending") =
          take 500 (repeat 120%N 600 ++ u "second ending")) as Hsame by by_evaluation.
  split; [done|]. split; [done|]. split; [done|].
  exact (proj1 (stages_read_a_prefix_of_the_body lower_ascii space_ascii word_ascii
                  repr_opaque (answers "카테고리: work") model _ _
                  (repeat 120%N 600 ++ u "second ending") ∅ ∅ [] Hmsg Hbody) Hsame).
Defined.

Lemma stages_wrap_the_service_error_witness :
  is_message invoice ∧
  (∀ req, down [] req = Failure (Exn ServiceError (u "connection refused"))) ∧
  (classify lower_ascii space_ascii word_ascii repr_opaque down model invoice []).1 =
    Raise (Exn ValueError (u "LLM 분류 오류: " ++ u "connection refused")) ∧
  (analyze lower_ascii space_ascii word_ascii repr_opaque down model invoice (PDict ∅) []).1 =
    Raise (Exn ValueError (u "LLM 우선순위 분석 오류: " ++ u "connection refused")).
Proof.
  split; [apply message_is_message|]. split; [done|].
  destruct (stages_wrap_the_service_error lower_ascii space_ascii word_ascii repr_opaque
              down model invoice ∅ ∅ [] (Exn ServiceError (u "connection refused"))
              (message_is_message _ _ _) (λ _, eq_refl)) as (Hclassify & Hanalyze & _).
  split; [exact Hclassify|exact Hanalyze].
Defined.

Lemma ascii_spaces_apart : spaces_apart space_ascii word_ascii.
Proof.
  intros c Hc. unfold space_ascii in Hc. unfold word_ascii, Re.colon.
  rewrite orb_true_iff, andb_true_iff, N.eqb_eq, !N.leb_le in Hc.
  split; apply not_true_is_false;
    rewrite ?orb_true_iff, ?andb_true_iff, ?N.leb_le, ?N.eqb_eq; lia.
Qed.

Lemma classify_reads_the_labelled_category_witness :
  is_message invoice ∧
  (∀ req, answers "카테고리: Work
이유: 카테고리: spam was considered" [] req = Content (Some (u "카테고리: Work
이유: 카테고리: spam was considered"))) ∧
  spaces_apart space_ascii word_ascii ∧
  ∃ word reason,
    first_labelled_value space_ascii (u "카테고리") word_ascii
      (strip space_ascii (u "카테고리: Work
이유: 카테고리: spam was considered")) word ∧
    (∀ other,
       first_labelled_value space_ascii (u "카테고리") word_ascii
         (strip space_ascii (u "카테고리: Work
이유: 카테고리: spam was considered")) other → other = word) ∧
    (classify_with "카테고리: Work
이유: 카테고리: spam was considered" invoice []).1 =
      Ok (Py.dict_of [(u "category", PStr (lower_ascii word));
                      (u "confidence", PFloat (Float.literal 85 100));
                      (u "reason", PStr reason)]).
Proof.
  split; [apply message_is_message|]. split; [done|].
  split; [exact ascii_spaces_apart|].
  assert ((classify_with "카테고리: Work
이유: 카테고리: spam was considered" invoice []).1 =
          Ok (Py.dict_of [(u "category", PStr (u "work"));
                          (u "confidence", PFloat (Float.literal 85 100));
                          (u "reason", PStr (u "카테고리: spam was considered"))])) as Hrun
    by by_evaluation.
  destruct (classify_reads_the_labelled_category lower_ascii space_ascii word_ascii
              repr_opaque (answers "카테고리: Work
이유: 카테고리: spam was considered") model invoice [] (u "카테고리: Work
이유: 카테고리: spam was considered") (message_is_message _ _ _) (λ _, eq_refl)) as (_ & _ & Hfirst).
  destruct (Hfirst ascii_spaces_apart) as (Hread & Hword & _).
  destruct (Hread _ Hrun) as (word & reason & Hw & _ & Hc).
  exists word, reason. split; [exact Hw|].
  split; [exact (proj1 (Hword word Hw))|]. rewrite Hrun. by f_equal.
Defined.

Local Abbreviation top_result :=
  (Py.dict_of [(u "priority", PStr (u "high"));
               (u "urgency_score", PInt 10);
               (u "factors", PList [PStr (u "deadline"); PStr (u "customer")])]).

Lemma analyze_record_is_sortable_witness :
  is_message outage ∧
  (analyze_with "우선순위: HIGH
주요 요인: deadline, customer" outage (PDict ∅) []).1 = Ok top_result ∧
  ∃ priority score,
    top_result !! u "priority" = Some (PStr priority) ∧
    top_result !! u "urgency_score" = Some (PInt score) ∧
    (base_score (PStr priority) ≤ score ≤ 10)%Z ∧
    sort_key (<[u "priority_analysis" := PDict top_result]> invoice) =
      Ok (weight priority, score).
Proof.
  assert ((analyze_with "우선순위: HIGH
주요 요인: deadline, customer" outage (PDict ∅) []).1 = Ok top_result) as Hrun
    by by_evaluation.
  split; [apply message_is_message|]. split; [done|].
  destruct (analyze_record_is_sortable lower_ascii space_ascii word_ascii repr_opaque
              (answers "우선순위: HIGH
주요 요인: deadline, customer") model outage ∅ top_result []
              (message_is_message _ _ _) Hrun)
    as (priority & score & Hp & Hs & _ & _ & _ & Hbounds & Hkey).
  exists priority, score. split; [done|]. split; [done|]. split; [done|]. apply Hkey.
Defined.

Lemma batch_aborts_at_first_failure_witness :
  ∃ e log',
    batch_classify_with "카테고리: work" ([invoice] ++ ∅ :: [outage]) [] = (Raise e, log') ∧
    exn_cls e = KeyError ∧ length log' = 1%nat.
Proof.
  assert ((batch_classify_with "카테고리: work" [invoice] []).1 = Ok [classified]) as Hrun
    by by_evaluation.
  apply pair_of_fst in Hrun.
  set (log1 := (batch_classify_with "카테고리: work" [invoice] []).2) in *.
  assert (length log1 = 1%nat) as Hlen by (subst log1; by_evaluation).
  exists (Exn KeyError (u "'subject'")), log1. split; [|split; [reflexivity|exact Hlen]].
  apply (proj1 (batch_aborts_at_first_failure lower_ascii space_ascii word_ascii
                  repr_opaque (answers "카테고리: work") model
                  [invoice] [outage] [classified] ∅
                  (Exn KeyError (u "'subject'")) [] log1 log1) Hrun).
  reflexivity.
Defined.

Lemma batch_request_counts_witness :
  Forall (is_record) [invoice; outage] ∧
  ∃ reqs,
    (batch_classify_with "카테고리: work" [invoice; outage] []).2 = reqs ∧
    length reqs = 2%nat.
Proof.
  assert (Forall is_record [invoice; outage]) as Hrec.
  { repeat constructor; apply message_is_record. }
  split; [done|].
  destruct (batch_request_counts lower_ascii space_ascii word_ascii repr_opaque
              (answers "카테고리: work") model [invoice; outage] [] Hrec)
    as ((reqs & Hlog & _ & Hlen) & _).
  exists reqs. split; [done|]. apply Hlen. by_evaluation.
Defined.


Local Abbreviation ranked :=
  [analyzed "low" 3; <[u "classification" := PDict (labelled_as "spam")]> (analyzed "high" 7);
   drafted true].


(** When the counting fails, the exception can depend on the order of the
    records, and so change under sorting: a record whose classification
    is [None] makes [get_category_stats] raise an [AttributeError], one
    whose category is a list a [TypeError], and the first of the two in
    the list decides. *)
Lemma statistics_failure_depends_on_order :
  let unclassified := Py.dict_of [(u "classification", PNone)] in
  let listed :=
    <[u "classification" := PDict (Py.dict_of [(u "category", PList [])])]>
      (analyzed "high" 7) in
  sort_by_priority [unclassified; listed] = Ok [listed; unclassified] ∧
  get_category_stats [unclassified; listed] = Raise (Py.no_attribute PNone (u "get")) ∧
  get_category_stats [listed; unclassified] = Raise (Py.unhashable (PList [])).
Proof. cbv zeta. split_and!; by_evaluation. Qed.

Lemma statistics_add_up_witness :
  Forall (countable_by category_of) mixed ∧
  Forall (countable_by priority_of) mixed ∧
  ∃ by_category by_priority,
    get_category_stats mixed = Ok by_category ∧
    get_priority_stats mixed = Ok by_priority ∧
    total_of by_category [u "urgent"; u "work"; u "marketing"; u "internal"; u "spam"] = 2%Z ∧
    total_of by_priority [u "high"; u "medium"; u "low"] = 3%Z.
Proof.
  assert (Forall (countable_by category_of) mixed) as Hc.
  { repeat constructor.
    - exists (PStr (u "work")). split; by_evaluation.
    - exists (PStr (u "spam")). split; by_evaluation.
    - exists (PStr (u "newsletter")). split; by_evaluation. }
  assert (Forall (countable_by priority_of) mixed) as Hp.
  { repeat constructor; exists (PStr (u "medium")); split; by_evaluation. }
  split; [done|]. split; [done|].
  destruct (statistics_add_up mixed Hc Hp)
    as (by_category & by_priority & Hcat & Hpri & Hsum1 & Hsum2 & _).
  exists by_category, by_priority. split; [done|]. split; [done|]. split.
  - rewrite Hsum1. by_evaluation.
  - rewrite Hsum2. by_evaluation.
Defined.

Local Abbreviation junk := (<[u "classification" := PDict (labelled_as "spam")]> outage).

Lemma drafted_batch_statistics_witness :
  Forall is_record [prioritized; junk] ∧
  ∃ out stats,
    (batch_draft_with "  Thank you, the invoice is paid. " [prioritized; junk] []).1 = Ok out ∧
    get_response_stats out = Ok stats ∧
    stats !! u "total" = Some (PInt 2) ∧
    stats !! u "need_response" = Some (PInt 1) ∧
    stats !! u "no_response" = Some (PInt 1) ∧
    length (batch_draft_with "  Thank you, the invoice is paid. " [prioritized; junk] []).2
      = 1%nat.
Proof.
  assert (Forall is_record [prioritized; junk]) as Hrec.
  { repeat constructor.
    - exists (u "Invoice 42"), (u "Ann <ann@example.com>"),
             (u "Please see the attached invoice."). split_and!; by_evaluation.
    - exists work_result. by_evaluation.
    - exists high_result. by_evaluation.
    - exists (u "URGENT: login error"), (u "Bob <bob@example.com>"),
             (u "Fix the bug asap, please."). split_and!; by_evaluation.
    - exists (labelled_as "spam"). by_evaluation.
    - exists ∅. by_evaluation. }
  split; [done|].
  destruct (batch_draft_with "  Thank you, the invoice is paid. " [prioritized; junk] [])
    as [[out|e] log'] eqn:Hrun.
  2:{ apply (f_equal (λ p : result (list pydict) * list request, is_ok p.1)) in Hrun.
      vm_compute in Hrun. discriminate Hrun. }
  destruct (drafted_batch_statistics space_ascii repr_opaque
              (answers "  Thank you, the invoice is paid. ") model
              [prioritized; junk] out [] log' Hrec Hrun)
    as (stats & reqs & Hstats & Htotal & Hneed & Hno & Hlog & Hlen).
  exists out, stats. split; [done|]. split; [done|]. cbv zeta in *.
  assert (Z.of_nat (length (filter (λ email, wants_reply email = true) [prioritized; junk]))
          = 1%Z) as Hone by by_evaluation.
  rewrite Hone in *. split; [done|]. split; [done|]. split; [done|].
  simpl. rewrite Hlog. simpl. lia.
Defined.

Local Abbreviation bodiless :=
  (Py.dict_of [(u "subject", PStr (u "Invoice 42"));
               (u "from", PStr (u "Ann <ann@example.com>"))]).

Lemma missing_field_is_a_key_error_witness :
  lacks bodiless (u "body") ∧
  classify_with "카테고리: work" bodiless [] = (Raise (key_error (u "body")), []) ∧
  analyze_with "카테고리: work" bodiless (PDict ∅) [] = (Raise (key_error (u "body")), []) ∧
  is_ok (draft_with (answers "카테고리: work") bodiless
                    (PDict (labelled_as "spam")) (PDict ∅) []).1 = true.
Proof.
  assert (lacks bodiless (u "body")) as Hlacks.
  { split; [set_solver|]. split; [by_evaluation|].
    intros k Hin Hne. rewrite !elem_of_cons, elem_of_nil in Hin.
    destruct Hin as [->|[->|[->|[]]]].
    - exists (u "Invoice 42"). by_evaluation.
    - exists (u "Ann <ann@example.com>"). by_evaluation.
    - done. }
  split; [done|].
  destruct (missing_field_is_a_key_error lower_ascii space_ascii word_ascii repr_opaque
              (answers "카테고리: work") model bodiless (labelled_as "spam") ∅
              (u "body") [] Hlacks) as (Hclassify & _ & Hdraft).
  destruct (missing_field_is_a_key_error lower_ascii space_ascii word_ascii repr_opaque
              (answers "카테고리: work") model bodiless ∅ ∅
              (u "body") [] Hlacks) as (_ & Hanalyze & _).
  split; [exact Hclassify|]. split; [exact Hanalyze|]. rewrite Hdraft. by_evaluation.
Defined.

Lemma sender_round_trip_witness :
  space_ascii 32%N = true ∧ space_ascii 34%N = false ∧
  bare_name space_ascii (u "John Doe") ∧ bare_address (u "john@example.com") ∧
  get_sender_email (u "John Doe" ++ u " <" ++ u "john@example.com" ++ u ">") =
    u "john@example.com" ∧
  get_sender_name space_ascii (u "John Doe" ++ u " <" ++ u "john@example.com" ++ u ">") =
    u "John Doe".
Proof.
  assert (bare_name space_ascii (u "John Doe")) as Hname.
  { split; [by vm_compute|]. split.
    - refine (bool_decide_unpack (60%N ∉ u "John Doe") _). by vm_compute.
    - intros c [Hc|Hc]; vm_compute in Hc; injection Hc as <-; by split. }
  assert (bare_address (u "john@example.com")) as Haddr.
  { split; [by vm_compute|]. split.
    - refine (bool_decide_unpack (10%N ∉ u "john@example.com") _). by vm_compute.
    - refine (bool_decide_unpack (62%N ∉ u "john@example.com") _). by vm_compute. }
  split; [done|]. split; [done|]. split; [done|]. split; [done|].
  destruct (sender_round_trip space_ascii (u "John Doe") (u "john@example.com")
              eq_refl eq_refl Hname Haddr) as (Hemail & Hfull & _).
  by split.
Defined.

Local Abbreviation header name value :=
  (PDict (Py.dict_of [(u "name", PStr (u name)); (u "value", PStr (u value))])).

Lemma get_header_first_match_witness :
  Forall (other_header lower_ascii (u "Subject")) [header "To" "me@example.com"] ∧
  header_named lower_ascii (u "Subject") (header "SUBJECT" "Invoice 42")
               (PStr (u "Invoice 42")) ∧
  _get_header lower_ascii
    (PList ([header "To" "me@example.com"] ++ header "SUBJECT" "Invoice 42" :: [PNone]))
    (u "Subject") = Ok (PStr (u "Invoice 42")).
Proof.
  assert (Forall (other_header lower_ascii (u "Subject")) [header "To" "me@example.com"])
    as Hbefore.
  { repeat constructor. eexists _, (u "To"). split; [reflexivity|].
    split; [by_evaluation|]. intros Heq. vm_compute in Heq. discriminate Heq. }
  assert (header_named lower_ascii (u "Subject") (header "SUBJECT" "Invoice 42")
                       (PStr (u "Invoice 42"))) as Hnamed.
  { eexists _, (u "SUBJECT"). split; [reflexivity|]. split_and!; by_evaluation. }
  split; [done|]. split; [done|].
  exact (proj1 (get_header_first_match lower_ascii (u "Subject") _ [PNone] _ _ Hbefore)
               Hnamed).
Defined.

Local Abbreviation space_wide := (λ c : N, space_ascii c || line_break c).
Local Abbreviation page := (u "<p>  Hello   world </p>
<p> bye </p>
").

Lemma html_to_text_normalizes_witness :
  space_wide 32%N = true ∧
  (∀ c, line_break c = true → space_wide c = true) ∧
  soup_plain page = Ok page ∧
  contains (u "  ") (_html_to_text space_wide soup_plain page) = false ∧
  ink space_wide (_html_to_text space_wide soup_plain page) = ink space_wide page.
Proof.
  assert (∀ c, line_break c = true → space_wide c = true) as Hbreak.
  { intros c Hc. by rewrite Hc, orb_true_r. }
  split; [done|]. split; [done|]. split; [done|].
  destruct (html_to_text_normalizes space_wide soup_plain page eq_refl Hbreak) as [Hok _].
  destruct (Hok page eq_refl) as (Hpair & _ & _ & Hink). by split.
Defined.

Local Abbreviation part mime data :=
  (PDict (Py.dict_of [(u "mimeType", PStr (u mime));
                      (u "body", PDict (Py.dict_of [(u "data", PStr (u data))]))])).
Local Abbreviation attachment :=
  (PDict (Py.dict_of [(u "mimeType", PStr (u "application/pdf"));
                      (u "body", PDict (Py.dict_of [(u "attachmentId", PStr (u "a1"))]))])).
Local Abbreviation multipart :=
  (Py.dict_of [(u "mimeType", PStr (u "multipart/mixed"));
               (u "parts",
                PList ([attachment] ++ part "text/html" "<b>Hi</b>  there " ::
                       [part "text/plain" "Hi there"]))]).

Lemma email_body_first_text_part_witness :
  Forall passed_over [attachment] ∧
  decode_plain (PStr (u "<b>Hi</b>  there ")) = Ok (u "<b>Hi</b>  there ") ∧
  text_part (u "text/html") (PStr (u "<b>Hi</b>  there ")) (part "text/html" "<b>Hi</b>  there ") ∧
  _get_email_body space_ascii decode_plain soup_plain (PDict multipart) =
    Ok (u "<b>Hi</b> there").
Proof.
  assert (Forall passed_over [attachment]) as Hbefore.
  { repeat constructor. eexists _, (PStr (u "application/pdf")).
    split; [reflexivity|]. split; [by_evaluation|]. left. split; by_evaluation. }
  assert (text_part (u "text/html") (PStr (u "<b>Hi</b>  there "))
                    (part "text/html" "<b>Hi</b>  there ")) as Hpart.
  { eexists _, (Py.dict_of [(u "data", PStr (u "<b>Hi</b>  there "))]).
    split; [reflexivity|]. split; [by_evaluation|]. split; by_evaluation. }
  split; [done|]. split; [done|]. split; [done|].
  destruct (email_body_first_text_part space_ascii decode_plain soup_plain multipart
              [attachment] [part "text/plain" "Hi there"]
              (part "text/html" "<b>Hi</b>  there ") (PStr (u "<b>Hi</b>  there "))
              (u "<b>Hi</b>  there ") Hbefore eq_refl) as [Hfound _].
  destruct (Hfound ltac:(by_evaluation)) as [_ Hhtml].
  rewrite (Hhtml Hpart). by_evaluation.
Defined.

Local Abbreviation one_part :=
  (Py.dict_of [(u "mimeType", PStr (u "text/plain"));
               (u "body", PDict (Py.dict_of [(u "data", PStr (u "  Hello there. "))]))]).

Lemma email_body_single_part_witness :
  one_part !! u "parts" = None ∧
  one_part !! u "body" = Some (PDict (Py.dict_of [(u "data", PStr (u "  Hello there. "))])) ∧
  _get_email_body space_ascii decode_plain soup_plain (PDict one_part) =
    Ok (u "Hello there.").
Proof.
  assert (one_part !! u "parts" = None) as Hparts by by_evaluation.
  assert (one_part !! u "body" =
          Some (PDict (Py.dict_of [(u "data", PStr (u "  Hello there. "))]))) as Hbody
    by by_evaluation.
  split; [done|]. split; [done|].
  destruct (email_body_single_part space_ascii decode_plain soup_plain one_part _
              Hparts Hbody) as (_ & Hdata & _).
  rewrite (Hdata (PStr (u "  Hello there. ")) (PStr (u "text/plain")) (u "  Hello there. "))
    by by_evaluation.
  by_evaluation.
Defined.

Local Abbreviation stored :=
  (PDict (Py.dict_of
            [(u "snippet", PStr (u "Hello"));
             (u "payload",
              PDict (Py.dict_of
                       [(u "headers", PList [header "Subject" "Invoice 42";
                                             header "From" "Ann <ann@example.com>"]);
                        (u "mimeType", PStr (u "text/plain"));
                        (u "body",
                         PDict (Py.dict_of [(u "data", PStr (u "  Hello there. "))]))]))])).
Local Abbreviation mailbox :=
  (GmailService
     (λ _, Ok (PDict (Py.dict_of
                        [(u "messages",
                          PList [PDict (Py.dict_of [(u "id", PStr (u "m1"))]);
                                 PDict (Py.dict_of [(u "id", PStr (u "m2"))])])])))
     (λ msg_id, if Py.eq_str msg_id (u "m1") then Ok stored
                else Raise (Exn ServiceError (u "not found")))).
Local Abbreviation get_emails_from gmail :=
  (get_emails lower_ascii space_ascii decode_plain soup_plain gmail).

Lemma get_emails_fetches_the_listing_witness :
  lists_ids [PDict (Py.dict_of [(u "id", PStr (u "m1"))]);
             PDict (Py.dict_of [(u "id", PStr (u "m2"))])]
            [PStr (u "m1"); PStr (u "m2")] ∧
  ∃ email,
    get_emails_from (Some mailbox) 100 = Ok [email] ∧
    is_fetched space_ascii (PStr (u "m1")) email.
Proof.
  assert (lists_ids [PDict (Py.dict_of [(u "id", PStr (u "m1"))]);
                     PDict (Py.dict_of [(u "id", PStr (u "m2"))])]
                    [PStr (u "m1"); PStr (u "m2")]) as Hids.
  { repeat constructor; eexists; (split; [reflexivity|by_evaluation]). }
  split; [done|].
  assert (Py.dict_of
            [(u "messages",
              PList [PDict (Py.dict_of [(u "id", PStr (u "m1"))]);
                     PDict (Py.dict_of [(u "id", PStr (u "m2"))])])] !! u "messages" =
          Some (PList [PDict (Py.dict_of [(u "id", PStr (u "m1"))]);
                       PDict (Py.dict_of [(u "id", PStr (u "m2"))])])) as Hlisting
    by by_evaluation.
  destruct (get_emails_fetches_the_listing lower_ascii space_ascii decode_plain soup_plain
              mailbox 100 _ _ _ eq_refl Hlisting Hids)
    as (Hrun & _ & Hshape & _).
  destruct (_get_email_detail lower_ascii space_ascii decode_plain soup_plain mailbox
              (PStr (u "m1"))) as [email|] eqn:Hm1.
  2:{ apply (f_equal (λ o : option pydict, bool_decide (is_Some o))) in Hm1.
      vm_compute in Hm1. discriminate Hm1. }
  assert (_get_email_detail lower_ascii space_ascii decode_plain soup_plain mailbox
            (PStr (u "m2")) = None) as Hm2 by by_evaluation.
  exists email. split.
  - rewrite Hrun. cbn [omap list_omap]. by rewrite Hm1, Hm2.
  - destruct (Hshape email) as (msg_id & Hin & Hdetail & Hfetched).
    { cbn [omap list_omap]. rewrite Hm1, Hm2. by left. }
    rewrite !elem_of_cons, elem_of_nil in Hin. destruct Hin as [->|[->|[]]]; [done|].
    rewrite Hm2 in Hdetail. discriminate Hdetail.
Defined.

Local Abbreviation full_answer := ("카테고리: work
이유: routine question
우선순위: HIGH
주요 요인: deadline, customer"%string).
Local Abbreviation run_stages_with text :=
  (run_stages lower_ascii space_ascii word_ascii repr_opaque (answers text) model).

Lemma pipeline_returns_sorted_records_witness :
  Forall is_message [invoice; outage] ∧
  ∃ out log' final,
    run_stages_with full_answer [invoice; outage] [] = (Ok out, log') ∧
    Forall2 processed [invoice; outage] final ∧ out ≡ₚ final ∧
    length log' = 6%nat.
Proof.
  assert (Forall is_message [invoice; outage]) as Hall.
  { repeat constructor; apply message_is_message. }
  split; [done|].
  assert (length (run_stages_with full_answer [invoice; outage] []).2 = 6%nat) as Hsent
    by by_evaluation.
  destruct (run_stages_with full_answer [invoice; outage] []) as [[out|e] log'] eqn:Hrun.
  2:{ apply (f_equal (λ p : result (list pydict) * list request, is_ok p.1)) in Hrun.
      vm_compute in Hrun. discriminate Hrun. }
  destruct (pipeline_returns_sorted_records lower_ascii space_ascii word_ascii repr_opaque
              (answers full_answer) model _ _ _ _ Hall Hrun)
    as (final & reqs & Hfinal & Hperm & _ & Hlog & _).
  exists out, log', final. split; [done|]. split; [done|]. split; [done|].
  exact Hsent.
Defined.

Lemma analyze_emails_outcomes_witness :
  Some (u "sk-test") = Some (u "sk-test") ∧ u "sk-test" ≠ [] ∧
  analyze_emails lower_ascii space_ascii word_ascii repr_opaque down model
                 decode_plain soup_plain (Some (u "sk-test")) None 20 (Session [] []) [] =
  (Session [] [], report (Exn ValueError (u "먼저 authenticate()를 호출하세요.")), []).
Proof.
  assert (u "sk-test" ≠ []) as Hkey by (by vm_compute).
  split; [done|]. split; [done|].
  destruct (analyze_emails_outcomes lower_ascii space_ascii word_ascii repr_opaque down model
              decode_plain soup_plain (Some (u "sk-test")) None 20 (Session [] []) []
              (u "sk-test") eq_refl Hkey) as (_ & Hfetch & _).
  exact (Hfetch (Exn ValueError (u "먼저 authenticate()를 호출하세요.")) eq_refl).
Defined.

Lemma analyze_reads_the_labelled_priority_witness :
  is_message outage ∧
  (∀ req, answers "우선순위 : High" [] req = Content (Some (u "우선순위 : High"))) ∧
  spaces_apart space_ascii word_ascii ∧
  ∃ word,
    first_labelled_value space_ascii (u "우선순위") word_ascii
      (strip space_ascii (u "우선순위 : High")) word ∧
    (∀ other,
       first_labelled_value space_ascii (u "우선순위") word_ascii
         (strip space_ascii (u "우선순위 : High")) other → other = word) ∧
    (analyze_with "우선순위 : High" outage (PDict ∅) []).1 =
      Ok (Py.dict_of [(u "priority", PStr (lower_ascii word));
                      (u "urgency_score", PInt 10);
                      (u "factors", PList [])]).
Proof.
  split; [apply message_is_message|]. split; [done|].
  split; [exact ascii_spaces_apart|].
  assert ((analyze_with "우선순위 : High" outage (PDict ∅) []).1 =
          Ok (Py.dict_of [(u "priority", PStr (u "high"));
                          (u "urgency_score", PInt 10);
                          (u "factors", PList [])])) as Hrun by by_evaluation.
  destruct (analyze_reads_the_labelled_priority lower_ascii space_ascii word_ascii
              repr_opaque (answers "우선순위 : High") model outage ∅ []
              (u "우선순위 : High") (message_is_message _ _ _) (λ _, eq_refl))
    as (_ & _ & Hfirst).
  destruct (Hfirst ascii_spaces_apart) as (Hread & Hword & _).
  destruct (Hread _ Hrun) as (word & Hw & _ & Hp).
  exists word. split; [exact Hw|].
  split; [exact (proj1 (Hword word Hw))|]. rewrite Hrun. do 2 f_equal.
  revert Hp. dict_lookup. by intros [= <-].
Defined.

Local Abbreviation done_record := (<[u "response_draft" := PDict reply_result]> prioritized).

Lemma display_results_agrees_with_statistics_witness :
  Forall (λ r, ∃ email, processed email r) (st_analyzed_emails (Session [invoice] [done_record])) ∧
  ∃ by_priority high need spam,
    get_priority_stats [done_record] = Ok by_priority ∧
    by_priority !! u "high" = Some high ∧
    display_results EMAIL_CATEGORIES.*1 PRIORITY_LEVELS.*1 (Session [invoice] [done_record]) =
      Ok (1%Z, high, need, spam, [done_record]).
Proof.
  assert (Forall (λ r, ∃ email, processed email r)
                 (st_analyzed_emails (Session [invoice] [done_record]))) as Hall.
  { repeat constructor. exists invoice.
    exists work_result, high_result, reply_result, (u "work"), (u "high"), 8%Z.
    split; [reflexivity|]. split; [by_evaluation|]. split; [set_solver|].
    split; [by_evaluation|]. split; [set_solver|]. split; [by_evaluation|].
    split; [lia|]. split; by_evaluation. }
  split; [done|].
  destruct (display_results_agrees_with_statistics _ Hall)
    as (by_category & by_priority & responses & high & need & spam &
        _ & _ & Hstats & Hhigh & _ & _ & _ & Hshow).
  exists by_priority, high, need, spam. split; [exact Hstats|]. split; [exact Hhigh|].
  exact Hshow.
Defined.
